(** * GeoFi-Attend face service: the matching core of [face_service/app.py]

    A shallow embedding of the service's request handlers and helpers:
    [decode_base64_image], [get_single_face_embedding], [emb_to_b64],
    [b64_to_emb], [cosine_distance], [embed] and [verify].

    The program is written against three libraries.  They are modelled as
    follows.
    - [base64] (module [Base64]): the standard alphabet, CPython's lenient
      decoder [binascii.a2b_base64] and the padded encoder.
    - [numpy] (class [Numpy]): the interface the program uses.  [IEEE] is
      the arithmetic the program runs: float32 array elements stored as four
      little-endian bytes, Python floats as binary64 values, every scalar
      operation correctly rounded ([SpecFloat]).  The kernels of [np.dot]
      and [np.linalg.norm] are the parameters of [Kernels.numpy_with];
      [IEEE.numpy] fixes them to an accumulation from left to right in
      float32.  The error bounds of the float32 program are stated over
      the real numbers: [B2R] is the value of a float, [Exact.dot] and
      [Exact.norm] are the inner product and the L2 norm of real vectors.
    - [cv2] and [insightface]: external collaborators, passed as functions;
      each call is recorded in an event log. *)

From Stdlib Require Import ZArith NArith List Bool String Ascii Lia.
From Stdlib Require Import Strings.Byte DecimalString SpecFloat.
From Stdlib Require Import Reals Lra.
From Stdlib Require Import Sorting.Permutation.
Import ListNotations.

Set Implicit Arguments.

(** ** Python values: exceptions, results, strings *)

Module Py.

(** The exceptions that reach the handlers' [except Exception] clauses. *)
Inductive exn : Type :=
| ValueError (msg : string)
| BinasciiError (msg : string)   (* binascii.Error, a subclass of ValueError *)
| IndexError (msg : string)
| Cv2Error (msg : string).       (* cv2.error *)

(** [str(e)] *)
Definition str (e : exn) : string :=
  match e with
  | ValueError m | BinasciiError m | IndexError m | Cv2Error m => m
  end.

Inductive result (A : Type) : Type :=
| Ok (a : A)
| Raise (e : exn).
Arguments Ok {A} a.
Arguments Raise {A} e.

Definition bind {A B} (r : result A) (k : A -> result B) : result B :=
  match r with
  | Ok a => k a
  | Raise e => Raise e
  end.

(** [for x in xs: ys.append(f x)], stopping at the first exception. *)
Fixpoint mapM {A B} (f : A -> result B) (xs : list A) : result (list B) :=
  match xs with
  | [] => Ok []
  | x :: xs' => bind (f x) (fun y => bind (mapM f xs') (fun ys => Ok (y :: ys)))
  end.

(** A [str] is modelled as a [string] whose characters are the code points
    below 256. *)
Definition code (c : ascii) : N := N_of_ascii c.

(** [str.isspace] on one character: the white space of Latin-1. *)
Definition isspace (c : ascii) : bool :=
  let n := code c in
  ((9 <=? n) && (n <=? 13) || (28 <=? n) && (n <=? 32)
   || (n =? 133) || (n =? 160))%N.

Fixpoint lstrip (s : string) : string :=
  match s with
  | String c s' => if isspace c then lstrip s' else s
  | EmptyString => EmptyString
  end.

Fixpoint string_rev_onto (s acc : string) : string :=
  match s with
  | EmptyString => acc
  | String c s' => string_rev_onto s' (String c acc)
  end.

Definition string_rev (s : string) : string := string_rev_onto s EmptyString.

(** [s.strip()] *)
Definition strip (s : string) : string :=
  string_rev (lstrip (string_rev (lstrip s))).

(** [s.startswith(p)] *)
Definition startswith (p s : string) : bool := String.prefix p s.

(** [s.split(",", 1)[1]]: what follows the first comma; [IndexError] when
    there is no comma. *)
Fixpoint after_first_comma (s : string) : result string :=
  match s with
  | EmptyString => Raise (IndexError "list index out of range")
  | String c s' => if Ascii.eqb c "," then Ok s' else after_first_comma s'
  end.

(** [str(n)] for a natural number *)
Definition str_of_nat (n : nat) : string :=
  NilZero.string_of_uint (Nat.to_uint n).

Definition byte_of_N (n : N) : byte :=
  match Byte.of_N (n mod 256) with
  | Some b => b
  | None => x00
  end.

End Py.

Import Py.

Declare Scope py_scope.
Delimit Scope py_scope with py.
Notation "x <- m ;; k" := (Py.bind m (fun x => k))
  (at level 61, m at next level, right associativity) : py_scope.

(** ** The [base64] module *)

Module Base64.

Local Open Scope N_scope.

Definition alphabet : string :=
  "ABCDEFGHIJKLMNOPQRSTUVWXYZabcdefghijklmnopqrstuvwxyz0123456789+/".

(** [table_b2a_base64]: the character of a six-bit value. *)
Definition table_b2a (v : N) : ascii :=
  match String.get (N.to_nat v) alphabet with
  | Some c => c
  | None => "="%char
  end.

(** [table_a2b_base64]: the six-bit value of a character, [None] for a
    character outside the alphabet. *)
Definition table_a2b (c : ascii) : option N :=
  let n := Py.code c in
  if (65 <=? n) && (n <=? 90) then Some (n - 65)
  else if (97 <=? n) && (n <=? 122) then Some (n - 71)
  else if (48 <=? n) && (n <=? 57) then Some (n + 4)
  else if n =? 43 then Some 62
  else if n =? 47 then Some 63
  else None.

(** The decoder's exit when the input ends inside a quad. *)
Definition a2b_finish (quad_pos : N) (acc : list byte) : Py.result (list byte) :=
  if quad_pos =? 0 then Ok (rev acc)
  else if quad_pos =? 1 then
    Raise (BinasciiError
      ("Invalid base64-encoded string: number of data characters ("
       ++ Py.str_of_nat (List.length acc / 3 * 4 + 1)
       ++ ") cannot be 1 more than a multiple of 4")%string)
  else Raise (BinasciiError "Incorrect padding").

(** [binascii.a2b_base64] without [strict_mode]: characters outside the
    alphabet are skipped, a pad sequence that completes a quad ends the
    parse, and the bytes decoded so far are kept in [acc], last first. *)
Fixpoint a2b_loop (s : string) (quad_pos leftchar pads : N) (acc : list byte)
  : Py.result (list byte) :=
  match s with
  | EmptyString => a2b_finish quad_pos acc
  | String c s' =>
      if Ascii.eqb c "=" then
        if 2 <=? quad_pos then
          if 4 <=? quad_pos + (pads + 1) then Ok (rev acc)
          else a2b_loop s' quad_pos leftchar (pads + 1) acc
        else a2b_loop s' quad_pos leftchar pads acc
      else
        match table_a2b c with
        | None => a2b_loop s' quad_pos leftchar pads acc
        | Some v =>
            if quad_pos =? 0 then a2b_loop s' 1 v 0 acc
            else if quad_pos =? 1 then
              a2b_loop s' 2 (N.land v 15) 0
                (Py.byte_of_N (N.lor (N.shiftl leftchar 2) (N.shiftr v 4)) :: acc)
            else if quad_pos =? 2 then
              a2b_loop s' 3 (N.land v 3) 0
                (Py.byte_of_N (N.lor (N.shiftl leftchar 4) (N.shiftr v 2)) :: acc)
            else
              a2b_loop s' 0 0 0
                (Py.byte_of_N (N.lor (N.shiftl leftchar 6) v) :: acc)
        end
  end.

Fixpoint is_ascii (s : string) : bool :=
  match s with
  | EmptyString => true
  | String c s' => (Py.code c <? 128) && is_ascii s'
  end.

(** [base64.b64decode(s)] for a [str] argument, [validate=False]. *)
Definition b64decode (s : string) : Py.result (list byte) :=
  if is_ascii s then a2b_loop s 0 0 0 []
  else Raise (ValueError "string argument should contain only ASCII characters").

(** [base64.b64encode(b).decode("ascii")] *)
Fixpoint b64encode (bs : list byte) : string :=
  match bs with
  | [] => EmptyString
  | [a] =>
      let a := Byte.to_N a in
      String (table_b2a (N.shiftr a 2))
        (String (table_b2a (N.shiftl (N.land a 3) 4)) "==")
  | [a; b] =>
      let a := Byte.to_N a in
      let b := Byte.to_N b in
      String (table_b2a (N.shiftr a 2))
        (String (table_b2a (N.lor (N.shiftl (N.land a 3) 4) (N.shiftr b 4)))
           (String (table_b2a (N.shiftl (N.land b 15) 2)) "="))
  | a :: b :: c :: rest =>
      let a := Byte.to_N a in
      let b := Byte.to_N b in
      let c := Byte.to_N c in
      String (table_b2a (N.shiftr a 2))
        (String (table_b2a (N.lor (N.shiftl (N.land a 3) 4) (N.shiftr b 4)))
           (String (table_b2a (N.lor (N.shiftl (N.land b 15) 2) (N.shiftr c 6)))
              (String (table_b2a (N.land c 63)) (b64encode rest))))
  end.

(** The 256 bytes, for statements checked byte by byte. *)
Definition all_bytes : list byte :=
  map (fun n => Py.byte_of_N (N.of_nat n)) (seq 0 256).

Definition forall_bytes (P : byte -> bool) : bool := forallb P all_bytes.

(** The six-bit values of the encoder, from the bytes [a], [b], [c] of a
    group. *)
Definition sextet1 (a : byte) : N := N.shiftr (Byte.to_N a) 2.
Definition sextet2 (a b : byte) : N :=
  N.lor (N.shiftl (N.land (Byte.to_N a) 3) 4) (N.shiftr (Byte.to_N b) 4).
Definition sextet3 (b c : byte) : N :=
  N.lor (N.shiftl (N.land (Byte.to_N b) 15) 2) (N.shiftr (Byte.to_N c) 6).
Definition sextet4 (c : byte) : N := N.land (Byte.to_N c) 63.
Definition sextet2_last (a : byte) : N := N.shiftl (N.land (Byte.to_N a) 3) 4.
Definition sextet3_last (b : byte) : N := N.shiftl (N.land (Byte.to_N b) 15) 2.

(** A six-bit value whose character is a data character that decodes to
    it. *)
Definition data_char (v : N) : bool :=
  negb (Ascii.eqb (table_b2a v) "=")
  && (Py.code (table_b2a v) <? 128)
  && match table_a2b (table_b2a v) with
     | Some w => w =? v
     | None => false
     end.

End Base64.

(** ** The [numpy] interface

    What the program asks of numpy.  [float32] is the element type of the
    embedding and bounding-box arrays (and of numpy's float32 scalars),
    [pyfloat] is Python's [float]. *)

Class Numpy : Type := {
  float32 : Type;
  pyfloat : Type;
  (** float32 scalar arithmetic and comparison *)
  f32_sub : float32 -> float32 -> float32;
  f32_mul : float32 -> float32 -> float32;
  f32_div : float32 -> float32 -> float32;
  f32_ltb : float32 -> float32 -> bool;
  (** [x + c] for a float32 scalar [x] and a Python float [c] *)
  f32_add_py : float32 -> pyfloat -> float32;
  (** [np.linalg.norm(v)] of a one-dimensional float32 array *)
  linalg_norm : list float32 -> float32;
  (** the inner product [np.dot] computes for two arrays of one length *)
  dot_kernel : list float32 -> list float32 -> float32;
  (** [float(x)] *)
  float_of_f32 : float32 -> pyfloat;
  (** Python float arithmetic and comparison *)
  py_sub : pyfloat -> pyfloat -> pyfloat;
  py_ltb : pyfloat -> pyfloat -> bool;
  py_leb : pyfloat -> pyfloat -> bool;
  (** the literals [1e-9], [1.0], [999.0] and [0.45] *)
  lit_1e_9 : pyfloat;
  lit_1_0 : pyfloat;
  lit_999_0 : pyfloat;
  lit_0_45 : pyfloat
}.

(** The storage of a float32: four bytes, as [tobytes] writes them and
    [frombuffer] reads them. *)
Class NumpyBuffer (np : Numpy) : Type := {
  f32_of_bytes : byte -> byte -> byte -> byte -> float32;
  f32_to_bytes : float32 -> list byte
}.

(** *** The IEEE 754 instance *)

Module IEEE.

Local Open Scope Z_scope.

(** A float32 as numpy stores it, least significant byte first. *)
Record binary32 : Type := B32 { byte0 : byte; byte1 : byte; byte2 : byte; byte3 : byte }.

Definition Z_of_byte (b : byte) : Z := Z.of_N (Byte.to_N b).
Definition byte_of_Z (z : Z) : byte := Py.byte_of_N (Z.to_N (z mod 256)).

Definition bits_of_b32 (x : binary32) : Z :=
  Z_of_byte (byte0 x) + 256 * (Z_of_byte (byte1 x)
    + 256 * (Z_of_byte (byte2 x) + 256 * Z_of_byte (byte3 x))).

Definition b32_of_bits (z : Z) : binary32 :=
  B32 (byte_of_Z z) (byte_of_Z (Z.shiftr z 8))
      (byte_of_Z (Z.shiftr z 16)) (byte_of_Z (Z.shiftr z 24)).

(** The value of a bit pattern with [mw] fraction bits and [ew] exponent
    bits. *)
Definition SF_of_bits (mw ew : Z) (bits : Z) : spec_float :=
  let s := Z.testbit bits (mw + ew) in
  let e := Z.land (Z.shiftr bits mw) (Z.ones ew) in
  let m := Z.land bits (Z.ones mw) in
  let bias := Z.ones (ew - 1) in
  if e =? 0 then
    match m with
    | Zpos p => S754_finite s p (1 - bias - mw)
    | _ => S754_zero s
    end
  else if e =? Z.ones ew then
    (if m =? 0 then S754_infinity s else S754_nan)
  else
    match Z.lor m (Z.shiftl 1 mw) with
    | Zpos p => S754_finite s p (e - bias - mw)
    | _ => S754_nan
    end.

(** The bit pattern of a value; a NaN is written as the quiet NaN
    [0x7fc00000]: the sign bit and the payload of the NaN that the
    hardware produces are not modelled. *)
Definition bits_of_SF (mw ew : Z) (x : spec_float) : Z :=
  let bias := Z.ones (ew - 1) in
  let sgn (s : bool) := if s then Z.shiftl 1 (mw + ew) else 0 in
  match x with
  | S754_zero s => sgn s
  | S754_infinity s => Z.lor (sgn s) (Z.shiftl (Z.ones ew) mw)
  | S754_nan => Z.lor (Z.shiftl (Z.ones ew) mw) (Z.shiftl 1 (mw - 1))
  | S754_finite s m e =>
      if Zpos m <? Z.shiftl 1 mw
      then Z.lor (sgn s) (Zpos m)
      else Z.lor (sgn s)
             (Z.lor (Z.shiftl (e + bias + mw) mw) (Z.land (Zpos m) (Z.ones mw)))
  end.

Definition is_nan (x : spec_float) : bool :=
  match x with
  | S754_nan => true
  | _ => false
  end.

Definition SF_of_b32 (x : binary32) : spec_float := SF_of_bits 23 8 (bits_of_b32 x).
Definition b32_of_SF (x : spec_float) : binary32 := b32_of_bits (bits_of_SF 23 8 x).

(** Rounding to binary32 and to binary64 (round to nearest, ties to even). *)
Definition round32 (x : spec_float) : spec_float :=
  match x with
  | S754_finite s m e => binary_round 24 128 s m e
  | _ => x
  end.

Definition round64 (x : spec_float) : spec_float :=
  match x with
  | S754_finite s m e => binary_round 53 1024 s m e
  | _ => x
  end.

Definition b64_of_Z (z : Z) : spec_float := binary_normalize 53 1024 z 0 false.

(** The binary64 value of the decimal literal [n/d]. *)
Definition b64_lit (n d : Z) : spec_float := SFdiv 53 1024 (b64_of_Z n) (b64_of_Z d).

Definition lift2 (op : spec_float -> spec_float -> spec_float) (x y : binary32) : binary32 :=
  b32_of_SF (op (SF_of_b32 x) (SF_of_b32 y)).

(** A float32 inner product: every product is rounded to float32 and the
    products are accumulated from left to right.  numpy hands [np.dot],
    and [np.linalg.norm] through it, to a BLAS routine whose order of
    accumulation and intermediate precision depend on the platform; its
    result can differ from this one in the last bits, and is the same
    whenever the products and the partial sums are float32 numbers.  The
    statements on the accuracy of the program are made for every kernel
    ([Kernels.numpy_with]). *)
Definition sdot (a b : list binary32) : spec_float :=
  fold_left
    (fun acc xy => SFadd 24 128 acc (SFmul 24 128 (SF_of_b32 (fst xy)) (SF_of_b32 (snd xy))))
    (combine a b) (S754_zero false).

#[export] Instance numpy : Numpy := {|
  float32 := binary32;
  pyfloat := spec_float;
  f32_sub := lift2 (SFsub 24 128);
  f32_mul := lift2 (SFmul 24 128);
  f32_div := lift2 (SFdiv 24 128);
  f32_ltb := fun x y => SFltb (SF_of_b32 x) (SF_of_b32 y);
  (* NEP 50: the Python float adapts to the float32 scalar *)
  f32_add_py := fun x c => b32_of_SF (SFadd 24 128 (SF_of_b32 x) (round32 c));
  (* sqrt(x.dot(x)), in float32 *)
  linalg_norm := fun v => b32_of_SF (SFsqrt 24 128 (sdot v v));
  dot_kernel := fun a b => b32_of_SF (sdot a b);
  (* exact: every float32 value is a binary64 value *)
  float_of_f32 := fun x => round64 (SF_of_b32 x);
  py_sub := SFsub 53 1024;
  py_ltb := SFltb;
  py_leb := SFleb;
  lit_1e_9 := b64_lit 1 1000000000;
  lit_1_0 := b64_of_Z 1;
  lit_999_0 := b64_of_Z 999;
  lit_0_45 := b64_lit 45 100
|}.

#[export] Instance buffer : NumpyBuffer numpy := {|
  f32_of_bytes := B32;
  f32_to_bytes := fun x => [byte0 x; byte1 x; byte2 x; byte3 x]
|}.

End IEEE.

(** *** Real vectors: the inner product and the L2 norm

    In these the error bounds of the float32 program are stated. *)

Module Exact.

Local Open Scope R_scope.

Fixpoint dot (a b : list R) : R :=
  match a, b with
  | x :: a', y :: b' => x * y + dot a' b'
  | _, _ => 0
  end.

Definition norm (v : list R) : R := sqrt (dot v v).

End Exact.

(** ** External collaborators and the event log

    [cv2.imdecode] and [face_app.get] are calls into the image decoder and
    the face model.  A computation returns, with its result, the calls it
    made, in order. *)

Inductive event (image : Type) : Type :=
| CallImdecode (buf : list byte)
| CallFaceGet (img : image).
Arguments CallImdecode {image} buf.
Arguments CallFaceGet {image} img.

Definition io (image A : Type) : Type := (list (event image) * Py.result A)%type.

Definition io_ret {image A} (a : A) : io image A := ([], Ok a).
Definition io_raise {image A} (e : Py.exn) : io image A := ([], Raise e).
Definition io_lift {image A} (r : Py.result A) : io image A := ([], r).

Definition io_bind {image A B} (m : io image A) (k : A -> io image B) : io image B :=
  match m with
  | (log, Ok a) => let (log', r) := k a in (log ++ log', r)
  | (log, Raise e) => (log, Raise e)
  end.

Declare Scope io_scope.
Delimit Scope io_scope with io.
Notation "x <- m ;; k" := (io_bind m (fun x => k))
  (at level 61, m at next level, right associativity) : io_scope.

(** What a handler hands back to FastAPI: a response body, or
    [HTTPException(status_code, detail)]. *)
Inductive response (A : Type) : Type :=
| Body (a : A)
| HTTPException (status_code : nat) (detail : string).
Arguments Body {A} a.
Arguments HTTPException {A} status_code detail.

(** ** [list.sort(key=..., reverse=True)]

    Python's sort is stable and compares keys with [<] only.  With
    [reverse=True] it sorts as if every comparison were reversed, and still
    keeps elements with equal keys in their original order: the list is
    reversed, sorted stably in ascending order, and reversed again.  The
    insertion sort below returns what Python's merge sort returns when
    [<] orders the keys; with a NaN among the keys the comparisons are
    inconsistent and the two may differ. *)

Section Sort.

Variables (A K : Type) (key : A -> K) (ltb : K -> K -> bool).

(** [x] goes before the first element whose key is not below [x]'s. *)
Fixpoint insort (x : A) (sorted : list A) : list A :=
  match sorted with
  | [] => [x]
  | y :: rest =>
      if ltb (key y) (key x) then y :: insort x rest else x :: y :: rest
  end.

Definition sort_ascending (l : list A) : list A := fold_right insort [] l.

Definition sort_reverse (l : list A) : list A := rev (sort_ascending (rev l)).


End Sort.

(** ** The data of the service

    A detection of the face model: [bbox] is the array (x1, y1, x2, y2),
    [embedding] may be [None].  [F] is the type of the array elements, [D]
    the type of Python floats. *)
Record Face (F : Type) : Type := {
  bbox0 : F;
  bbox1 : F;
  bbox2 : F;
  bbox3 : F;
  embedding : option (list F)
}.

Record EmbedReq : Type := { image_base64 : string }.

Record EmbedRes : Type := { model : string; embedding_b64 : string }.

Record VerifyReq (D : Type) : Type := {
  req_image_base64 : string;
  req_templates_b64 : list string;
  req_threshold : option D
}.

Record VerifyRes (D : Type) : Type := {
  res_match : bool;
  res_best_distance : D;
  res_threshold : D;
  res_model : string
}.

(** ** The service *)

Section Service.

Context {np : Numpy} {nb : NumpyBuffer np}.

(** cosine distance threshold *)
Definition DEFAULT_THRESHOLD : pyfloat := lit_0_45.

(** [np.frombuffer(raw, dtype=np.float32)] *)
Fixpoint chunks4 (raw : list byte) : list float32 :=
  match raw with
  | b0 :: b1 :: b2 :: b3 :: rest => f32_of_bytes b0 b1 b2 b3 :: chunks4 rest
  | _ => []
  end.

Definition frombuffer (raw : list byte) : Py.result (list float32) :=
  if (List.length raw mod 4 =? 0)%nat then Ok (chunks4 raw)
  else Raise (ValueError "buffer size must be a multiple of element size").

(** [emb.tobytes()] *)
Definition tobytes (emb : list float32) : list byte := flat_map f32_to_bytes emb.

(** The message of [np.dot] for one-dimensional arrays of lengths [n] and
    [m] that differ. *)
Definition not_aligned (n m : nat) : string :=
  let n := Py.str_of_nat n in
  let m := Py.str_of_nat m in
  ("shapes (" ++ n ++ ",) and (" ++ m ++ ",) not aligned: "
   ++ n ++ " (dim 0) != " ++ m ++ " (dim 0)")%string.

(** [np.dot(a, b)] for one-dimensional arrays *)
Definition np_dot (a b : list float32) : Py.result float32 :=
  if (List.length a =? List.length b)%nat then Ok (dot_kernel a b)
  else Raise (ValueError (not_aligned (List.length a) (List.length b))).

(** [emb / (np.linalg.norm(emb) + 1e-9)] *)
Definition normalize (emb : list float32) : list float32 :=
  let n := f32_add_py (linalg_norm emb) lit_1e_9 in
  map (fun x => f32_div x n) emb.

Definition emb_to_b64 (emb : list float32) : string :=
  let b := tobytes emb in
  Base64.b64encode b.

Definition b64_to_emb (b64str : string) : Py.result (list float32) :=
  (raw <- Base64.b64decode b64str ;;
   emb <- frombuffer raw ;;
   (* normalize (defensive) *)
   Ok (normalize emb))%py.

Definition cosine_distance (a b : list float32) : Py.result pyfloat :=
  (* if a,b normalized, cosine similarity = dot *)
  (sim <- np_dot a b ;;
   (* distance = 1 - sim *)
   Ok (py_sub lit_1_0 (float_of_f32 sim)))%py.

(** The key of the sort: [(f.bbox[2]-f.bbox[0]) * (f.bbox[3]-f.bbox[1])] *)
Definition area (f : Face float32) : float32 :=
  f32_mul (f32_sub (bbox2 f) (bbox0 f)) (f32_sub (bbox3 f) (bbox1 f)).

(** The face whose embedding is used: [faces[0]] after the sort. *)
Definition primary_face (faces : list (Face float32)) : Py.result (Face float32) :=
  match faces with
  | [] => Raise (ValueError "no face detected")
  | _ :: _ =>
      match sort_reverse area f32_ltb faces with
      | f :: _ => Ok f
      | [] => Raise (IndexError "list index out of range")
      end
  end.

Variable image : Type.
Variable cv2_imdecode : list byte -> Py.result (option image).
Variable face_app_get : image -> Py.result (list (Face float32)).

Definition decode_base64_image (data_url_or_b64 : string) : io image image :=
  (if String.eqb data_url_or_b64 "" then io_raise (ValueError "empty image")
   else
     let s := Py.strip data_url_or_b64 in
     s <- io_lift (if Py.startswith "data:" s
                   then Py.after_first_comma s else Ok s) ;;
     img_bytes <- io_lift (Base64.b64decode s) ;;
     (* np.frombuffer(img_bytes, dtype=np.uint8): the bytes themselves *)
     let arr := img_bytes in
     (* cv2.imdecode(arr, cv2.IMREAD_COLOR) *)
     img <- ([CallImdecode arr], cv2_imdecode arr) ;;
     match img with
     | None => io_raise (ValueError "invalid image bytes")
     | Some img => io_ret img
     end)%io.

Definition get_single_face_embedding (img_bgr : image) : io image (list float32) :=
  ((* face_app.get(img_bgr) *)
   faces <- ([CallFaceGet img_bgr], face_app_get img_bgr) ;;
   (* with several faces, take the largest *)
   f <- io_lift (primary_face faces) ;;
   match embedding f with
   | None => io_raise (ValueError "embedding empty")
   | Some emb =>
       if (List.length emb =? 0)%nat then io_raise (ValueError "embedding empty")
       else
         (* emb.astype(np.float32) is emb; normalize for cosine *)
         io_ret (normalize emb)
   end)%io.

Definition MODEL : string := "insightface/buffalo_l".

Definition http_400 {A} (r : Py.result A) : response A :=
  match r with
  | Ok a => Body a
  | Raise e => HTTPException 400 (Py.str e)
  end.

Definition embed (req : EmbedReq) : list (event image) * response EmbedRes :=
  let (log, r) :=
    (img <- decode_base64_image (image_base64 req) ;;
     emb <- get_single_face_embedding img ;;
     io_ret {| model := MODEL; embedding_b64 := emb_to_b64 emb |})%io in
  (log, http_400 r).

(** The loop of [verify] over the templates, from the current [best]. *)
Fixpoint best_loop (probe : list float32) (templates : list string) (best : pyfloat)
  : Py.result pyfloat :=
  match templates with
  | [] => Ok best
  | t :: rest =>
      (emb <- b64_to_emb t ;;
       d <- cosine_distance probe emb ;;
       best_loop probe rest (if py_ltb d best then d else best))%py
  end.

Definition verify (req : VerifyReq pyfloat) : list (event image) * response (VerifyRes pyfloat) :=
  match req_templates_b64 req with
  | [] => ([], HTTPException 400 "no templates")
  | _ :: _ =>
      let thr := match req_threshold req with
                 | Some t => t
                 | None => DEFAULT_THRESHOLD
                 end in
      let (log, r) :=
        (img <- decode_base64_image (req_image_base64 req) ;;
         probe <- get_single_face_embedding img ;;
         best <- io_lift (best_loop probe (req_templates_b64 req) lit_999_0) ;;
         io_ret {| res_match := py_leb best thr;
                   res_best_distance := best;
                   res_threshold := thr;
                   res_model := MODEL |})%io in
      (log, http_400 r)
  end.

(** [health] *)
Definition health : string := "OK".

End Service.

(** ** Views of the handlers used in the statements

    These are not functions of the source; each is related to the source's
    function by a lemma below. *)

Section Views.

Context {np : Numpy} {nb : NumpyBuffer np}.

(** The first two statements of the loop body: the distance of one
    template to the probe. *)
Definition template_distance (probe : list float32) (t : string) : Py.result pyfloat :=
  (emb <- b64_to_emb t ;; cosine_distance probe emb)%py.

(** The distance of every template to the probe, in iteration order; an
    exception of [b64_to_emb] or [cosine_distance] ends the iteration. *)
Definition distances (probe : list float32) (templates : list string)
  : Py.result (list pyfloat) :=
  Py.mapM (template_distance probe) templates.

(** One iteration of the loop body [if d < best: best = d]. *)
Definition update (best d : pyfloat) : pyfloat := if py_ltb d best then d else best.

(** The loop over given distances, with a ghost component: the index of
    the iteration that last executed [best = d]. *)
Fixpoint scan_from (ds : list pyfloat) (i : nat) (best : pyfloat) (at_ : option nat)
  : pyfloat * option nat :=
  match ds with
  | [] => (best, at_)
  | d :: ds' =>
      if py_ltb d best then scan_from ds' (S i) d (Some i)
      else scan_from ds' (S i) best at_
  end.

Definition scan (ds : list pyfloat) : pyfloat * option nat :=
  scan_from ds 0 lit_999_0 None.

(** The threshold a request is decided with. *)
Definition threshold_used (req : VerifyReq pyfloat) : pyfloat :=
  match req_threshold req with
  | Some t => t
  | None => DEFAULT_THRESHOLD
  end.

Variable image : Type.
Variable cv2_imdecode : list byte -> Py.result (option image).
Variable face_app_get : image -> Py.result (list (Face float32)).

(** The first two statements of the handlers' [try] blocks. *)
Definition probe_of (image_b64 : string) : io image (list float32) :=
  (img <- decode_base64_image cv2_imdecode image_b64 ;;
   get_single_face_embedding face_app_get img)%io.

End Views.

(** ** Sample data

    Concrete requests on which the statements below are evaluated.  The
    image decoder hands back the buffer it is given and the face model
    returns a fixed list of detections. *)

Module Sample.

Import IEEE.
Local Open Scope Z_scope.

(** [np.float32(n/d)] *)
Definition f32 (n d : Z) : binary32 := b32_of_SF (round32 (b64_lit n d)).

(** The model's embedding length. *)
Definition L : nat := 512.

(** [v] followed by zeros, up to length [L]. *)
Definition padded (v : list binary32) : list binary32 :=
  (v ++ repeat (f32 0 1) (L - List.length v))%list.

Definition stub_imdecode (buf : list byte) : Py.result (option (list byte)) :=
  Ok (Some buf).

Definition square_face (side : Z) (emb : option (list binary32)) : Face binary32 :=
  {| bbox0 := f32 0 1; bbox1 := f32 0 1;
     bbox2 := f32 side 1; bbox3 := f32 side 1;
     embedding := emb |}.

(** A model that detects one face, with raw embedding [raw]. *)
Definition one_face (raw : list binary32) (img : list byte)
  : Py.result (list (Face binary32)) :=
  Ok [square_face 10 (Some raw)].

Definition nan32 : binary32 := b32_of_SF S754_nan.

(** Raw embeddings: (3, 4, 0, ...), (4, 3, 0, ...), (1e-9, 0, ...) and
    (NaN, 0, ...). *)
Definition raw_34 : list binary32 := padded [f32 3 1; f32 4 1].
Definition raw_43 : list binary32 := padded [f32 4 1; f32 3 1].
Definition raw_tiny : list binary32 := padded [f32 1 1000000000].
Definition raw_nan : list binary32 := padded [nan32].

(** Four detections with square boxes of areas 100, 400, 400 and 25; the
    two largest differ by their embeddings. *)
Definition faces_100_400_400_25 : list (Face binary32) :=
  [square_face 10 (Some [f32 1 1]);
   square_face 20 (Some [f32 2 1]);
   square_face 20 (Some [f32 3 1]);
   square_face 5 (Some [f32 4 1])].

Definition request (templates : list string) (threshold : option spec_float)
  : VerifyReq spec_float :=
  {| req_image_base64 := "AAAA";
     req_templates_b64 := templates;
     req_threshold := threshold |}.

End Sample.

(** ** The invariant of the loop over the distances *)

Module Invariant.

Import IEEE.

(** What holds of [best] and of the ghost index after the loop has seen
    the distances [seen], when it started from the number [b0]. *)
Record inv (b0 : spec_float) (seen : list spec_float)
       (best : spec_float) (at_ : option nat) : Prop := {
  inv_number : is_nan best = false;
  inv_capped : SFleb best b0 = true;
  inv_lower : forall d, In d seen -> is_nan d = false -> SFleb best d = true;
  inv_index :
    match at_ with
    | Some k =>
        nth_error seen k = Some best
        /\ SFltb best b0 = true
        /\ forall j d, (j < k)%nat -> nth_error seen j = Some d -> SFleb d best = false
    | None =>
        best = b0 /\ forall d, In d seen -> SFltb d b0 = false
    end
}.

End Invariant.

(** ** Further views and data

    Used in the statements about the image payloads, the transport strings
    and the enrolled templates. *)

Module Text.

(** [s.rstrip()] *)
Definition rstrip (s : string) : string := string_rev (lstrip (string_rev s)).

(** [',' in s] *)
Fixpoint has_comma (s : string) : bool :=
  match s with
  | EmptyString => false
  | String c s' => Ascii.eqb c "," || has_comma s'
  end.

(** The base64 text of an image payload, as [decode_base64_image] computes
    it before the call of [base64.b64decode]: the stripped payload, or
    what follows its first comma when it starts with [data:]. *)
Definition base64_part (data_url_or_b64 : string) : Py.result string :=
  let s := strip data_url_or_b64 in
  if startswith "data:" s then after_first_comma s else Ok s.

(** A character [binascii.a2b_base64] steps over: neither a character of
    the alphabet nor the pad. *)
Definition ignored (c : ascii) : bool :=
  negb (Ascii.eqb c "=")
  && match Base64.table_a2b c with
     | None => true
     | Some _ => false
     end.

End Text.

Module Float32.

Import IEEE.

(** [np.isfinite(x)] for a float32: neither NaN nor an infinity. *)
Definition isfinite (x : binary32) : bool :=
  match SF_of_b32 x with
  | S754_zero _ | S754_finite _ _ _ => true
  | _ => false
  end.

(** The float32 +0.0: four zero bytes. *)
Definition zero32 : binary32 := B32 x00 x00 x00 x00.

Definition is_zero (x : spec_float) : bool :=
  match x with
  | S754_zero _ => true
  | _ => false
  end.

End Float32.

(** Short embeddings and their transport strings. *)
Module Fixture.

Import IEEE.

Definition short_34 : list binary32 := [Sample.f32 3 1; Sample.f32 4 1].
Definition short_43 : list binary32 := [Sample.f32 4 1; Sample.f32 3 1].

Definition template_34 : string := emb_to_b64 (normalize short_34).
Definition template_43 : string := emb_to_b64 (normalize short_43).

(** A model that detects one face, with raw embedding (3, 4). *)
Definition face_34 : list byte -> Py.result (list (Face binary32)) :=
  Sample.one_face short_34.

End Fixture.

(** ** The values of floats, and numpy with its kernels left open

    Used in the statements on the accuracy of the normalizer and of the
    distance. *)

(** The real value of a power of two and of a float. *)
Definition bpow (e : Z) : R := powerRZ 2 e.

Definition B2R (x : spec_float) : R :=
  match x with
  | S754_finite s m e => (if s then -1 else 1) * (IZR (Zpos m) * bpow e)
  | _ => 0
  end.

(** A float that is a number: a zero or a finite value. *)
Definition SF_finite (x : spec_float) : bool :=
  match x with
  | S754_zero _ | S754_finite _ _ _ => true
  | _ => false
  end.

(** The float32 arithmetic of [IEEE], with the kernels of
    [np.linalg.norm] and [np.dot] left open: [IEEE.numpy] is
    [numpy_with] at the kernels of [IEEE]. *)
Module Kernels.

Import IEEE.

Definition numpy_with (norm_kernel : list binary32 -> binary32)
           (dot : list binary32 -> list binary32 -> binary32) : Numpy := {|
  float32 := binary32;
  pyfloat := spec_float;
  f32_sub := lift2 (SFsub 24 128);
  f32_mul := lift2 (SFmul 24 128);
  f32_div := lift2 (SFdiv 24 128);
  f32_ltb := fun x y => SFltb (SF_of_b32 x) (SF_of_b32 y);
  (* NEP 50: the Python float adapts to the float32 scalar *)
  f32_add_py := fun x c => b32_of_SF (SFadd 24 128 (SF_of_b32 x) (round32 c));
  linalg_norm := norm_kernel;
  dot_kernel := dot;
  (* exact: every float32 value is a binary64 value *)
  float_of_f32 := fun x => round64 (SF_of_b32 x);
  py_sub := SFsub 53 1024;
  py_ltb := SFltb;
  py_leb := SFleb;
  lit_1e_9 := b64_lit 1 1000000000;
  lit_1_0 := b64_of_Z 1;
  lit_999_0 := b64_of_Z 999;
  lit_0_45 := b64_lit 45 100
|}.

Definition buffer_with (norm_kernel : list binary32 -> binary32)
           (dot : list binary32 -> list binary32 -> binary32)
  : NumpyBuffer (numpy_with norm_kernel dot) :=
  @Build_NumpyBuffer (numpy_with norm_kernel dot)
    B32 (fun x => [byte0 x; byte1 x; byte2 x; byte3 x]).

(** The real number a float32 stands for (0 for NaN and the infinities). *)
Definition value32 (x : binary32) : R := B2R (SF_of_b32 x).

Definition values (v : list binary32) : list R := map value32 v.

End Kernels.

Section Divisor.

Context {np : Numpy}.

(** The number the normalizer divides by: [np.linalg.norm(emb) + 1e-9]. *)
Definition divisor (emb : list float32) : float32 :=
  f32_add_py (linalg_norm emb) lit_1e_9.

End Divisor.

(** The value of the float32 that the Python float [1e-9] becomes when it
    is added to a float32 scalar. *)
Definition eps32 : R := B2R (IEEE.round32 (IEEE.b64_lit 1 1000000000)).

(** * Properties *)

(** ** The handlers, step by step *)

Section Handlers.

Context {np : Numpy} {nb : NumpyBuffer np}.
Variable image : Type.
Variable cv2_imdecode : list byte -> Py.result (option image).
Variable face_app_get : image -> Py.result (list (Face float32)).

Lemma io_bind_ret_r {A} (m : io image A) : io_bind m (fun a => io_ret a) = m.
Proof.
  destruct m as [log [a | e]]; simpl; [rewrite app_nil_r|]; reflexivity.
Qed.

(** [verify] after its guard: the probe, then the loop, then the body. *)
Lemma verify_unfold (req : VerifyReq pyfloat) :
  verify cv2_imdecode face_app_get req =
  match req_templates_b64 req with
  | [] => ([], HTTPException 400 "no templates")
  | _ :: _ =>
      (fst (probe_of cv2_imdecode face_app_get (req_image_base64 req)),
       http_400
         (probe <- snd (probe_of cv2_imdecode face_app_get (req_image_base64 req)) ;;
          best <- best_loop probe (req_templates_b64 req) lit_999_0 ;;
          Ok {| res_match := py_leb best (threshold_used req);
                res_best_distance := best;
                res_threshold := threshold_used req;
                res_model := MODEL |})%py)
  end.
Proof.
  unfold verify, probe_of, threshold_used.
  destruct (req_templates_b64 req) as [| t ts]; [reflexivity|].
  destruct (decode_base64_image cv2_imdecode (req_image_base64 req)) as [l1 [img | e]];
    cbn [io_bind io_lift io_ret fst snd Py.bind http_400]; [| reflexivity].
  destruct (get_single_face_embedding face_app_get img) as [l2 [probe | e]];
    cbn [io_bind io_lift io_ret fst snd Py.bind http_400]; [| reflexivity].
  destruct (best_loop probe (t :: ts) lit_999_0) as [best | e];
    cbn [io_bind io_lift io_ret fst snd Py.bind http_400];
    rewrite ?app_nil_r; reflexivity.
Qed.

(** The loop is the scan of the distances. *)
Lemma best_loop_scan (probe : list float32) (templates : list string) :
  forall (best : pyfloat) (i : nat) (k : option nat),
    best_loop probe templates best =
    (ds <- distances probe templates ;; Ok (fst (scan_from ds i best k)))%py.
Proof.
  unfold distances, template_distance.
  induction templates as [| t ts IH]; intros best i k; simpl; [reflexivity|].
  destruct (b64_to_emb t) as [emb | e]; simpl; [| reflexivity].
  destruct (cosine_distance probe emb) as [d | e]; simpl; [| reflexivity].
  destruct (py_ltb d best) eqn:Hlt.
  - rewrite (IH d (S i) (Some i)).
    destruct (Py.mapM _ ts); simpl; [rewrite Hlt|]; reflexivity.
  - rewrite (IH best (S i) k).
    destruct (Py.mapM _ ts); simpl; [rewrite Hlt|]; reflexivity.
Qed.

Lemma distances_length (probe : list float32) (templates : list string) :
  forall ds, distances probe templates = Ok ds -> List.length ds = List.length templates.
Proof.
  unfold distances, template_distance.
  induction templates as [| t ts IH]; simpl; intros ds H.
  - inversion H; reflexivity.
  - destruct (b64_to_emb t) as [emb | e]; simpl in H; [| discriminate].
    destruct (cosine_distance probe emb) as [d | e]; simpl in H; [| discriminate].
    destruct (Py.mapM _ ts) as [ds' | e]; simpl in H; [| discriminate].
    inversion H; subst; simpl; f_equal; apply IH; reflexivity.
Qed.

(** A successful [verify], read backwards. *)
Lemma verify_body_inv (req : VerifyReq pyfloat) (log : list (event image)) (res : VerifyRes pyfloat) :
  verify cv2_imdecode face_app_get req = (log, Body res) ->
  exists probe ds,
    req_templates_b64 req <> []
    /\ probe_of cv2_imdecode face_app_get (req_image_base64 req) = (log, Ok probe)
    /\ distances probe (req_templates_b64 req) = Ok ds
    /\ res_best_distance res = fst (scan ds)
    /\ res_threshold res = threshold_used req
    /\ res_match res = py_leb (res_best_distance res) (res_threshold res)
    /\ res_model res = MODEL.
Proof.
  rewrite verify_unfold.
  destruct (req_templates_b64 req) as [| t ts] eqn:Ets; [discriminate|].
  destruct (probe_of cv2_imdecode face_app_get (req_image_base64 req))
    as [l [probe | e]]; cbn [fst snd Py.bind http_400]; [| discriminate].
  rewrite (best_loop_scan probe (t :: ts) lit_999_0 0 None).
  destruct (distances probe (t :: ts)) as [ds | e] eqn:Eds;
    cbn [fst snd Py.bind http_400]; [| discriminate].
  intros H; inversion H; subst; clear H.
  exists probe, ds; simpl.
  repeat split; try reflexivity; [discriminate | exact Eds].
Qed.

End Handlers.

(** ** The order of IEEE values

    [SFcompare] answers [None] when an operand is NaN and is a total
    preorder on the other values. *)

Module FloatOrder.

Local Open Scope Z_scope.

Ltac cmp_cases :=
  repeat match goal with
    | |- context [Z.compare ?a ?b] => destruct (Z.compare_spec a b)
    | H : context [Z.compare ?a ?b] |- _ => destruct (Z.compare_spec a b)
    | |- context [Pos.compare_cont Eq ?a ?b] =>
        change (Pos.compare_cont Eq a b) with (Pos.compare a b);
        destruct (Pos.compare_spec a b)
    | H : context [Pos.compare_cont Eq ?a ?b] |- _ =>
        change (Pos.compare_cont Eq a b) with (Pos.compare a b) in H;
        destruct (Pos.compare_spec a b)
    end.

Import IEEE.

Lemma SFcompare_antisym (a b : spec_float) :
  SFcompare b a = option_map CompOpp (SFcompare a b).
Proof.
  destruct a as [sa | sa | | sa ma ea], b as [sb | sb | | sb mb eb];
    try destruct sa; try destruct sb; simpl; try reflexivity;
    cmp_cases; simpl; try reflexivity; try lia.
Qed.

Lemma SFcompare_trans (a b c : spec_float) (c1 c2 : comparison) :
  SFcompare a b = Some c1 -> SFcompare b c = Some c2 -> c1 <> Gt -> c2 <> Gt ->
  exists c3, SFcompare a c = Some c3 /\ c3 <> Gt /\ (c3 = Eq -> c1 = Eq /\ c2 = Eq).
Proof.
  destruct a as [sa | sa | | sa ma ea], b as [sb | sb | | sb mb eb],
    c as [sc | sc | | sc mc ec];
    try destruct sa; try destruct sb; try destruct sc; simpl;
    intros H1 H2 N1 N2; try discriminate;
    inversion H1; inversion H2; subst; clear H1 H2;
    try (exfalso; congruence);
    try (eexists; split; [reflexivity | split; [discriminate | try discriminate; auto]]).
  all: cmp_cases; simpl in *; subst; try (exfalso; congruence); try lia;
    try (eexists; split; [reflexivity | split; [discriminate | try discriminate; auto]]).
Qed.

Lemma SFcompare_some (a b : spec_float) :
  is_nan a = false -> is_nan b = false -> exists c, SFcompare a b = Some c.
Proof.
  destruct a as [sa | sa | | sa ma ea], b as [sb | sb | | sb mb eb];
    simpl; intros Ha Hb; try discriminate; eexists; reflexivity.
Qed.

Lemma SFcompare_nan_l (a b : spec_float) (c : comparison) :
  SFcompare a b = Some c -> is_nan a = false.
Proof. destruct a; simpl; [reflexivity .. | discriminate | reflexivity]. Qed.

Lemma SFcompare_nan_r (a b : spec_float) (c : comparison) :
  SFcompare a b = Some c -> is_nan b = false.
Proof.
  destruct b; simpl; [reflexivity .. | | reflexivity].
  destruct a; discriminate.
Qed.

Lemma SFcompare_refl (a : spec_float) : is_nan a = false -> SFcompare a a = Some Eq.
Proof.
  destruct a as [sa | sa | | sa ma ea]; try destruct sa; simpl; intros H;
    try discriminate; try reflexivity;
    rewrite Z.compare_refl;
    change (Pos.compare_cont Eq ma ma) with (Pos.compare ma ma);
    rewrite Pos.compare_refl; reflexivity.
Qed.

(** The boolean comparisons, in terms of [SFcompare]. *)
Lemma SFltb_iff (a b : spec_float) : SFltb a b = true <-> SFcompare a b = Some Lt.
Proof.
  unfold SFltb. destruct (SFcompare a b) as [[| |] |]; split; congruence.
Qed.

Lemma SFleb_iff (a b : spec_float) :
  SFleb a b = true <-> exists c, SFcompare a b = Some c /\ c <> Gt.
Proof.
  unfold SFleb. destruct (SFcompare a b) as [[| |] |]; split;
    try congruence; try (intros [c [H N]]; congruence);
    intros _; eexists; split; try reflexivity; discriminate.
Qed.

Lemma SFltb_leb (a b : spec_float) : SFltb a b = true -> SFleb a b = true.
Proof.
  rewrite SFltb_iff, SFleb_iff. intros H; exists Lt; split; [exact H | discriminate].
Qed.

Lemma SFltb_not_nan_l (a b : spec_float) : SFltb a b = true -> is_nan a = false.
Proof. rewrite SFltb_iff. apply SFcompare_nan_l. Qed.

Lemma SFleb_refl (a : spec_float) : is_nan a = false -> SFleb a a = true.
Proof.
  intros H. apply SFleb_iff. exists Eq. split; [apply SFcompare_refl, H | discriminate].
Qed.

(** Two numbers are comparable: [a < b] or [b <= a]. *)
Lemma SFleb_total (a b : spec_float) :
  is_nan a = false -> is_nan b = false -> SFltb a b = false -> SFleb b a = true.
Proof.
  intros Ha Hb Hlt.
  destruct (SFcompare_some a b Ha Hb) as [c Hc].
  apply SFleb_iff. rewrite SFcompare_antisym, Hc. simpl.
  unfold SFltb in Hlt. rewrite Hc in Hlt.
  destruct c; try discriminate; eexists; split; try reflexivity; discriminate.
Qed.

Lemma SFleb_trans (a b c : spec_float) :
  SFleb a b = true -> SFleb b c = true -> SFleb a c = true.
Proof.
  rewrite !SFleb_iff. intros [c1 [H1 N1]] [c2 [H2 N2]].
  destruct (SFcompare_trans _ _ _ H1 H2 N1 N2) as [c3 [H3 [N3 _]]].
  exists c3; auto.
Qed.

Lemma SFltb_leb_trans (a b c : spec_float) :
  SFltb a b = true -> SFleb b c = true -> SFltb a c = true.
Proof.
  rewrite !SFltb_iff, SFleb_iff. intros H1 [c2 [H2 N2]].
  assert (N1 : Lt <> Gt) by discriminate.
  destruct (SFcompare_trans _ _ _ H1 H2 N1 N2) as [c3 [H3 [N3 E3]]].
  destruct c3; [destruct E3; [reflexivity | discriminate] | exact H3 | congruence].
Qed.

Lemma SFleb_ltb_trans (a b c : spec_float) :
  SFleb a b = true -> SFltb b c = true -> SFltb a c = true.
Proof.
  rewrite !SFltb_iff, SFleb_iff. intros [c1 [H1 N1]] H2.
  assert (N2 : Lt <> Gt) by discriminate.
  destruct (SFcompare_trans _ _ _ H1 H2 N1 N2) as [c3 [H3 [N3 E3]]].
  destruct c3; [destruct E3 as [_ E]; [reflexivity | discriminate E] | exact H3 | congruence].
Qed.

(** [a < b] excludes [b <= a]. *)
Lemma SFltb_not_leb (a b : spec_float) : SFltb a b = true -> SFleb b a = false.
Proof.
  rewrite SFltb_iff. intros H. unfold SFleb.
  rewrite SFcompare_antisym, H. reflexivity.
Qed.

Lemma SFleb_nan_l (b : spec_float) : SFleb S754_nan b = false.
Proof. reflexivity. Qed.


End FloatOrder.

(** ** The scan over the distances (IEEE) *)

Module Scan.

Import IEEE FloatOrder Invariant.

Abbreviation scan_from := (scan_from (np := IEEE.numpy)).
Abbreviation scan := (scan (np := IEEE.numpy)).

Lemma inv_init (b0 : spec_float) : is_nan b0 = false -> inv b0 [] b0 None.
Proof.
  intros H. constructor; try assumption.
  - apply SFleb_refl, H.
  - intros d [].
  - split; [reflexivity | intros d []].
Qed.

Lemma inv_step (b0 : spec_float) (seen : list spec_float) (best d : spec_float)
      (at_ : option nat) :
  inv b0 seen best at_ ->
  inv b0 (seen ++ [d])
      (if SFltb d best then d else best)
      (if SFltb d best then Some (List.length seen) else at_).
Proof.
  intros [Hn Hc Hl Hi].
  destruct (SFltb d best) eqn:Hlt.
  - (* best = d *)
    assert (Hd : is_nan d = false) by (eapply SFltb_not_nan_l; eassumption).
    constructor.
    + exact Hd.
    + apply SFltb_leb. eapply SFltb_leb_trans; eassumption.
    + intros x Hx Hxn. apply in_app_or in Hx. destruct Hx as [Hx | [<- | []]].
      * apply SFltb_leb. eapply SFltb_leb_trans; [eassumption | auto].
      * apply SFleb_refl, Hd.
    + split; [| split].
      * rewrite nth_error_app2, Nat.sub_diag by lia. reflexivity.
      * eapply SFltb_leb_trans; eassumption.
      * intros j x Hj Hx. rewrite nth_error_app1 in Hx by exact Hj.
        destruct (is_nan x) eqn:Hxn.
        -- destruct x; try discriminate. reflexivity.
        -- apply SFltb_not_leb. eapply SFltb_leb_trans; [eassumption|].
           apply Hl; [eapply nth_error_In; eassumption | exact Hxn].
  - (* best unchanged *)
    constructor.
    + exact Hn.
    + exact Hc.
    + intros x Hx Hxn. apply in_app_or in Hx. destruct Hx as [Hx | [<- | []]].
      * auto.
      * apply SFleb_total; assumption.
    + destruct at_ as [k |].
      * destruct Hi as [Hk [Hbelow Hbefore]]. split; [| split].
        -- rewrite nth_error_app1; [exact Hk|].
           apply nth_error_Some. congruence.
        -- exact Hbelow.
        -- intros j x Hj Hx. apply (Hbefore j x Hj).
           assert (k < List.length seen)%nat by (apply nth_error_Some; congruence).
           rewrite nth_error_app1 in Hx by lia. exact Hx.
      * destruct Hi as [-> Hall]. split; [reflexivity|].
        intros x Hx. apply in_app_or in Hx. destruct Hx as [Hx | [<- | []]]; auto.
Qed.

Lemma scan_from_inv (b0 : spec_float) (ds : list spec_float) :
  forall seen best at_,
    inv b0 seen best at_ ->
    inv b0 (seen ++ ds)
        (fst (scan_from ds (List.length seen) best at_))
        (snd (scan_from ds (List.length seen) best at_)).
Proof.
  induction ds as [| d ds IH]; intros seen best at_ H; simpl.
  - rewrite app_nil_r. exact H.
  - pose proof (inv_step d H) as Hs.
    change (@py_ltb IEEE.numpy d best) with (SFltb d best).
    replace (seen ++ d :: ds) with ((seen ++ [d]) ++ ds)
      by (rewrite <- app_assoc; reflexivity).
    replace (S (List.length seen)) with (List.length (seen ++ [d]))
      by (rewrite length_app; simpl; lia).
    destruct (SFltb d best); apply IH; exact Hs.
Qed.

Lemma lit_999_0_number : is_nan (lit_999_0 (Numpy := IEEE.numpy)) = false.
Proof. reflexivity. Qed.

Lemma scan_inv (ds : list spec_float) :
  inv (lit_999_0 (Numpy := IEEE.numpy)) ds (fst (scan ds)) (snd (scan ds)).
Proof.
  apply (scan_from_inv ds (seen := [])), inv_init, lit_999_0_number.
Qed.

End Scan.

(** ** The claims about the matching loop and the decision *)

Module Matching.

Import IEEE FloatOrder Scan.

Abbreviation nine99 := (lit_999_0 (Numpy := IEEE.numpy)).

(** What [verify_body_inv] and the scan invariant give about the decision
    of a successful [verify]. *)
Lemma verify_decision_and_number
      (image : Type)
      (cv2_imdecode : list byte -> Py.result (option image))
      (face_app_get : image -> Py.result (list (Face binary32)))
      (req : VerifyReq spec_float)
      (log : list (event image)) (res : VerifyRes spec_float) :
  verify cv2_imdecode face_app_get req = (log, Body res) ->
  res_match res = SFleb (res_best_distance res) (res_threshold res)
  /\ is_nan (res_best_distance res) = false.
Proof.
  intros H.
  destruct (verify_body_inv _ _ _ H) as (probe & ds & _ & _ & _ & Hb & _ & Hm & _).
  split; [exact Hm |].
  change (res_best_distance res = fst (scan ds)) in Hb. rewrite Hb.
  apply (scan_inv ds).
Qed.

(** C1, as amended.  In a successful [verify], [best_distance] is the
    result of the scan over the pairwise distances of the probe to the
    decoded templates, and:
    - it is never NaN and never above the initial value 999.0;
    - it is below or equal to every pairwise distance that is a number,
      so it is never larger than their minimum;
    - when some distance is below 999.0 it is one of the distances, the
      assignment [best = d] last happened at its earliest occurrence, and
      every earlier distance is NaN or strictly larger;
    - when no distance is below 999.0 (all are NaN or at least 999.0) it is
      999.0. *)
Theorem verify_best_distance_is_capped_minimum
        (image : Type)
        (cv2_imdecode : list byte -> Py.result (option image))
        (face_app_get : image -> Py.result (list (Face binary32)))
        (req : VerifyReq spec_float)
        (log : list (event image)) (res : VerifyRes spec_float) :
  verify cv2_imdecode face_app_get req = (log, Body res) ->
  exists probe ds,
    probe_of cv2_imdecode face_app_get (req_image_base64 req) = (log, Ok probe)
    /\ distances probe (req_templates_b64 req) = Ok ds
    /\ List.length ds = List.length (req_templates_b64 req)
    /\ ds <> []
    /\ res_best_distance res = fst (scan ds)
    /\ is_nan (res_best_distance res) = false
    /\ SFleb (res_best_distance res) nine99 = true
    /\ (forall d, In d ds -> is_nan d = false -> SFleb (res_best_distance res) d = true)
    /\ ((exists d, In d ds /\ SFltb d nine99 = true) ->
        exists k,
          snd (scan ds) = Some k
          /\ nth_error ds k = Some (res_best_distance res)
          /\ forall j d, (j < k)%nat -> nth_error ds j = Some d ->
                         SFleb d (res_best_distance res) = false)
    /\ ((forall d, In d ds -> SFltb d nine99 = false) ->
        res_best_distance res = nine99).
Proof.
  intros H.
  destruct (verify_body_inv _ _ _ H) as (probe & ds & Hne & Hp & Hds & Hb & _).
  pose proof (distances_length _ _ Hds) as Hlen.
  pose proof (scan_inv ds) as [Hn Hc Hl Hi].
  exists probe, ds.
  change (res_best_distance res = fst (scan ds)) in Hb. rewrite Hb.
  repeat split; try assumption.
  - intros ->. apply Hne, length_zero_iff_nil. symmetry. exact Hlen.
  - intros [d [Hd Hlt]].
    destruct (snd (scan ds)) as [k |].
    + exists k. destruct Hi as [Hk [_ Hbefore]]. auto.
    + destruct Hi as [_ Hall]. rewrite (Hall d Hd) in Hlt. discriminate.
  - intros Hall.
    destruct (snd (scan ds)) as [k |]; [| apply Hi].
    destruct Hi as [Hk [Hbelow _]].
    rewrite (Hall _ (nth_error_In _ _ Hk)) in Hbelow. discriminate.
Qed.

(** C1, witness: the probe (3, 4, 0, ...) against the templates of
    (4, 3, 0, ...) and of itself. *)
Lemma verify_best_distance_is_capped_minimum_witness :
  let req := Sample.request
               [emb_to_b64 (normalize Sample.raw_43);
                emb_to_b64 (normalize Sample.raw_34)] None in
  exists log res,
    verify Sample.stub_imdecode (Sample.one_face Sample.raw_34) req = (log, Body res)
    /\ exists probe ds,
      probe_of Sample.stub_imdecode (Sample.one_face Sample.raw_34)
               (req_image_base64 req) = (log, Ok probe)
      /\ distances probe (req_templates_b64 req) = Ok ds
      /\ List.length ds = List.length (req_templates_b64 req)
      /\ ds <> []
      /\ res_best_distance res = fst (scan ds)
      /\ is_nan (res_best_distance res) = false
      /\ SFleb (res_best_distance res) nine99 = true
      /\ (forall d, In d ds -> is_nan d = false -> SFleb (res_best_distance res) d = true)
      /\ ((exists d, In d ds /\ SFltb d nine99 = true) ->
          exists k,
            snd (scan ds) = Some k
            /\ nth_error ds k = Some (res_best_distance res)
            /\ forall j d, (j < k)%nat -> nth_error ds j = Some d ->
                           SFleb d (res_best_distance res) = false)
      /\ ((forall d, In d ds -> SFltb d nine99 = false) ->
          res_best_distance res = nine99).
Proof.
  intros req. eexists. eexists. split.
  - vm_compute. reflexivity.
  - apply (verify_best_distance_is_capped_minimum
             Sample.stub_imdecode (Sample.one_face Sample.raw_34) req).
    vm_compute. reflexivity.
Defined.

(** C1, counterexample.  A template of 512 float32 values whose first is
    NaN decodes, its distance to the probe is NaN, and [verify] answers
    [best_distance = 999.0]: a value that is not among the pairwise
    distances. *)
Lemma verify_best_distance_not_a_distance :
  let req := Sample.request [emb_to_b64 Sample.raw_nan] None in
  exists log res probe,
    verify Sample.stub_imdecode (Sample.one_face Sample.raw_34) req = (log, Body res)
    /\ probe_of Sample.stub_imdecode (Sample.one_face Sample.raw_34)
                (req_image_base64 req) = (log, Ok probe)
    /\ distances probe (req_templates_b64 req) = Ok [S754_nan]
    /\ res_best_distance res = nine99
    /\ ~ In (res_best_distance res) [S754_nan].
Proof.
  intros req. eexists. eexists. eexists. split; [| split; [| split; [| split]]].
  - vm_compute. reflexivity.
  - vm_compute. reflexivity.
  - vm_compute. reflexivity.
  - reflexivity.
  - simpl. intros [H | []]. discriminate H.
Qed.

(** The decision [best <= thr] on two numbers: true when they are equal,
    false exactly when [best] is strictly greater. *)
Lemma SFleb_inclusive (best thr : spec_float) :
  is_nan best = false -> is_nan thr = false ->
  (SFeqb best thr = true -> SFleb best thr = true)
  /\ (SFleb best thr = false <-> SFltb thr best = true).
Proof.
  intros Hb Ht. split.
  - unfold SFeqb, SFleb. destruct (SFcompare best thr) as [[| |] |]; congruence.
  - split.
    + intros Hle. destruct (SFltb thr best) eqn:Hlt; [reflexivity|].
      rewrite (SFleb_total _ _ Ht Hb Hlt) in Hle. discriminate.
    + apply SFltb_not_leb.
Qed.

(** C2.  In a successful [verify] the reported match is the comparison
    [best_distance <= threshold] of the two reported numbers;
    [best_distance] is never NaN; and for a threshold that is a number the
    boundary is inclusive: match is true when [best_distance] equals the
    threshold, and match is false exactly when [best_distance] is strictly
    greater than the threshold. *)
Theorem verify_match_is_inclusive_threshold
        (image : Type)
        (cv2_imdecode : list byte -> Py.result (option image))
        (face_app_get : image -> Py.result (list (Face binary32)))
        (req : VerifyReq spec_float)
        (log : list (event image)) (res : VerifyRes spec_float) :
  verify cv2_imdecode face_app_get req = (log, Body res) ->
  is_nan (res_threshold res) = false ->
  res_match res = SFleb (res_best_distance res) (res_threshold res)
  /\ is_nan (res_best_distance res) = false
  /\ (SFeqb (res_best_distance res) (res_threshold res) = true -> res_match res = true)
  /\ (res_match res = false
      <-> SFltb (res_threshold res) (res_best_distance res) = true).
Proof.
  intros H Ht.
  destruct (verify_decision_and_number _ _ _ H) as [Hm Hn].
  rewrite Hm. split; [reflexivity | split; [exact Hn |]].
  apply SFleb_inclusive; assumption.
Qed.

(** C2, witness: the probe against its own template with threshold 0.0;
    the distance is 0.0, equal to the threshold, and the match is true. *)
Lemma verify_match_is_inclusive_threshold_witness :
  let req := Sample.request [emb_to_b64 (normalize Sample.raw_34)]
                            (Some (S754_zero false)) in
  exists log res,
    verify Sample.stub_imdecode (Sample.one_face Sample.raw_34) req = (log, Body res)
    /\ is_nan (res_threshold res) = false
    /\ SFeqb (res_best_distance res) (res_threshold res) = true
    /\ res_match res = true
    /\ (res_match res = false
        <-> SFltb (res_threshold res) (res_best_distance res) = true).
Proof.
  intros req. eexists. eexists.
  assert (H : verify Sample.stub_imdecode (Sample.one_face Sample.raw_34) req
              = ([CallImdecode [x00; x00; x00]; CallFaceGet [x00; x00; x00]],
                 Body {| res_match := true;
                         res_best_distance := S754_zero false;
                         res_threshold := S754_zero false;
                         res_model := MODEL |})).
  { vm_compute. reflexivity. }
  split; [exact H |].
  split; [reflexivity |].
  split; [reflexivity |].
  split; [reflexivity |].
  apply (verify_match_is_inclusive_threshold
           Sample.stub_imdecode (Sample.one_face Sample.raw_34) req H eq_refl).
Defined.

End Matching.

(** ** Requests that are refused, and the threshold

    These hold for every instance of the numpy interface. *)

Module Requests.

Section Generic.

Context {np : Numpy} {nb : NumpyBuffer np}.
Variable image : Type.
Variable cv2_imdecode : list byte -> Py.result (option image).
Variable face_app_get : image -> Py.result (list (Face float32)).

(** The loop raises as soon as one template's iteration raises. *)
Lemma best_loop_raises (probe : list float32) (t : string) (e : Py.exn) :
  template_distance probe t = Raise e ->
  forall templates best,
    In t templates -> exists e', best_loop probe templates best = Raise e'.
Proof.
  unfold template_distance. intros Ht.
  induction templates as [| t' ts IH]; intros best Hin; [destruct Hin |].
  simpl. destruct (b64_to_emb t') as [emb' | e1] eqn:E1; simpl; [| eauto].
  destruct (cosine_distance probe emb') as [d | e2] eqn:E2; simpl; [| eauto].
  destruct Hin as [-> | Hin]; [| apply IH, Hin].
  rewrite E1 in Ht. simpl in Ht. congruence.
Qed.

(** When it is the first template that raises, that exception is the
    loop's. *)
Lemma best_loop_raises_first (probe : list float32) (t : string) (e : Py.exn) :
  template_distance probe t = Raise e ->
  forall rest best, best_loop probe (t :: rest) best = Raise e.
Proof.
  unfold template_distance. intros Ht rest best. simpl.
  destruct (b64_to_emb t) as [emb | e1]; simpl in *; [| congruence].
  destruct (cosine_distance probe emb) as [d | e2]; simpl in *; congruence.
Qed.

(** A request with a template that raises for every probe is answered
    with status 400. *)
Lemma verify_400_of_bad_template (t : string) (req : VerifyReq pyfloat) :
  (forall probe, exists e, template_distance probe t = Raise e) ->
  In t (req_templates_b64 req) ->
  exists detail,
    snd (verify cv2_imdecode face_app_get req) = HTTPException 400 detail.
Proof.
  intros Hbad Hin. rewrite verify_unfold.
  destruct (req_templates_b64 req) as [| t0 ts] eqn:Ets; [destruct Hin |].
  cbn [snd].
  destruct (snd (probe_of cv2_imdecode face_app_get (req_image_base64 req)))
    as [probe | e]; cbn [Py.bind http_400]; [| eauto].
  destruct (Hbad probe) as [e He].
  destruct (best_loop_raises _ _ He (t0 :: ts) lit_999_0 Hin) as [e' He'].
  rewrite He'. cbn [Py.bind http_400]. eauto.
Qed.

(** The same for a template that raises for the probe of the request. *)
Lemma verify_400_of_bad_template_for_probe
      (t : string) (req : VerifyReq pyfloat)
      (log : list (event image)) (probe : list float32) (e : Py.exn) :
  probe_of cv2_imdecode face_app_get (req_image_base64 req) = (log, Ok probe) ->
  template_distance probe t = Raise e ->
  In t (req_templates_b64 req) ->
  exists detail,
    verify cv2_imdecode face_app_get req = (log, HTTPException 400 detail).
Proof.
  intros Hp He Hin. rewrite verify_unfold.
  destruct (req_templates_b64 req) as [| t0 ts] eqn:Ets; [destruct Hin |].
  rewrite Hp. cbn [fst snd Py.bind].
  destruct (best_loop_raises _ _ He (t0 :: ts) lit_999_0 Hin) as [e' He'].
  rewrite He'. cbn [Py.bind http_400]. eauto.
Qed.

Lemma verify_400_of_bad_first_template
      (t : string) (rest : list string) (req : VerifyReq pyfloat)
      (log : list (event image)) (probe : list float32) (e : Py.exn) :
  probe_of cv2_imdecode face_app_get (req_image_base64 req) = (log, Ok probe) ->
  template_distance probe t = Raise e ->
  req_templates_b64 req = t :: rest ->
  verify cv2_imdecode face_app_get req = (log, HTTPException 400 (Py.str e)).
Proof.
  intros Hp He Ets. rewrite verify_unfold, Ets, Hp. cbn [fst snd Py.bind].
  rewrite (best_loop_raises_first _ _ He). reflexivity.
Qed.

Lemma chunks4_length (raw : list byte) :
  List.length (chunks4 raw) = (List.length raw / 4)%nat.
Proof.
  assert (G : forall n raw, (List.length raw < 4 * n)%nat ->
                            List.length (chunks4 raw) = (List.length raw / 4)%nat).
  { induction n as [| n IH]; intros r Hr; [lia |].
    destruct r as [| b0 [| b1 [| b2 [| b3 rest]]]]; try reflexivity.
    cbn [chunks4 List.length].
    rewrite IH by (simpl in Hr; lia).
    change (S (S (S (S (List.length rest))))) with (4 + List.length rest)%nat.
    replace (4 + List.length rest)%nat with (List.length rest + 1 * 4)%nat by lia.
    rewrite Nat.div_add by lia. lia. }
  apply (G (S (List.length raw))). lia.
Qed.

Lemma normalize_length (emb : list float32) :
  List.length (normalize emb) = List.length emb.
Proof. unfold normalize. apply length_map. Qed.

(** The probe of a request is never the empty array. *)
Lemma probe_of_nonempty (image_b64 : string)
      (log : list (event image)) (probe : list float32) :
  probe_of cv2_imdecode face_app_get image_b64 = (log, Ok probe) -> probe <> [].
Proof.
  unfold probe_of.
  destruct (decode_base64_image cv2_imdecode image_b64) as [l1 [img | e]];
    cbn [io_bind]; [| discriminate].
  unfold get_single_face_embedding.
  destruct (face_app_get img) as [faces | e]; cbn [io_bind]; [| discriminate].
  destruct (primary_face faces) as [f | e]; cbn [io_bind io_lift]; [| discriminate].
  destruct (embedding f) as [emb |]; [| discriminate].
  destruct (List.length emb =? 0)%nat eqn:E; [discriminate |].
  cbn [io_ret]. intros H. inversion H; subst; clear H.
  intros Hnil. apply (f_equal (@List.length _)) in Hnil.
  rewrite normalize_length in Hnil. simpl in Hnil.
  apply Nat.eqb_neq in E. contradiction.
Qed.

(** C7.  A template whose base64 payload decodes to a number of bytes
    that is not a multiple of 4 (odd or even) is refused by [b64_to_emb]
    with the ValueError of [np.frombuffer]; a [verify] request that
    contains it is answered with status 400, and with that error's message
    when it is the first template and the probe was obtained. *)
Theorem template_of_partial_floats_is_refused (t : string) (raw : list byte) :
  Base64.b64decode t = Ok raw ->
  (List.length raw mod 4 <> 0)%nat ->
  b64_to_emb t = Raise (ValueError "buffer size must be a multiple of element size")
  /\ (forall req : VerifyReq pyfloat,
         In t (req_templates_b64 req) ->
         exists detail,
           snd (verify cv2_imdecode face_app_get req) = HTTPException 400 detail)
  /\ (forall (req : VerifyReq pyfloat) rest log probe,
         req_templates_b64 req = t :: rest ->
         probe_of cv2_imdecode face_app_get (req_image_base64 req) = (log, Ok probe) ->
         verify cv2_imdecode face_app_get req
         = (log, HTTPException 400 "buffer size must be a multiple of element size")).
Proof.
  intros Hraw Hlen.
  assert (Hemb : b64_to_emb t
                 = Raise (ValueError "buffer size must be a multiple of element size")).
  { unfold b64_to_emb. rewrite Hraw. cbn [Py.bind]. unfold frombuffer.
    destruct (Nat.eqb_spec (List.length raw mod 4) 0) as [E | _]; [contradiction |].
    reflexivity. }
  assert (Hbad : forall probe,
             template_distance probe t
             = Raise (ValueError "buffer size must be a multiple of element size")).
  { intros probe. unfold template_distance. rewrite Hemb. reflexivity. }
  split; [exact Hemb | split].
  - intros req Hin. apply (verify_400_of_bad_template t req); [| exact Hin].
    intros probe. eexists. apply Hbad.
  - intros req rest log probe Ets Hp.
    apply (verify_400_of_bad_first_template req Hp (Hbad probe) Ets).
Qed.

(** C8.  With an empty template list [verify] answers 400 "no templates"
    whatever the image payload and the threshold are, and its event log is
    empty: neither the image decoder nor the face model was called. *)
Theorem verify_without_templates
        (image_payload : string) (threshold : option pyfloat) :
  verify cv2_imdecode face_app_get
         {| req_image_base64 := image_payload;
            req_templates_b64 := [];
            req_threshold := threshold |}
  = ([], HTTPException 400 "no templates").
Proof. reflexivity. Qed.

(** [np.dot] on arrays of different lengths. *)
Lemma cosine_distance_not_aligned (a b : list float32) :
  List.length a <> List.length b ->
  cosine_distance a b
  = Raise (ValueError (not_aligned (List.length a) (List.length b))).
Proof.
  intros Hne. unfold cosine_distance, np_dot.
  destruct (Nat.eqb_spec (List.length a) (List.length b)) as [E | _];
    [contradiction | reflexivity].
Qed.

(** C9.  A template whose payload decodes to a multiple of 4 bytes is
    accepted by [b64_to_emb] whatever that multiple is, and yields one
    float per 4 bytes.  When that count differs from the length of the
    probe, [cosine_distance] raises the ValueError of [np.dot], and a
    [verify] request that contains the template is answered with status
    400 instead of a result (with the message of [np.dot] when it is the
    first template).  The empty string is such a template: it yields zero
    floats, and every request that contains it is answered with status
    400. *)
Theorem template_of_other_length_fails_at_dot (t : string) (raw : list byte) :
  Base64.b64decode t = Ok raw ->
  (List.length raw mod 4 = 0)%nat ->
  (exists emb,
      b64_to_emb t = Ok emb
      /\ List.length emb = (List.length raw / 4)%nat
      /\ forall probe,
          List.length probe <> List.length emb ->
          cosine_distance probe emb
          = Raise (ValueError (not_aligned (List.length probe) (List.length emb)))
          /\ (forall (req : VerifyReq pyfloat) log,
                 probe_of cv2_imdecode face_app_get (req_image_base64 req)
                 = (log, Ok probe) ->
                 In t (req_templates_b64 req) ->
                 exists detail,
                   verify cv2_imdecode face_app_get req
                   = (log, HTTPException 400 detail))
          /\ (forall (req : VerifyReq pyfloat) rest log,
                 probe_of cv2_imdecode face_app_get (req_image_base64 req)
                 = (log, Ok probe) ->
                 req_templates_b64 req = t :: rest ->
                 verify cv2_imdecode face_app_get req
                 = (log, HTTPException 400
                           (not_aligned (List.length probe) (List.length emb)))))
  /\ b64_to_emb "" = Ok []
  /\ (forall req : VerifyReq pyfloat,
         In ""%string (req_templates_b64 req) ->
         exists detail,
           snd (verify cv2_imdecode face_app_get req) = HTTPException 400 detail).
Proof.
  intros Hraw Hlen.
  assert (Hempty : b64_to_emb "" = Ok []) by reflexivity.
  split; [| split; [exact Hempty |]].
  - exists (normalize (chunks4 raw)).
    assert (Hemb : b64_to_emb t = Ok (normalize (chunks4 raw))).
    { unfold b64_to_emb. rewrite Hraw. cbn [Py.bind]. unfold frombuffer.
      rewrite Hlen. reflexivity. }
    split; [exact Hemb |].
    split; [rewrite normalize_length; apply chunks4_length |].
    intros probe Hne.
    pose proof (cosine_distance_not_aligned _ _ Hne) as Hdot.
    assert (Hd : template_distance probe t
                 = Raise (ValueError (not_aligned (List.length probe)
                                        (List.length (normalize (chunks4 raw)))))).
    { unfold template_distance. rewrite Hemb. exact Hdot. }
    split; [exact Hdot | split].
    + intros req log Hp Hin.
      apply (verify_400_of_bad_template_for_probe _ req Hp Hd Hin).
    + intros req rest log Hp Ets.
      apply (verify_400_of_bad_first_template req Hp Hd Ets).
  - intros req Hin. rewrite verify_unfold.
    destruct (req_templates_b64 req) as [| t0 ts] eqn:Ets; [destruct Hin |].
    cbn [snd].
    destruct (probe_of cv2_imdecode face_app_get (req_image_base64 req))
      as [log [probe | e]] eqn:Hp; cbn [snd Py.bind http_400]; [| eauto].
    assert (Hd : template_distance probe ""
                 = Raise (ValueError (not_aligned (List.length probe) 0))).
    { unfold template_distance. rewrite Hempty. cbn [Py.bind].
      apply (cosine_distance_not_aligned probe []).
      pose proof (probe_of_nonempty _ Hp) as Hne.
      destruct probe; [congruence | discriminate]. }
    destruct (best_loop_raises _ _ Hd (t0 :: ts) lit_999_0 Hin) as [e' He'].
    rewrite He'. cbn [Py.bind http_400]. eauto.
Qed.

(** C10.  The threshold is not validated.  For a request and the same
    request with any other threshold [threshold'] (a number of any sign and
    size, an infinity, a NaN, or absent), [verify] makes the same calls and
    either both are refused with the same status and detail, or both
    succeed with the same [best_distance]; in a successful response the
    reported threshold is exactly the supplied one, or 0.45 when it is
    absent, and the match is [best_distance <= threshold]. *)
Theorem verify_threshold_is_not_validated
        (image_payload : string) (templates : list string)
        (threshold threshold' : option pyfloat) :
  let req := {| req_image_base64 := image_payload;
                req_templates_b64 := templates;
                req_threshold := threshold |} in
  let req' := {| req_image_base64 := image_payload;
                 req_templates_b64 := templates;
                 req_threshold := threshold' |} in
  fst (verify cv2_imdecode face_app_get req) = fst (verify cv2_imdecode face_app_get req')
  /\ match snd (verify cv2_imdecode face_app_get req),
           snd (verify cv2_imdecode face_app_get req') with
     | Body res, Body res' =>
         res_best_distance res = res_best_distance res'
         /\ res_threshold res = match threshold with
                                | Some thr => thr
                                | None => lit_0_45
                                end
         /\ res_match res = py_leb (res_best_distance res) (res_threshold res)
     | HTTPException status detail, HTTPException status' detail' =>
         status = status' /\ detail = detail'
     | _, _ => False
     end.
Proof.
  intros req req'. rewrite !verify_unfold. subst req req'. cbn [req_templates_b64 req_image_base64].
  destruct templates as [| t ts]; [cbn; auto |].
  cbn [fst snd]. split; [reflexivity |].
  destruct (snd (probe_of cv2_imdecode face_app_get image_payload))
    as [probe | e]; cbn [Py.bind http_400]; [| auto].
  destruct (best_loop probe (t :: ts) lit_999_0) as [best | e];
    cbn [Py.bind http_400]; [| auto].
  cbn. unfold threshold_used, DEFAULT_THRESHOLD. cbn. auto.
Qed.

End Generic.

Import IEEE.

(** C7, witness: "AAAAAAAA" decodes to six bytes, an even number that is
    not a multiple of 4. *)
Lemma template_of_partial_floats_is_refused_witness :
  let t := "AAAAAAAA"%string in
  let raw := [x00; x00; x00; x00; x00; x00] in
  Base64.b64decode t = Ok raw
  /\ (List.length raw mod 4 <> 0)%nat
  /\ b64_to_emb (np := IEEE.numpy) t
     = Raise (ValueError "buffer size must be a multiple of element size")
  /\ (forall req : VerifyReq spec_float,
         In t (req_templates_b64 req) ->
         exists detail,
           snd (verify Sample.stub_imdecode (Sample.one_face Sample.raw_34) req)
           = HTTPException 400 detail)
  /\ (forall (req : VerifyReq spec_float) rest log probe,
         req_templates_b64 req = t :: rest ->
         probe_of Sample.stub_imdecode (Sample.one_face Sample.raw_34)
                  (req_image_base64 req) = (log, Ok probe) ->
         verify Sample.stub_imdecode (Sample.one_face Sample.raw_34) req
         = (log, HTTPException 400 "buffer size must be a multiple of element size")).
Proof.
  intros t raw.
  assert (Hraw : Base64.b64decode t = Ok raw) by reflexivity.
  assert (Hlen : (List.length raw mod 4 <> 0)%nat) by (cbn; discriminate).
  split; [exact Hraw | split; [exact Hlen |]].
  exact (template_of_partial_floats_is_refused
           (np := IEEE.numpy) (nb := IEEE.buffer)
           Sample.stub_imdecode (Sample.one_face Sample.raw_34) t Hraw Hlen).
Defined.

(** C9, witness: "AAAAAAAAAAA=" decodes to eight bytes, two floats. *)
Lemma template_of_other_length_fails_at_dot_witness :
  let t := "AAAAAAAAAAA="%string in
  let raw := [x00; x00; x00; x00; x00; x00; x00; x00] in
  Base64.b64decode t = Ok raw
  /\ (List.length raw mod 4 = 0)%nat
  /\ (exists emb,
        b64_to_emb (np := IEEE.numpy) t = Ok emb
        /\ List.length emb = (List.length raw / 4)%nat
        /\ forall probe,
            List.length probe <> List.length emb ->
            cosine_distance probe emb
            = Raise (ValueError (not_aligned (List.length probe) (List.length emb)))
            /\ (forall (req : VerifyReq spec_float) log,
                   probe_of Sample.stub_imdecode (Sample.one_face Sample.raw_34)
                            (req_image_base64 req) = (log, Ok probe) ->
                   In t (req_templates_b64 req) ->
                   exists detail,
                     verify Sample.stub_imdecode (Sample.one_face Sample.raw_34) req
                     = (log, HTTPException 400 detail))
            /\ (forall (req : VerifyReq spec_float) rest log,
                   probe_of Sample.stub_imdecode (Sample.one_face Sample.raw_34)
                            (req_image_base64 req) = (log, Ok probe) ->
                   req_templates_b64 req = t :: rest ->
                   verify Sample.stub_imdecode (Sample.one_face Sample.raw_34) req
                   = (log, HTTPException 400
                             (not_aligned (List.length probe) (List.length emb)))))
  /\ b64_to_emb (np := IEEE.numpy) "" = Ok []
  /\ (forall req : VerifyReq spec_float,
         In ""%string (req_templates_b64 req) ->
         exists detail,
           snd (verify Sample.stub_imdecode (Sample.one_face Sample.raw_34) req)
           = HTTPException 400 detail).
Proof.
  intros t raw.
  assert (Hraw : Base64.b64decode t = Ok raw) by reflexivity.
  assert (Hlen : (List.length raw mod 4 = 0)%nat) by reflexivity.
  split; [exact Hraw | split; [exact Hlen |]].
  exact (template_of_other_length_fails_at_dot
           (np := IEEE.numpy) (nb := IEEE.buffer)
           Sample.stub_imdecode (Sample.one_face Sample.raw_34) t Hraw Hlen).
Defined.

(** The requests of the two witnesses, evaluated: the model's probe has
    512 components, the first template two, the second none. *)
Example verify_two_floats_template :
  verify Sample.stub_imdecode (Sample.one_face Sample.raw_34)
         (Sample.request ["AAAAAAAAAAA="%string] None)
  = ([CallImdecode [x00; x00; x00]; CallFaceGet [x00; x00; x00]],
     HTTPException 400
       "shapes (512,) and (2,) not aligned: 512 (dim 0) != 2 (dim 0)").
Proof. vm_compute. reflexivity. Qed.

Example verify_empty_template :
  verify Sample.stub_imdecode (Sample.one_face Sample.raw_34)
         (Sample.request [""%string] None)
  = ([CallImdecode [x00; x00; x00]; CallFaceGet [x00; x00; x00]],
     HTTPException 400
       "shapes (512,) and (0,) not aligned: 512 (dim 0) != 0 (dim 0)").
Proof. vm_compute. reflexivity. Qed.

Example verify_six_bytes_template :
  verify Sample.stub_imdecode (Sample.one_face Sample.raw_34)
         (Sample.request ["AAAAAAAA"%string] None)
  = ([CallImdecode [x00; x00; x00]; CallFaceGet [x00; x00; x00]],
     HTTPException 400 "buffer size must be a multiple of element size").
Proof. vm_compute. reflexivity. Qed.

End Requests.

(** ** The primary face: the head of the list sorted by area, largest first *)

Module Selection.

Section StableMaximum.

Variables (A K : Type) (key : A -> K) (ltb : K -> K -> bool).

(** The keys that [ltb] orders: on them it is asymmetric and its negation
    is transitive (a strict weak order). *)
Variable ordered : K -> Prop.
Hypothesis ltb_asym :
  forall a b, ordered a -> ordered b -> ltb a b = true -> ltb b a = false.
Hypothesis ltb_negtrans :
  forall a b c, ordered a -> ordered b -> ordered c ->
                ltb a b = false -> ltb b c = false -> ltb a c = false.

Abbreviation lt x y := (ltb (key x) (key y)).
Abbreviation all_ordered l := (forall x, In x l -> ordered (key x)).

Lemma insort_In (x y : A) (s : list A) :
  In y (insort key ltb x s) <-> y = x \/ In y s.
Proof.
  induction s as [| z s IH]; simpl.
  - intuition congruence.
  - destruct (lt z x); simpl; [rewrite IH |]; intuition congruence.
Qed.

Lemma sort_ascending_In (y : A) (l : list A) :
  In y (sort_ascending key ltb l) <-> In y l.
Proof.
  induction l as [| x l IH]; simpl; [tauto |].
  rewrite insort_In, IH. intuition congruence.
Qed.






End StableMaximum.

Import IEEE FloatOrder.

(* The statements below apply float32 operations to variables; inferring
   implicit arguments from them would unfold those operations. *)
Local Unset Implicit Arguments.

(** [get_single_face_embedding], after the call of the face model. *)
Lemma get_single_face_embedding_unfold
      {np : Numpy} (image : Type)
      (face_app_get : image -> Py.result (list (Face float32))) (img : image) :
  get_single_face_embedding face_app_get img
  = ([CallFaceGet img],
     (faces <- face_app_get img ;;
      f <- primary_face faces ;;
      match embedding f with
      | None => Raise (ValueError "embedding empty")
      | Some emb =>
          if (List.length emb =? 0)%nat then Raise (ValueError "embedding empty")
          else Ok (normalize emb)
      end)%py).
Proof.
  unfold get_single_face_embedding.
  destruct (face_app_get img) as [faces | e]; cbn [io_bind Py.bind]; [| reflexivity].
  destruct (primary_face faces) as [f | e]; cbn [io_bind io_lift Py.bind app];
    [| reflexivity].
  destruct (embedding f) as [emb |]; [| reflexivity].
  destruct (List.length emb =? 0)%nat; reflexivity.
Qed.



Section Float32Key.

Variables (A : Type) (key : A -> binary32).

Abbreviation value x := (SF_of_b32 (key x)).


End Float32Key.

(** The value of the sort key of a detection: the float32 product
    (x2 - x1) * (y2 - y1). *)
Abbreviation area_value f := (SF_of_b32 (area (np := IEEE.numpy) f)).



(** The selection on the sample: the first of the two boxes of area 400,
    and the largest of two boxes of areas 100 and 400. *)
Example primary_face_of_sample :
  primary_face (np := IEEE.numpy) Sample.faces_100_400_400_25
  = Ok (Sample.square_face 20 (Some [Sample.f32 2 1]))
  /\ primary_face (np := IEEE.numpy)
       [Sample.square_face 10 None; Sample.square_face 20 (Some [Sample.f32 2 1])]
     = Ok (Sample.square_face 20 (Some [Sample.f32 2 1]))
  /\ map (fun f => area_value f) Sample.faces_100_400_400_25
     = map round32 [b64_of_Z 100; b64_of_Z 400; b64_of_Z 400; b64_of_Z 25].
Proof.
  split; [vm_compute; reflexivity |].
  split; vm_compute; reflexivity.
Qed.

Local Set Implicit Arguments.

End Selection.

(** ** The transport encoding: [b64decode] inverts [b64encode] *)

Module Codec.

Import Base64.
Local Open Scope N_scope.

Lemma all_bytes_complete (b : byte) : In b all_bytes.
Proof.
  assert (H : existsb (Byte.eqb b) all_bytes = true) by (destruct b; vm_compute; reflexivity).
  apply existsb_exists in H. destruct H as [x [Hx E]].
  apply Byte.byte_dec_bl in E. subst x. exact Hx.
Qed.

Lemma forall_bytes_spec (P : byte -> bool) :
  forall_bytes P = true -> forall b, P b = true.
Proof.
  unfold forall_bytes. rewrite forallb_forall.
  intros H b. apply H, all_bytes_complete.
Qed.

(** Statements about one or two bytes, decided by enumeration. *)
Ltac by_bytes1 P :=
  let H := fresh in
  assert (H : forall_bytes P = true) by (vm_compute; reflexivity);
  exact (forall_bytes_spec P H).

Ltac by_bytes2 P :=
  let H := fresh in
  assert (H : forall_bytes (fun a => forall_bytes (P a)) = true)
    by (vm_compute; reflexivity);
  exact (fun a b => forall_bytes_spec (P a) (forall_bytes_spec _ H a) b).

Lemma data_char_sextet1 : forall a, data_char (sextet1 a) = true.
Proof. by_bytes1 (fun a => data_char (sextet1 a)). Qed.

Lemma data_char_sextet2 : forall a b, data_char (sextet2 a b) = true.
Proof. by_bytes2 (fun a b => data_char (sextet2 a b)). Qed.

Lemma data_char_sextet3 : forall b c, data_char (sextet3 b c) = true.
Proof. by_bytes2 (fun b c => data_char (sextet3 b c)). Qed.

Lemma data_char_sextet4 : forall c, data_char (sextet4 c) = true.
Proof. by_bytes1 (fun c => data_char (sextet4 c)). Qed.

Lemma data_char_sextet2_last : forall a, data_char (sextet2_last a) = true.
Proof. by_bytes1 (fun a => data_char (sextet2_last a)). Qed.

Lemma data_char_sextet3_last : forall b, data_char (sextet3_last b) = true.
Proof. by_bytes1 (fun b => data_char (sextet3_last b)). Qed.

(** The bytes the decoder rebuilds from the six-bit values. *)
Lemma rebuild1 : forall a b,
  Byte.eqb (Py.byte_of_N (N.lor (N.shiftl (sextet1 a) 2) (N.shiftr (sextet2 a b) 4))) a = true.
Proof.
  by_bytes2 (fun a b =>
    Byte.eqb (Py.byte_of_N (N.lor (N.shiftl (sextet1 a) 2) (N.shiftr (sextet2 a b) 4))) a).
Qed.

Lemma rebuild1_last : forall a,
  Byte.eqb (Py.byte_of_N (N.lor (N.shiftl (sextet1 a) 2) (N.shiftr (sextet2_last a) 4))) a
  = true.
Proof.
  by_bytes1 (fun a =>
    Byte.eqb (Py.byte_of_N (N.lor (N.shiftl (sextet1 a) 2) (N.shiftr (sextet2_last a) 4))) a).
Qed.

Lemma sextet2_low : forall a b, (N.land (sextet2 a b) 15 =? N.shiftr (Byte.to_N b) 4) = true.
Proof. by_bytes2 (fun a b => N.land (sextet2 a b) 15 =? N.shiftr (Byte.to_N b) 4). Qed.

Lemma sextet3_high : forall b c, (N.shiftr (sextet3 b c) 2 =? N.land (Byte.to_N b) 15) = true.
Proof. by_bytes2 (fun b c => N.shiftr (sextet3 b c) 2 =? N.land (Byte.to_N b) 15). Qed.

Lemma sextet3_last_high : forall b,
  (N.shiftr (sextet3_last b) 2 =? N.land (Byte.to_N b) 15) = true.
Proof. by_bytes1 (fun b => N.shiftr (sextet3_last b) 2 =? N.land (Byte.to_N b) 15). Qed.

Lemma rebuild2 : forall b,
  Byte.eqb (Py.byte_of_N (N.lor (N.shiftl (N.shiftr (Byte.to_N b) 4) 4)
                                (N.land (Byte.to_N b) 15))) b = true.
Proof.
  by_bytes1 (fun b =>
    Byte.eqb (Py.byte_of_N (N.lor (N.shiftl (N.shiftr (Byte.to_N b) 4) 4)
                                  (N.land (Byte.to_N b) 15))) b).
Qed.

Lemma sextet3_low : forall b c, (N.land (sextet3 b c) 3 =? N.shiftr (Byte.to_N c) 6) = true.
Proof. by_bytes2 (fun b c => N.land (sextet3 b c) 3 =? N.shiftr (Byte.to_N c) 6). Qed.

Lemma rebuild3 : forall c,
  Byte.eqb (Py.byte_of_N (N.lor (N.shiftl (N.shiftr (Byte.to_N c) 6) 6) (sextet4 c))) c
  = true.
Proof.
  by_bytes1 (fun c =>
    Byte.eqb (Py.byte_of_N (N.lor (N.shiftl (N.shiftr (Byte.to_N c) 6) 6) (sextet4 c))) c).
Qed.

(** The encoder, group by group. *)
Lemma b64encode_group (a b c : byte) (rest : list byte) :
  b64encode (a :: b :: c :: rest)
  = String (table_b2a (sextet1 a))
      (String (table_b2a (sextet2 a b))
         (String (table_b2a (sextet3 b c))
            (String (table_b2a (sextet4 c)) (b64encode rest)))).
Proof. reflexivity. Qed.

Lemma b64encode_last1 (a : byte) :
  b64encode [a]
  = String (table_b2a (sextet1 a)) (String (table_b2a (sextet2_last a)) "==").
Proof. reflexivity. Qed.

Lemma b64encode_last2 (a b : byte) :
  b64encode [a; b]
  = String (table_b2a (sextet1 a))
      (String (table_b2a (sextet2 a b)) (String (table_b2a (sextet3_last b)) "=")).
Proof. reflexivity. Qed.

(** One step of the decoder on a data character. *)
Lemma a2b_loop_data (v : N) (s' : string) (quad_pos leftchar pads : N) (acc : list byte) :
  data_char v = true ->
  a2b_loop (String (table_b2a v) s') quad_pos leftchar pads acc
  = if quad_pos =? 0 then a2b_loop s' 1 v 0 acc
    else if quad_pos =? 1 then
      a2b_loop s' 2 (N.land v 15) 0
        (Py.byte_of_N (N.lor (N.shiftl leftchar 2) (N.shiftr v 4)) :: acc)
    else if quad_pos =? 2 then
      a2b_loop s' 3 (N.land v 3) 0
        (Py.byte_of_N (N.lor (N.shiftl leftchar 4) (N.shiftr v 2)) :: acc)
    else
      a2b_loop s' 0 0 0 (Py.byte_of_N (N.lor (N.shiftl leftchar 6) v) :: acc).
Proof.
  unfold data_char. intros H.
  apply andb_prop in H. destruct H as [H Hdec].
  apply andb_prop in H. destruct H as [Hpad _].
  apply negb_true_iff in Hpad.
  cbn [a2b_loop]. rewrite Hpad.
  destruct (table_a2b (table_b2a v)) as [w |]; [| discriminate].
  apply N.eqb_eq in Hdec. subst w. reflexivity.
Qed.

Lemma data_char_ascii (v : N) :
  data_char v = true -> (Py.code (table_b2a v) <? 128) = true.
Proof.
  unfold data_char. intros H.
  apply andb_prop in H. destruct H as [H _].
  apply andb_prop in H. destruct H as [_ H]. exact H.
Qed.

Lemma byte_eqb_eq (x y : byte) : Byte.eqb x y = true -> x = y.
Proof. apply Byte.byte_dec_bl. Qed.

(** A whole group of four characters gives back its three bytes. *)
Lemma a2b_loop_group (a b c : byte) (rest : string) (acc : list byte) :
  a2b_loop
    (String (table_b2a (sextet1 a))
       (String (table_b2a (sextet2 a b))
          (String (table_b2a (sextet3 b c))
             (String (table_b2a (sextet4 c)) rest)))) 0 0 0 acc
  = a2b_loop rest 0 0 0 (c :: b :: a :: acc).
Proof.
  rewrite (a2b_loop_data _ _ _ _ _ _ (data_char_sextet1 a)). cbn [N.eqb].
  rewrite (a2b_loop_data _ _ _ _ _ _ (data_char_sextet2 a b)).
  change (1 =? 0) with false. change (1 =? 1) with true. cbv iota.
  rewrite (byte_eqb_eq _ _ (rebuild1 a b)).
  rewrite (a2b_loop_data _ _ _ _ _ _ (data_char_sextet3 b c)).
  change (2 =? 0) with false. change (2 =? 1) with false.
  change (2 =? 2) with true. cbv iota.
  rewrite (proj1 (N.eqb_eq _ _) (sextet2_low a b)).
  rewrite (proj1 (N.eqb_eq _ _) (sextet3_high b c)).
  rewrite (byte_eqb_eq _ _ (rebuild2 b)).
  rewrite (a2b_loop_data _ _ _ _ _ _ (data_char_sextet4 c)).
  change (3 =? 0) with false. change (3 =? 1) with false.
  change (3 =? 2) with false. cbv iota.
  rewrite (proj1 (N.eqb_eq _ _) (sextet3_low b c)).
  rewrite (byte_eqb_eq _ _ (rebuild3 c)).
  reflexivity.
Qed.

Lemma a2b_loop_last1 (a : byte) (acc : list byte) :
  a2b_loop (b64encode [a]) 0 0 0 acc = Ok (rev (a :: acc)).
Proof.
  rewrite b64encode_last1.
  rewrite (a2b_loop_data _ _ _ _ _ _ (data_char_sextet1 a)). cbn [N.eqb].
  rewrite (a2b_loop_data _ _ _ _ _ _ (data_char_sextet2_last a)).
  change (1 =? 0) with false. change (1 =? 1) with true. cbv iota.
  rewrite (byte_eqb_eq _ _ (rebuild1_last a)).
  reflexivity.
Qed.

Lemma a2b_loop_last2 (a b : byte) (acc : list byte) :
  a2b_loop (b64encode [a; b]) 0 0 0 acc = Ok (rev (b :: a :: acc)).
Proof.
  rewrite b64encode_last2.
  rewrite (a2b_loop_data _ _ _ _ _ _ (data_char_sextet1 a)). cbn [N.eqb].
  rewrite (a2b_loop_data _ _ _ _ _ _ (data_char_sextet2 a b)).
  change (1 =? 0) with false. change (1 =? 1) with true. cbv iota.
  rewrite (byte_eqb_eq _ _ (rebuild1 a b)).
  rewrite (a2b_loop_data _ _ _ _ _ _ (data_char_sextet3_last b)).
  change (2 =? 0) with false. change (2 =? 1) with false.
  change (2 =? 2) with true. cbv iota.
  rewrite (proj1 (N.eqb_eq _ _) (sextet2_low a b)).
  rewrite (proj1 (N.eqb_eq _ _) (sextet3_last_high b)).
  rewrite (byte_eqb_eq _ _ (rebuild2 b)).
  reflexivity.
Qed.

(** Induction on byte strings, three bytes at a time. *)
Lemma bytes_ind3 (P : list byte -> Prop) :
  P [] -> (forall a, P [a]) -> (forall a b, P [a; b]) ->
  (forall a b c rest, P rest -> P (a :: b :: c :: rest)) ->
  forall bs, P bs.
Proof.
  intros H0 H1 H2 H3.
  assert (G : forall n bs, (List.length bs < n)%nat -> P bs).
  { induction n as [| n IH]; intros bs Hlen; [inversion Hlen |].
    destruct bs as [| a [| b [| c rest]]]; auto.
    apply H3, IH. simpl in Hlen. lia. }
  intros bs. apply (G (S (List.length bs))). lia.
Qed.

Lemma a2b_loop_b64encode (bs : list byte) :
  forall acc, a2b_loop (b64encode bs) 0 0 0 acc = Ok (rev acc ++ bs)%list.
Proof.
  induction bs as [| a | a b | a b c rest IH] using bytes_ind3; intros acc.
  - cbn. rewrite app_nil_r. reflexivity.
  - rewrite a2b_loop_last1. reflexivity.
  - rewrite a2b_loop_last2. cbn [rev]. rewrite <- !app_assoc. reflexivity.
  - rewrite b64encode_group, a2b_loop_group, IH.
    cbn [rev]. rewrite <- !app_assoc. reflexivity.
Qed.

Lemma is_ascii_b64encode (bs : list byte) : is_ascii (b64encode bs) = true.
Proof.
  induction bs as [| a | a b | a b c rest IH] using bytes_ind3.
  - reflexivity.
  - rewrite b64encode_last1. cbn [is_ascii].
    rewrite (data_char_ascii _ (data_char_sextet1 a)),
            (data_char_ascii _ (data_char_sextet2_last a)). reflexivity.
  - rewrite b64encode_last2. cbn [is_ascii].
    rewrite (data_char_ascii _ (data_char_sextet1 a)),
            (data_char_ascii _ (data_char_sextet2 a b)),
            (data_char_ascii _ (data_char_sextet3_last b)). reflexivity.
  - rewrite b64encode_group. cbn [is_ascii].
    rewrite (data_char_ascii _ (data_char_sextet1 a)),
            (data_char_ascii _ (data_char_sextet2 a b)),
            (data_char_ascii _ (data_char_sextet3 b c)),
            (data_char_ascii _ (data_char_sextet4 c)), IH. reflexivity.
Qed.

(** [base64.b64decode(base64.b64encode(bs).decode("ascii")) == bs] *)
Lemma b64decode_b64encode (bs : list byte) : b64decode (b64encode bs) = Ok bs.
Proof.
  unfold b64decode. rewrite is_ascii_b64encode. apply a2b_loop_b64encode.
Qed.

End Codec.

(** ** Real vectors *)

Module Analysis.

Import Exact.
Local Open Scope R_scope.

Lemma dot_self_nonneg (v : list R) : 0 <= dot v v.
Proof.
  induction v as [| x v IH]; simpl; [lra |].
  pose proof (Rle_0_sqr x) as Hx. unfold Rsqr in Hx. lra.
Qed.

Lemma norm_nonneg (v : list R) : 0 <= norm v.
Proof. apply sqrt_pos. Qed.

Lemma norm_sq (v : list R) : norm v * norm v = dot v v.
Proof. apply sqrt_sqrt, dot_self_nonneg. Qed.

Lemma dot_scale_r (v : list R) (c : R) :
  dot v (map (fun x => x / c) v) = dot v v / c.
Proof.
  induction v as [| x v IH]; simpl; [unfold Rdiv; ring |].
  rewrite IH. unfold Rdiv. ring.
Qed.

Lemma dot_scale (v : list R) (c : R) :
  dot (map (fun x => x / c) v) (map (fun x => x / c) v) = dot v v / c / c.
Proof.
  induction v as [| x v IH]; simpl; [unfold Rdiv; ring |].
  rewrite IH. unfold Rdiv. ring.
Qed.

Lemma norm_scale (v : list R) (c : R) :
  0 < c -> norm (map (fun x => x / c) v) = norm v / c.
Proof.
  intros Hc. unfold norm at 1. rewrite dot_scale.
  apply sqrt_lem_1.
  - pose proof (dot_self_nonneg v) as H.
    apply Rmult_le_pos; [apply Rmult_le_pos; [exact H |] |];
      left; apply Rinv_0_lt_compat; exact Hc.
  - apply Rmult_le_pos; [apply norm_nonneg | left; apply Rinv_0_lt_compat; exact Hc].
  - rewrite <- (norm_sq v). field. lra.
Qed.

Lemma dot_zeros (k : nat) : dot (repeat 0 k) (repeat 0 k) = 0.
Proof. induction k as [| k IH]; simpl; [reflexivity | rewrite IH; ring]. Qed.

End Analysis.

(** ** Encoding and decoding an embedding *)

Module RoundTrip.

Import IEEE.

(** [np.frombuffer(emb.tobytes(), dtype=np.float32)] is [emb]. *)
Lemma chunks4_tobytes (v : list binary32) :
  chunks4 (np := IEEE.numpy) (tobytes (np := IEEE.numpy) v) = v.
Proof.
  induction v as [| x v IH]; [reflexivity |].
  destruct x as [b0 b1 b2 b3].
  change (tobytes (np := IEEE.numpy) (B32 b0 b1 b2 b3 :: v))
    with (b0 :: b1 :: b2 :: b3 :: tobytes (np := IEEE.numpy) v).
  cbn [chunks4]. rewrite IH. reflexivity.
Qed.

Lemma tobytes_length (v : list binary32) :
  List.length (tobytes (np := IEEE.numpy) v) = (4 * List.length v)%nat.
Proof.
  induction v as [| x v IH]; [reflexivity |].
  change (tobytes (np := IEEE.numpy) (x :: v))
    with (byte0 x :: byte1 x :: byte2 x :: byte3 x :: tobytes (np := IEEE.numpy) v).
  cbn [List.length]. rewrite IH. lia.
Qed.

Lemma frombuffer_tobytes (v : list binary32) :
  frombuffer (np := IEEE.numpy) (tobytes (np := IEEE.numpy) v) = Ok v.
Proof.
  unfold frombuffer. rewrite tobytes_length.
  replace (4 * List.length v)%nat with (List.length v * 4)%nat by lia.
  rewrite Nat.Div0.mod_mul. cbn [Nat.eqb]. rewrite chunks4_tobytes. reflexivity.
Qed.

(** Decoding an encoded embedding re-normalizes it, and nothing else. *)
Lemma b64_to_emb_emb_to_b64 (v : list binary32) :
  b64_to_emb (np := IEEE.numpy) (emb_to_b64 (np := IEEE.numpy) v)
  = Ok (normalize (np := IEEE.numpy) v).
Proof.
  unfold b64_to_emb, emb_to_b64.
  rewrite Codec.b64decode_b64encode. cbn [Py.bind].
  rewrite frombuffer_tobytes. reflexivity.
Qed.

(** On the sample probe the round trip is exact, bit for bit. *)
Example round_trip_of_sample_probe :
  b64_to_emb (np := IEEE.numpy)
    (emb_to_b64 (np := IEEE.numpy) (normalize (np := IEEE.numpy) Sample.raw_34))
  = Ok (normalize (np := IEEE.numpy) Sample.raw_34).
Proof. vm_compute. reflexivity. Qed.

Section SelfTemplate.

Context {np : Numpy} {nb : NumpyBuffer np}.
Variable image : Type.
Variable cv2_imdecode : list byte -> Py.result (option image).
Variable face_app_get : image -> Py.result (list (Face float32)).

Hypothesis decode_encode :
  forall v : list float32, b64_to_emb (emb_to_b64 v) = Ok (normalize v).

(** [embed] returns the encoded probe. *)
Lemma embed_returns_encoded_probe
      (payload : string) (log : list (event image)) (probe : list float32) :
  probe_of cv2_imdecode face_app_get payload = (log, Ok probe) ->
  embed cv2_imdecode face_app_get {| image_base64 := payload |}
  = (log, Body {| model := MODEL; embedding_b64 := emb_to_b64 probe |}).
Proof.
  unfold probe_of, embed. cbn [image_base64].
  destruct (decode_base64_image cv2_imdecode payload) as [l1 [img | e]];
    cbn [io_bind]; [| discriminate].
  destruct (get_single_face_embedding face_app_get img) as [l2 [emb | e]];
    cbn [io_bind io_ret]; [| discriminate].
  intros H. inversion H; subst; clear H.
  rewrite app_nil_r. reflexivity.
Qed.

(** [verify] of a probe against its own encoding. *)
Lemma verify_own_template
      (payload : string) (threshold : option pyfloat)
      (log : list (event image)) (probe : list float32) :
  probe_of cv2_imdecode face_app_get payload = (log, Ok probe) ->
  let req := {| req_image_base64 := payload;
                req_templates_b64 := [emb_to_b64 probe];
                req_threshold := threshold |} in
  let d := py_sub lit_1_0 (float_of_f32 (dot_kernel probe (normalize probe))) in
  cosine_distance probe (normalize probe) = Ok d
  /\ verify cv2_imdecode face_app_get req
     = (log, Body {| res_match := py_leb (update lit_999_0 d) (threshold_used req);
                     res_best_distance := update lit_999_0 d;
                     res_threshold := threshold_used req;
                     res_model := MODEL |}).
Proof.
  intros Hp req d.
  assert (Hd : cosine_distance probe (normalize probe) = Ok d).
  { unfold cosine_distance, np_dot.
    rewrite Requests.normalize_length, Nat.eqb_refl. reflexivity. }
  split; [exact Hd |].
  rewrite verify_unfold. subst req. cbn [req_templates_b64 req_image_base64].
  rewrite Hp. cbn [fst snd Py.bind best_loop].
  rewrite decode_encode. cbn [Py.bind]. rewrite Hd. reflexivity.
Qed.

End SelfTemplate.

(* The statements below apply float32 operations to variables; inferring
   implicit arguments from them would unfold those operations. *)
Local Unset Implicit Arguments.

(** C6, counterexample.  The face model returns the raw embedding
    (1e-9, 0, ..., 0).  [embed] returns the encoding of the probe
    (0.5, 0, ..., 0); [verify] of the same image against that single
    template answers [best_distance = 0.5], and match is false both with
    the default threshold 0.45 and with threshold 0. *)
Lemma verify_own_template_of_tiny_embedding :
  let fa := Sample.one_face Sample.raw_tiny in
  let log := [CallImdecode [x00; x00; x00]; CallFaceGet [x00; x00; x00]] in
  let template := emb_to_b64 (np := IEEE.numpy) (Sample.padded [Sample.f32 1 2]) in
  embed (np := IEEE.numpy) Sample.stub_imdecode fa {| image_base64 := "AAAA" |}
  = (log, Body {| model := MODEL; embedding_b64 := template |})
  /\ verify (np := IEEE.numpy) Sample.stub_imdecode fa (Sample.request [template] None)
     = (log, Body {| res_match := false;
                     res_best_distance := b64_lit 1 2;
                     res_threshold := lit_0_45 (Numpy := IEEE.numpy);
                     res_model := MODEL |})
  /\ verify (np := IEEE.numpy) Sample.stub_imdecode fa
            (Sample.request [template] (Some (S754_zero false)))
     = (log, Body {| res_match := false;
                     res_best_distance := b64_lit 1 2;
                     res_threshold := S754_zero false;
                     res_model := MODEL |}).
Proof.
  intros fa log template.
  split; [vm_compute; reflexivity |].
  split; vm_compute; reflexivity.
Qed.

Local Set Implicit Arguments.

End RoundTrip.

(** ** Binary floats: digits and shifts *)

Module Digits.

Local Unset Implicit Arguments.

Local Open Scope Z_scope.

Lemma digits2_pos_bounds (p : positive) :
  2 ^ (Zpos (digits2_pos p) - 1) <= Zpos p < 2 ^ Zpos (digits2_pos p).
Proof.
  induction p as [p IH | p IH |]; cbn [digits2_pos].
  - rewrite Pos2Z.inj_succ.
    replace (Z.succ (Zpos (digits2_pos p)) - 1) with (Z.succ (Zpos (digits2_pos p) - 1)) by lia.
    rewrite !Z.pow_succ_r by lia. lia.
  - rewrite Pos2Z.inj_succ.
    replace (Z.succ (Zpos (digits2_pos p)) - 1) with (Z.succ (Zpos (digits2_pos p) - 1)) by lia.
    rewrite !Z.pow_succ_r by lia. lia.
  - cbn. lia.
Qed.

Lemma Zdigits2_nonneg (m : Z) : 0 <= Zdigits2 m.
Proof. destruct m; cbn; lia. Qed.

Lemma Zdigits2_bounds (m : Z) :
  0 < m -> 2 ^ (Zdigits2 m - 1) <= m < 2 ^ Zdigits2 m.
Proof. destruct m as [| p | p]; try lia. intros _. apply digits2_pos_bounds. Qed.

Lemma Zdigits2_upper (m : Z) : 0 <= m -> m < 2 ^ Zdigits2 m.
Proof.
  intros H. destruct (Z.eq_dec m 0) as [-> | N]; [cbn; lia |].
  apply Zdigits2_bounds. lia.
Qed.

Lemma Zdigits2_unique (m d : Z) :
  0 < m -> 2 ^ (d - 1) <= m < 2 ^ d -> Zdigits2 m = d.
Proof.
  intros Hm [Hlo Hhi].
  pose proof (Zdigits2_bounds m Hm) as [Blo Bhi].
  pose proof (Zdigits2_nonneg m) as Hn.
  assert (Hd : 0 < d).
  { destruct (Z_lt_le_dec 0 d) as [H | H]; [exact H |].
    exfalso. assert (2 ^ d <= 1).
    { destruct (Z.eq_dec d 0) as [-> | N]; [cbn; lia |].
      rewrite Z.pow_neg_r by lia. lia. }
    lia. }
  destruct (Z_lt_le_dec (Zdigits2 m) d) as [H1 | H1].
  - assert (2 ^ Zdigits2 m <= 2 ^ (d - 1)) by (apply Z.pow_le_mono_r; lia). lia.
  - destruct (Z_lt_le_dec d (Zdigits2 m)) as [H2 | H2]; [| lia].
    assert (2 ^ d <= 2 ^ (Zdigits2 m - 1)) by (apply Z.pow_le_mono_r; lia). lia.
Qed.

Lemma Zdigits2_mono (a b : Z) : 0 <= a <= b -> Zdigits2 a <= Zdigits2 b.
Proof.
  intros [Ha Hab].
  destruct (Z.eq_dec a 0) as [-> | Na]; [apply Zdigits2_nonneg |].
  pose proof (Zdigits2_bounds a ltac:(lia)) as [Alo _].
  pose proof (Zdigits2_bounds b ltac:(lia)) as [_ Bhi].
  destruct (Z_lt_le_dec (Zdigits2 b) (Zdigits2 a)) as [H | H]; [| exact H].
  pose proof (Zdigits2_nonneg b).
  assert (2 ^ Zdigits2 b <= 2 ^ (Zdigits2 a - 1)) by (apply Z.pow_le_mono_r; lia). lia.
Qed.

(** The digits of a quotient by a power of two. *)
Lemma Zdigits2_div_pow2 (m n : Z) :
  0 <= n -> 0 < m / 2 ^ n -> Zdigits2 (m / 2 ^ n) = Zdigits2 m - n.
Proof.
  intros Hn Hq.
  assert (Hp : 0 < 2 ^ n) by (apply Z.pow_pos_nonneg; lia).
  assert (Hm : 0 < m).
  { destruct (Z_lt_le_dec 0 m) as [H | H]; [exact H |].
    exfalso. assert (m / 2 ^ n <= 0) by (apply Z.div_le_upper_bound; lia). lia. }
  pose proof (Zdigits2_bounds m Hm) as [Blo Bhi].
  assert (Hd : n < Zdigits2 m).
  { destruct (Z_lt_le_dec n (Zdigits2 m)) as [H | H]; [exact H |].
    exfalso. assert (2 ^ Zdigits2 m <= 2 ^ n)
      by (apply Z.pow_le_mono_r; [lia | exact H]).
    rewrite Z.div_small in Hq by lia. lia. }
  apply Zdigits2_unique; [exact Hq |]. split.
  - apply Z.div_le_lower_bound; [exact Hp |].
    rewrite <- Z.pow_add_r by lia.
    replace (n + (Zdigits2 m - n - 1)) with (Zdigits2 m - 1) by lia. exact Blo.
  - apply Z.div_lt_upper_bound; [exact Hp |].
    rewrite <- Z.pow_add_r by lia.
    replace (n + (Zdigits2 m - n)) with (Zdigits2 m) by lia. exact Bhi.
Qed.

End Digits.

Module Shift.

Local Unset Implicit Arguments.

Local Open Scope Z_scope.

Lemma shr_1_m (mrs : shr_record) :
  0 <= shr_m mrs -> shr_m (shr_1 mrs) = shr_m mrs / 2 /\ 0 <= shr_m (shr_1 mrs).
Proof.
  destruct mrs as [m r s]. cbn [shr_m]. intros Hm.
  destruct m as [| [p | p |] | p]; cbn [shr_1 shr_m].
  - split; [reflexivity | lia].
  - split; [| lia]. rewrite Pos2Z.inj_xI.
    apply Z.div_unique with (r := 1); lia.
  - split; [| lia]. rewrite Pos2Z.inj_xO.
    apply Z.div_unique with (r := 0); lia.
  - split; [reflexivity | lia].
  - lia.
Qed.

Lemma iter_shr_1_m (p : positive) :
  forall mrs, 0 <= shr_m mrs ->
    shr_m (SpecFloat.iter_pos shr_1 p mrs) = shr_m mrs / 2 ^ Zpos p
    /\ 0 <= shr_m (SpecFloat.iter_pos shr_1 p mrs).
Proof.
  induction p as [p IH | p IH |]; intros mrs Hm; cbn [SpecFloat.iter_pos].
  - destruct (shr_1_m mrs Hm) as [E1 H1].
    destruct (IH _ H1) as [E2 H2]. destruct (IH _ H2) as [E3 H3].
    split; [| exact H3]. rewrite E3, E2, E1.
    rewrite !Z.div_div by (try apply Z.pow_pos_nonneg; lia).
    f_equal. change (Z.pos p~1) with (2 * Z.pos p + 1).
    replace (2 * Zpos p + 1) with (1 + Zpos p + Zpos p) by lia.
    rewrite !Z.pow_add_r by lia. change (2 ^ 1) with 2. ring.
  - destruct (IH _ Hm) as [E2 H2]. destruct (IH _ H2) as [E3 H3].
    split; [| exact H3]. rewrite E3, E2.
    rewrite !Z.div_div by (try apply Z.pow_pos_nonneg; lia).
    f_equal. change (Z.pos p~0) with (2 * Z.pos p).
    replace (2 * Zpos p) with (Zpos p + Zpos p) by lia.
    rewrite Z.pow_add_r by lia. ring.
  - destruct (shr_1_m mrs Hm) as [E1 H1]. split; [| exact H1].
    rewrite E1. reflexivity.
Qed.

Lemma shr_record_of_loc_m (m : Z) (l : location) : shr_m (shr_record_of_loc m l) = m.
Proof. destruct l as [| []]; reflexivity. Qed.

(** [shr] by a shift that is not negative divides by the power of two. *)
Lemma shr_m_div (mrs : shr_record) (e n : Z) :
  0 <= shr_m mrs -> 0 <= n ->
  shr_m (fst (shr mrs e n)) = shr_m mrs / 2 ^ n
  /\ snd (shr mrs e n) = e + n.
Proof.
  intros Hm Hn. destruct n as [| p | p]; cbn [shr fst snd]; try lia.
  - split; [| lia]. rewrite Z.div_1_r. reflexivity.
  - split; [| reflexivity]. apply iter_shr_1_m, Hm.
Qed.

Lemma round_nearest_even_cases (m : Z) (l : location) :
  round_nearest_even m l = m \/ round_nearest_even m l = m + 1.
Proof.
  destruct l as [| []]; cbn; auto. destruct (Z.even m); auto.
Qed.

End Shift.

(** ** Binary floats: rounding to the format *)

Module Round.

Local Unset Implicit Arguments.

Import Digits Shift.
Local Open Scope Z_scope.

Section Format.

Variables prec emax : Z.
Hypothesis prec_pos : 0 < prec.

Lemma fexp_mono (a b : Z) : a <= b -> fexp prec emax a <= fexp prec emax b.
Proof. unfold fexp. lia. Qed.

Lemma fexp_succ (a : Z) : fexp prec emax (a + 1) <= fexp prec emax a + 1.
Proof. unfold fexp. lia. Qed.

Lemma fexp_ge_emin (a : Z) : emin prec emax <= fexp prec emax a.
Proof. unfold fexp. lia. Qed.

Lemma fexp_small (a : Z) : a <= fexp prec emax a -> fexp prec emax a = emin prec emax.
Proof using prec_pos. unfold fexp. lia. Qed.

Lemma fexp_emin : fexp prec emax (emin prec emax) = emin prec emax.
Proof using prec_pos. unfold fexp. lia. Qed.

Lemma fexp_large (a : Z) :
  fexp prec emax a <> emin prec emax -> fexp prec emax a = a - prec.
Proof. unfold fexp. lia. Qed.

(** The first shift of [binary_round_aux]: the mantissa is cut to the
    precision of the format. *)
Lemma first_shift (mz ez : Z) (lz : location) :
  0 <= mz -> ez <= fexp prec emax (Zdigits2 mz + ez) ->
  let e1 := fexp prec emax (Zdigits2 mz + ez) in
  let m1 := mz / 2 ^ (e1 - ez) in
  shr_m (fst (shr_fexp prec emax mz ez lz)) = m1
  /\ snd (shr_fexp prec emax mz ez lz) = e1
  /\ 0 <= m1
  /\ fexp prec emax (Zdigits2 m1 + e1) = e1
  /\ (e1 = emin prec emax \/ 2 ^ (prec - 1) <= m1).
Proof using prec_pos.
  intros Hm He e1 m1.
  assert (Hn : 0 <= e1 - ez) by (subst e1; lia).
  assert (Hp : 0 < 2 ^ (e1 - ez)) by (apply Z.pow_pos_nonneg; lia).
  assert (Hm1 : 0 <= m1) by (apply Z.div_pos; lia).
  unfold shr_fexp. fold e1.
  destruct (shr_m_div (shr_record_of_loc mz lz) ez (e1 - ez)) as [E1 E2];
    [rewrite shr_record_of_loc_m; exact Hm | exact Hn |].
  rewrite shr_record_of_loc_m in E1.
  split; [exact E1 | split; [rewrite E2; lia | split; [exact Hm1 |]]].
  split.
  - destruct (Z.eq_dec m1 0) as [Hz | Hnz].
    + rewrite Hz. cbn [Zdigits2]. rewrite Z.add_0_l.
      assert (Hsmall : mz < 2 ^ (e1 - ez)).
      { apply Z.div_small_iff in Hz; lia. }
      assert (Hd : Zdigits2 mz <= e1 - ez).
      { destruct (Z.eq_dec mz 0) as [-> | Nz]; [cbn; lia |].
        pose proof (Zdigits2_bounds mz ltac:(lia)) as [Blo _].
        destruct (Z_lt_le_dec (e1 - ez) (Zdigits2 mz)) as [H | H]; [| exact H].
        assert (2 ^ (e1 - ez) <= 2 ^ (Zdigits2 mz - 1))
          by (apply Z.pow_le_mono_r; lia). lia. }
      assert (E : e1 = emin prec emax).
      { subst e1. apply fexp_small. lia. }
      rewrite E. apply fexp_emin.
    + subst m1. rewrite Zdigits2_div_pow2 by lia.
      replace (Zdigits2 mz - (e1 - ez) + e1) with (Zdigits2 mz + ez) by lia.
      reflexivity.
  - destruct (Z.eq_dec e1 (emin prec emax)) as [E | N]; [left; exact E | right].
    assert (E : e1 = Zdigits2 mz + ez - prec) by (subst e1; apply fexp_large; exact N).
    assert (Hpos : 0 < mz).
    { destruct (Z.eq_dec mz 0) as [Zm | Nm]; [| lia].
      exfalso. rewrite Zm in E. cbn [Zdigits2] in E. lia. }
    pose proof (Zdigits2_bounds mz Hpos) as [Blo _].
    subst m1. apply Z.div_le_lower_bound; [exact Hp |].
    rewrite <- Z.pow_add_r by lia.
    replace (e1 - ez + (prec - 1)) with (Zdigits2 mz - 1) by lia. exact Blo.
Qed.

(** The second shift, after rounding: it happens only when rounding up
    reached a power of two, and then it is exact. *)
Lemma second_shift (m1 e1 r : Z) :
  0 <= m1 ->
  fexp prec emax (Zdigits2 m1 + e1) = e1 ->
  (e1 = emin prec emax \/ 2 ^ (prec - 1) <= m1) ->
  r = m1 \/ r = m1 + 1 ->
  let e2 := fexp prec emax (Zdigits2 r + e1) in
  let m2 := shr_m (fst (shr_fexp prec emax r e1 loc_Exact)) in
  snd (shr_fexp prec emax r e1 loc_Exact) = e2
  /\ 0 <= m2
  /\ e1 <= e2
  /\ m2 * 2 ^ (e2 - e1) = r
  /\ fexp prec emax (Zdigits2 m2 + e2) = e2.
Proof using prec_pos.
  intros Hm1 Hcan Hnorm Hr e2 m2.
  assert (Hr0 : 0 <= r) by lia.
  assert (Hmono : e1 <= e2).
  { subst e2. rewrite <- Hcan at 1. apply fexp_mono.
    pose proof (Zdigits2_mono m1 r ltac:(lia)). lia. }
  unfold shr_fexp in *. fold e2 in m2 |- *.
  destruct (shr_m_div (shr_record_of_loc r loc_Exact) e1 (e2 - e1)) as [E1 E2];
    [cbn; exact Hr0 | lia |].
  cbn [shr_record_of_loc shr_m] in E1.
  assert (Em2 : m2 = r / 2 ^ (e2 - e1)) by (subst m2; exact E1).
  assert (Hcases : e2 = e1 \/ (e2 = e1 + 1 /\ r = 2 ^ Zdigits2 m1 /\ 1 <= Zdigits2 m1)).
  { destruct Hr as [-> | ->]; [left; subst e2; exact Hcan |].
    destruct (Z.eq_dec e2 e1) as [E | N]; [left; exact E | right].
    assert (Hd : Zdigits2 (m1 + 1) <> Zdigits2 m1).
    { intros E. apply N. subst e2. rewrite E. exact Hcan. }
    pose proof (Zdigits2_mono m1 (m1 + 1) ltac:(lia)) as Hle.
    pose proof (Zdigits2_upper m1 Hm1) as Hup.
    pose proof (Zdigits2_bounds (m1 + 1) ltac:(lia)) as [Blo Bhi].
    pose proof (Zdigits2_nonneg m1) as Hnn.
    assert (Hpow : m1 + 1 = 2 ^ Zdigits2 m1).
    { assert (2 ^ Zdigits2 m1 <= 2 ^ (Zdigits2 (m1 + 1) - 1))
        by (apply Z.pow_le_mono_r; lia). lia. }
    assert (Hdig : Zdigits2 (m1 + 1) = Zdigits2 m1 + 1).
    { apply Zdigits2_unique; [lia |].
      replace (Zdigits2 m1 + 1 - 1) with (Zdigits2 m1) by lia.
      rewrite Z.pow_add_r by lia. change (2 ^ 1) with 2. lia. }
    assert (He2 : e2 = e1 + 1).
    { pose proof (fexp_succ (Zdigits2 m1 + e1)) as Hs.
      rewrite Hcan in Hs.
      assert (E : e2 = fexp prec emax (Zdigits2 m1 + e1 + 1)).
      { subst e2. rewrite Hdig. f_equal. lia. }
      lia. }
    split; [exact He2 | split; [exact Hpow |]].
    destruct (Z.eq_dec (Zdigits2 m1) 0) as [Hz | Hnz]; [| lia].
    exfalso.
    assert (Hm0 : m1 = 0).
    { rewrite Hz in Hup. change (2 ^ 0) with 1 in Hup. lia. }
    clear Hpow Hdig Hd Hle Blo Bhi Hup. subst m1.
    destruct Hnorm as [Hmin | Hbig].
    - subst e2. change (Zdigits2 (0 + 1)) with 1 in He2.
      rewrite Hmin in He2. unfold fexp in He2. lia.
    - assert (0 < 2 ^ (prec - 1)) by (apply Z.pow_pos_nonneg; lia). lia. }
  split; [rewrite E2; lia |].
  destruct Hcases as [E | (E & Hpow & Hd)].
  - rewrite E in Em2. rewrite Z.sub_diag, Z.pow_0_r, Z.div_1_r in Em2.
    rewrite E, Z.sub_diag, Z.pow_0_r, Em2.
    split; [lia | split; [lia | split; [lia |]]].
    exact E.
  - replace (e2 - e1) with 1 in * by lia. change (2 ^ 1) with 2 in *.
    assert (Hhalf : r = 2 * 2 ^ (Zdigits2 m1 - 1)).
    { rewrite Hpow. replace (Zdigits2 m1) with (1 + (Zdigits2 m1 - 1)) at 1 by lia.
      rewrite Z.pow_add_r by lia. reflexivity. }
    assert (Hq : m2 = 2 ^ (Zdigits2 m1 - 1)).
    { rewrite Em2, Hhalf. rewrite Z.mul_comm, Z.div_mul by lia. reflexivity. }
    assert (Hm2 : 0 < m2) by (rewrite Hq; apply Z.pow_pos_nonneg; lia).
    split; [lia | split; [lia | split; [lia |]]].
    assert (Hdig : Zdigits2 m2 = Zdigits2 m1).
    { apply Zdigits2_unique; [exact Hm2 |]. rewrite Hq. split; [lia |].
      apply Z.pow_lt_mono_r; lia. }
    assert (Hdr : Zdigits2 r = Zdigits2 m1 + 1).
    { apply Zdigits2_unique; [lia |].
      replace (Zdigits2 m1 + 1 - 1) with (Zdigits2 m1) by lia.
      rewrite Hpow. split; [lia |]. apply Z.pow_lt_mono_r; lia. }
    rewrite Hdig.
    replace (Zdigits2 m1 + e2) with (Zdigits2 r + e1) by lia. reflexivity.
Qed.

(** [binary_round_aux] on a mantissa with enough digits: the result is
    the mantissa cut to the format's precision, or the next one. *)
Lemma binary_round_aux_spec (s : bool) (mz ez : Z) (lz : location) :
  0 <= mz -> ez <= fexp prec emax (Zdigits2 mz + ez) ->
  exists m1 e1 m2 e2,
    e1 = fexp prec emax (Zdigits2 mz + ez)
    /\ m1 = mz / 2 ^ (e1 - ez)
    /\ (e1 = emin prec emax \/ 2 ^ (prec - 1) <= m1)
    /\ 0 <= m2 /\ e1 <= e2
    /\ (m2 * 2 ^ (e2 - e1) = m1 \/ m2 * 2 ^ (e2 - e1) = m1 + 1)
    /\ fexp prec emax (Zdigits2 m2 + e2) = e2
    /\ binary_round_aux prec emax s mz ez lz
       = match m2 with
         | Z0 => S754_zero s
         | Zpos p => if e2 <=? emax - prec then S754_finite s p e2 else S754_infinity s
         | Zneg _ => S754_nan
         end.
Proof using prec_pos.
  intros Hm He.
  destruct (first_shift mz ez lz Hm He) as (E1 & E2 & Hm1 & Hcan & Hnorm).
  set (e1 := fexp prec emax (Zdigits2 mz + ez)) in *.
  set (m1 := mz / 2 ^ (e1 - ez)) in *.
  unfold binary_round_aux.
  destruct (shr_fexp prec emax mz ez lz) as [mrs' e'] eqn:S1.
  cbn [fst snd] in E1, E2. subst e'.
  set (r := round_nearest_even (shr_m mrs') (loc_of_shr_record mrs')).
  assert (Hr : r = m1 \/ r = m1 + 1).
  { subst r. rewrite E1. apply round_nearest_even_cases. }
  destruct (second_shift m1 e1 r Hm1 Hcan Hnorm Hr) as (F2 & Hm2 & Hle & Hex & Hcan2).
  destruct (shr_fexp prec emax r e1 loc_Exact) as [mrs'' e''] eqn:S2.
  cbn [fst snd] in F2, Hm2, Hle, Hex, Hcan2. 
  exists m1, e1, (shr_m mrs''), e''.
  rewrite F2.
  split; [reflexivity | split; [reflexivity | split; [exact Hnorm |]]].
  split; [exact Hm2 | split; [exact Hle |]].
  split; [rewrite Hex; exact Hr |].
  split; [exact Hcan2 | reflexivity].
Qed.

End Format.

End Round.

(** ** Binary floats: the value of a rounded number *)

Module Bpow.

Local Unset Implicit Arguments.

Local Open Scope R_scope.

Lemma bpow_pos (e : Z) : 0 < bpow e.
Proof. apply powerRZ_lt. lra. Qed.

Lemma bpow_add (a b : Z) : bpow (a + b) = bpow a * bpow b.
Proof. apply powerRZ_add. lra. Qed.

Lemma bpow_0 : bpow 0 = 1.
Proof. reflexivity. Qed.

Lemma bpow_IZR (k : Z) : (0 <= k)%Z -> IZR (2 ^ k) = bpow k.
Proof.
  intros Hk. unfold bpow.
  rewrite <- (Z2Nat.id k Hk) at 1 2.
  rewrite <- pow_IZR, pow_powerRZ. reflexivity.
Qed.

Lemma bpow_le (a b : Z) : (a <= b)%Z -> bpow a <= bpow b.
Proof.
  intros H.
  assert (E : bpow b = bpow a * IZR (2 ^ (b - a))).
  { rewrite bpow_IZR by lia. rewrite <- bpow_add. f_equal. lia. }
  assert (1 <= IZR (2 ^ (b - a))).
  { apply IZR_le. assert (0 < 2 ^ (b - a))%Z by (apply Z.pow_pos_nonneg; lia). lia. }
  pose proof (bpow_pos a). rewrite E. nra.
Qed.

(** Moving a power of two between the mantissa and the exponent. *)
Lemma bpow_shift (m e n : Z) :
  (0 <= n)%Z -> IZR (m * 2 ^ n) * bpow e = IZR m * bpow (e + n).
Proof.
  intros Hn. rewrite mult_IZR, bpow_IZR by exact Hn.
  rewrite bpow_add. ring.
Qed.

End Bpow.

Module Division.

Local Unset Implicit Arguments.

Import Digits Shift Round Bpow.

Section Format.

Variables prec emax : Z.
Hypothesis prec_pos : (0 < prec)%Z.

Local Open Scope Z_scope.

(** The quotient of the mantissas, with enough digits for the format. *)
Lemma div_core_spec (mx my : positive) (ex ey : Z) :
  exists q e l,
    SFdiv_core_binary prec emax (Zpos mx) ex (Zpos my) ey = (q, e, l)
    /\ 0 <= q
    /\ e <= fexp prec emax (Zdigits2 q + e)
    /\ e <= ex - ey
    /\ q * Zpos my <= Zpos mx * 2 ^ (ex - ey - e) < (q + 1) * Zpos my.
Proof using prec_pos.
  unfold SFdiv_core_binary.
  set (d1 := Zdigits2 (Zpos mx)). set (d2 := Zdigits2 (Zpos my)).
  set (e := Z.min (fexp prec emax (d1 + ex - (d2 + ey))) (ex - ey)).
  set (s := ex - ey - e).
  assert (Hs : 0 <= s) by (subst s e; lia).
  set (m' := match s with Zpos _ => Z.shiftl (Zpos mx) s | Z0 => Zpos mx | Zneg _ => 0 end).
  assert (Em : m' = Zpos mx * 2 ^ s).
  { subst m'. destruct s as [| p | p]; [rewrite Z.pow_0_r; lia | | lia].
    apply Z.shiftl_mul_pow2. lia. }
  assert (Hp : 0 < 2 ^ s) by (apply Z.pow_pos_nonneg; lia).
  assert (Hm' : 0 < m') by (rewrite Em; lia).
  destruct (Z.div_eucl m' (Zpos my)) as [q r] eqn:Ediv.
  assert (Hq : q = m' / Zpos my) by (unfold Z.div; rewrite Ediv; reflexivity).
  assert (Hr : r = m' mod Zpos my) by (unfold Z.modulo; rewrite Ediv; reflexivity).
  pose proof (Z.div_mod m' (Zpos my) ltac:(lia)) as Hdm.
  pose proof (Z.mod_pos_bound m' (Zpos my) ltac:(lia)) as Hmod.
  rewrite <- Hq, <- Hr in Hdm. rewrite <- Hr in Hmod.
  assert (Hq0 : 0 <= q) by (rewrite Hq; apply Z.div_pos; lia).
  exists q, e, (new_location (Zpos my) r).
  split; [reflexivity | split; [exact Hq0 |]].
  split; [| split; [subst e; lia | change (ex - ey - e) with s; rewrite <- Em; nia]].
  (* enough digits *)
  pose proof (Zdigits2_bounds (Zpos mx) ltac:(lia)) as [Xlo _]. fold d1 in Xlo.
  pose proof (Zdigits2_bounds (Zpos my) ltac:(lia)) as [_ Yhi]. fold d2 in Yhi.
  pose proof (Zdigits2_nonneg q) as Hdq.
  assert (Hd1 : 1 <= d1) by (subst d1; cbn; lia).
  assert (Hd2 : 1 <= d2) by (subst d2; cbn; lia).
  assert (Hdig : d1 + s - d2 <= Zdigits2 q).
  { destruct (Z_lt_le_dec (d1 + s - d2) 1) as [H | H]; [lia |].
    assert (Hk : 2 ^ (d1 + s - d2 - 1) <= q).
    { rewrite Hq. apply Z.div_le_lower_bound; [lia |].
      assert (Zpos my * 2 ^ (d1 + s - d2 - 1) <= 2 ^ d2 * 2 ^ (d1 + s - d2 - 1)).
      { apply Z.mul_le_mono_nonneg_r; [apply Z.pow_nonneg; lia | lia]. }
      rewrite <- Z.pow_add_r in H0 by lia.
      replace (d2 + (d1 + s - d2 - 1)) with ((d1 - 1) + s) in H0 by lia.
      rewrite Z.pow_add_r in H0 by lia.
      assert (2 ^ (d1 - 1) * 2 ^ s <= Zpos mx * 2 ^ s)
        by (apply Z.mul_le_mono_nonneg_r; lia).
      lia. }
    assert (Hqpos : 0 < q).
    { assert (0 < 2 ^ (d1 + s - d2 - 1)) by (apply Z.pow_pos_nonneg; lia). lia. }
    pose proof (Zdigits2_bounds q Hqpos) as [_ Qhi].
    destruct (Z_lt_le_dec (Zdigits2 q) (d1 + s - d2)) as [Hlt | Hge]; [| exact Hge].
    assert (2 ^ Zdigits2 q <= 2 ^ (d1 + s - d2 - 1)) by (apply Z.pow_le_mono_r; lia).
    lia. }
  assert (Hle : fexp prec emax (d1 + ex - (d2 + ey)) <= fexp prec emax (Zdigits2 q + e)).
  { apply fexp_mono. subst s. lia. }
  subst e. lia.
Qed.

Local Open Scope R_scope.

(** The real value of what [binary_round_aux] returns for a number [t]
    between two consecutive multiples of [2^ez]. *)
Lemma binary_round_aux_error (s : bool) (mz ez : Z) (lz : location) (t : R) :
  (0 <= mz)%Z -> (ez <= fexp prec emax (Zdigits2 mz + ez))%Z ->
  IZR mz * bpow ez <= t < (IZR mz + 1) * bpow ez ->
  let z := binary_round_aux prec emax s mz ez lz in
  (z = S754_infinity s
   /\ ((2 <= emax)%Z -> bpow emax <= t + bpow (1 - prec) * t + bpow (emin prec emax))
   \/ z = S754_zero s /\ Rabs (0 - t) <= bpow (1 - prec) * t + bpow (emin prec emax)
   \/ exists m e,
       z = S754_finite s m e
       /\ SpecFloat.bounded prec emax m e = true
       /\ Rabs (IZR (Zpos m) * bpow e - t)
          <= bpow (1 - prec) * t + bpow (emin prec emax)).
Proof using prec_pos.
  intros Hm He [Tlo Thi] z.
  destruct (binary_round_aux_spec prec emax prec_pos s mz ez lz Hm He)
    as (m1 & e1 & m2 & e2 & He1 & Hm1 & Hnorm & Hm2 & Hle & Hr & Hcan & Hz).
  fold z in Hz.
  assert (Hn : (0 <= e1 - ez)%Z) by lia.
  assert (Hp : (0 < 2 ^ (e1 - ez))%Z) by (apply Z.pow_pos_nonneg; lia).
  (* t lies between m1 and m1 + 1, in units of 2^e1 *)
  assert (Hdiv : (m1 * 2 ^ (e1 - ez) <= mz /\ mz + 1 <= (m1 + 1) * 2 ^ (e1 - ez))%Z).
  { pose proof (Z.div_mod mz (2 ^ (e1 - ez)) ltac:(lia)) as Hdm.
    pose proof (Z.mod_pos_bound mz (2 ^ (e1 - ez)) Hp) as Hmod.
    rewrite <- Hm1 in Hdm. nia. }
  assert (Hm1nn : (0 <= m1)%Z) by (rewrite Hm1; apply Z.div_pos; lia).
  pose proof (bpow_pos ez) as Pez. pose proof (bpow_pos e1) as Pe1.
  assert (Ee1 : bpow e1 = IZR (2 ^ (e1 - ez)) * bpow ez).
  { rewrite bpow_IZR by lia. rewrite <- bpow_add. f_equal. lia. }
  assert (T1 : IZR m1 * bpow e1 <= t).
  { rewrite Ee1, <- Rmult_assoc, <- mult_IZR.
    apply Rle_trans with (IZR mz * bpow ez); [| exact Tlo].
    apply Rmult_le_compat_r; [lra | apply IZR_le; lia]. }
  assert (T2 : t <= (IZR m1 + 1) * bpow e1).
  { rewrite Ee1, <- Rmult_assoc.
    replace (IZR m1 + 1) with (IZR (m1 + 1)) by (rewrite plus_IZR; reflexivity).
    rewrite <- mult_IZR.
    apply Rle_trans with ((IZR mz + 1) * bpow ez); [lra |].
    replace (IZR mz + 1) with (IZR (mz + 1)) by (rewrite plus_IZR; reflexivity).
    apply Rmult_le_compat_r; [lra | apply IZR_le; lia]. }
  assert (T0 : 0 <= t).
  { apply Rle_trans with (IZR m1 * bpow e1); [| exact T1].
    apply Rmult_le_pos; [apply IZR_le; lia | lra]. }
  (* the value of the result *)
  assert (V : IZR m2 * bpow e2 = IZR m1 * bpow e1
              \/ IZR m2 * bpow e2 = (IZR m1 + 1) * bpow e1).
  { replace e2 with (e1 + (e2 - e1))%Z at 1 2 by lia.
    rewrite <- !bpow_shift by lia.
    destruct Hr as [-> | ->]; [left; reflexivity | right].
    rewrite plus_IZR. reflexivity. }
  assert (Herr : Rabs (IZR m2 * bpow e2 - t) <= bpow e1).
  { destruct V as [-> | ->]; unfold Rabs; destruct (Rcase_abs _); lra. }
  assert (Hulp : bpow e1 <= bpow (1 - prec) * t + bpow (emin prec emax)).
  { pose proof (bpow_pos (1 - prec)) as P1. pose proof (bpow_pos (emin prec emax)) as P2.
    destruct Hnorm as [-> | Hbig].
    - assert (0 <= bpow (1 - prec) * t) by (apply Rmult_le_pos; lra). lra.
    - assert (Hb : bpow (prec - 1) <= IZR m1).
      { rewrite <- bpow_IZR by lia. apply IZR_le. exact Hbig. }
      assert (E : bpow e1 = bpow (1 - prec) * (bpow (prec - 1) * bpow e1)).
      { rewrite <- Rmult_assoc, <- bpow_add.
        replace (1 - prec + (prec - 1))%Z with 0%Z by lia. rewrite bpow_0. ring. }
      assert (bpow (prec - 1) * bpow e1 <= t).
      { apply Rle_trans with (IZR m1 * bpow e1); [| exact T1].
        apply Rmult_le_compat_r; lra. }
      rewrite E at 1.
      assert (bpow (1 - prec) * (bpow (prec - 1) * bpow e1) <= bpow (1 - prec) * t)
        by (apply Rmult_le_compat_l; lra).
      lra. }
  destruct m2 as [| p | p]; [| | lia].
  - right. left. split; [exact Hz |].
    rewrite Rmult_0_l in Herr. lra.
  - destruct (e2 <=? emax - prec)%Z eqn:Hb.
    2: { left. split; [exact Hz |]. intros Hemax.
         apply Z.leb_gt in Hb.
         assert (Hdig : Zdigits2 (Zpos p) = prec).
         { unfold fexp, emin in Hcan. lia. }
         pose proof (Zdigits2_bounds (Zpos p) ltac:(lia)) as [Plo _].
         rewrite Hdig in Plo.
         assert (Hval : bpow emax <= IZR (Zpos p) * bpow e2).
         { apply Rle_trans with (bpow (prec - 1) * bpow e2).
           - rewrite <- bpow_add. apply bpow_le. lia.
           - apply Rmult_le_compat_r; [pose proof (bpow_pos e2); lra |].
             rewrite <- bpow_IZR by lia. apply IZR_le. exact Plo. }
         unfold Rabs in Herr. destruct (Rcase_abs _) in Herr; lra. }
    right. right. exists p, e2. split; [exact Hz | split].
    + unfold SpecFloat.bounded, canonical_mantissa. rewrite Hb, andb_true_r.
      apply Z.eqb_eq. exact Hcan.
    + lra.
Qed.

End Format.

End Division.

(** ** Binary floats: the error of a division *)

Module Quotient.

Local Unset Implicit Arguments.

Import Digits Shift Round Bpow Division.

Section Format.

Variables prec emax : Z.
Hypothesis prec_pos : (0 < prec)%Z.

Local Open Scope R_scope.

Lemma B2R_nonzero_finite (y : spec_float) :
  B2R y <> 0 -> exists s m e, y = S754_finite s m e.
Proof.
  destruct y as [s | s | | s m e]; cbn [B2R]; intros H; try (exfalso; apply H; reflexivity).
  exists s, m, e. reflexivity.
Qed.

Lemma sign_cases (s : bool) : (if s then -1 else 1) = 1 \/ (if s then -1 else 1) = -1.
Proof. destruct s; auto. Qed.

(** The quotient of two positive finite floats, between two multiples of
    the power of two that [SFdiv_core_binary] chooses. *)
Lemma quotient_between (mx my : positive) (ex ey q e : Z) :
  (e <= ex - ey)%Z ->
  (q * Zpos my <= Zpos mx * 2 ^ (ex - ey - e) < (q + 1) * Zpos my)%Z ->
  let t := (IZR (Zpos mx) * bpow ex) / (IZR (Zpos my) * bpow ey) in
  IZR q * bpow e <= t < (IZR q + 1) * bpow e.
Proof.
  intros He [Hlo Hhi] t.
  pose proof (bpow_pos ex) as Pex. pose proof (bpow_pos ey) as Pey.
  pose proof (bpow_pos e) as Pe.
  assert (Hy : 0 < IZR (Zpos my)) by (apply IZR_lt; lia).
  assert (Ex : bpow ex = IZR (2 ^ (ex - ey - e)) * (bpow e * bpow ey)).
  { rewrite bpow_IZR by lia. rewrite <- !bpow_add. f_equal. lia. }
  assert (Et : t = IZR (Zpos mx * 2 ^ (ex - ey - e)) / IZR (Zpos my) * bpow e).
  { subst t. rewrite Ex, mult_IZR. field. lra. }
  rewrite Et.
  apply IZR_le in Hlo. apply IZR_lt in Hhi.
  rewrite (mult_IZR q) in Hlo. rewrite (mult_IZR (q + 1)), plus_IZR in Hhi.
  set (n := IZR (Zpos mx * 2 ^ (ex - ey - e))) in *.
  assert (Hq1 : IZR q <= n / IZR (Zpos my)).
  { apply Rmult_le_reg_r with (IZR (Zpos my)); [exact Hy |].
    unfold Rdiv. rewrite Rmult_assoc, Rinv_l by lra. lra. }
  assert (Hq2 : n / IZR (Zpos my) < IZR q + 1).
  { apply Rmult_lt_reg_r with (IZR (Zpos my)); [exact Hy |].
    unfold Rdiv. rewrite Rmult_assoc, Rinv_l by lra. lra. }
  split.
  - apply Rmult_le_compat_r; lra.
  - apply Rmult_lt_compat_r; lra.
Qed.

(** What a division of a number by a nonzero number returns: an infinity,
    only when the quotient is beyond the format, or a float of the format
    within [2^(1-prec)] of the exact quotient, relatively, or within the
    smallest positive float. *)
Lemma SFdiv_cases (x y : spec_float) :
  SF_finite x = true ->
  B2R y <> 0 ->
  ((exists s, SFdiv prec emax x y = S754_infinity s)
   /\ ((2 <= emax)%Z ->
       bpow emax <= Rabs (B2R x / B2R y) + bpow (1 - prec) * Rabs (B2R x / B2R y)
                    + bpow (emin prec emax)))
  \/ (SF_finite (SFdiv prec emax x y) = true
      /\ valid_binary prec emax (SFdiv prec emax x y) = true
      /\ Rabs (B2R (SFdiv prec emax x y) - B2R x / B2R y)
         <= bpow (1 - prec) * Rabs (B2R x / B2R y) + bpow (emin prec emax)).
Proof using prec_pos.
  intros Hx Hy.
  destruct (B2R_nonzero_finite y Hy) as (sy & my & ey & ->).
  pose proof (bpow_pos (1 - prec)) as P1. pose proof (bpow_pos (emin prec emax)) as P2.
  destruct x as [sx | sx | | sx mx ex]; try discriminate Hx.
  - (* a zero *)
    right. cbn [SFdiv valid_binary B2R SF_finite].
    split; [reflexivity | split; [reflexivity |]].
    unfold Rdiv. rewrite Rmult_0_l, Rminus_0_r, Rabs_R0. lra.
  - (* a finite number *)
    cbn [SFdiv] in *.
    destruct (div_core_spec prec emax prec_pos mx my ex ey)
      as (q & e & l & Ecore & Hq & Hdig & Hle & Hbetween).
    rewrite Ecore in *.
    set (t := (IZR (Zpos mx) * bpow ex) / (IZR (Zpos my) * bpow ey)).
    pose proof (quotient_between mx my ex ey q e Hle Hbetween) as Ht. fold t in Ht.
    assert (Hsign : B2R (S754_finite sx mx ex) / B2R (S754_finite sy my ey)
                    = (if xorb sx sy then -1 else 1) * t).
    { cbn [B2R]. subst t.
      assert (0 < IZR (Zpos my)) by (apply IZR_lt; lia).
      pose proof (bpow_pos ey).
      destruct sx, sy; cbn [xorb]; field; lra. }
    assert (Ht0 : 0 <= t).
    { pose proof (bpow_pos e). destruct Ht as [Ht _].
      apply Rle_trans with (IZR q * bpow e); [| exact Ht].
      apply Rmult_le_pos; [apply IZR_le; exact Hq | lra]. }
    assert (Habs : Rabs ((if xorb sx sy then -1 else 1) * t) = t).
    { destruct (xorb sx sy).
      - replace (-1 * t) with (- t) by ring. rewrite Rabs_Ropp. apply Rabs_pos_eq, Ht0.
      - rewrite Rmult_1_l. apply Rabs_pos_eq, Ht0. }
    rewrite Hsign, Habs.
    destruct (binary_round_aux_error prec emax prec_pos (xorb sx sy) q e l t Hq Hdig Ht)
      as [[Hinf Hbig] | [[Hzero Herr] | (m & e2 & Hfin & Hb & Herr)]].
    + left. split; [eexists; exact Hinf | exact Hbig].
    + right. rewrite Hzero. cbn [valid_binary B2R SF_finite].
      split; [reflexivity | split; [reflexivity |]].
      replace (0 - (if xorb sx sy then -1 else 1) * t)
        with (- ((if xorb sx sy then -1 else 1) * t)) by ring.
      rewrite Rabs_Ropp, Habs.
      rewrite Rminus_0_l, Rabs_Ropp, (Rabs_pos_eq _ Ht0) in Herr. exact Herr.
    + right. rewrite Hfin. cbn [valid_binary B2R SF_finite].
      split; [reflexivity | split; [exact Hb |]].
      replace ((if xorb sx sy then -1 else 1) * (IZR (Zpos m) * bpow e2)
               - (if xorb sx sy then -1 else 1) * t)
        with ((if xorb sx sy then -1 else 1) * (IZR (Zpos m) * bpow e2 - t)) by ring.
      rewrite Rabs_mult.
      assert (Rabs (if xorb sx sy then -1 else 1) = 1).
      { destruct (xorb sx sy); [rewrite Rabs_left | rewrite Rabs_right]; lra. }
      rewrite H, Rmult_1_l. exact Herr.
Qed.

(** The error of a division whose result is a number. *)
Theorem SFdiv_error (x y : spec_float) :
  SF_finite x = true ->
  B2R y <> 0 ->
  SF_finite (SFdiv prec emax x y) = true ->
  valid_binary prec emax (SFdiv prec emax x y) = true
  /\ Rabs (B2R (SFdiv prec emax x y) - B2R x / B2R y)
     <= bpow (1 - prec) * Rabs (B2R x / B2R y) + bpow (emin prec emax).
Proof using prec_pos.
  intros Hx Hy Hz.
  destruct (SFdiv_cases x y Hx Hy) as [[[s Hinf] _] | (_ & Hv & Herr)].
  - rewrite Hinf in Hz. discriminate Hz.
  - split; assumption.
Qed.

(** A division does not overflow when the exact quotient is within the
    format. *)
Theorem SFdiv_finite (x y : spec_float) :
  (2 <= emax)%Z ->
  SF_finite x = true ->
  B2R y <> 0 ->
  Rabs (B2R x / B2R y) + bpow (1 - prec) * Rabs (B2R x / B2R y) + bpow (emin prec emax)
  < bpow emax ->
  SF_finite (SFdiv prec emax x y) = true.
Proof using prec_pos.
  intros Hemax Hx Hy Hsmall.
  destruct (SFdiv_cases x y Hx Hy) as [[_ Hbig] | (Hfin & _)].
  - specialize (Hbig Hemax). lra.
  - exact Hfin.
Qed.

End Format.

End Quotient.

(** ** The four bytes of a float32 *)

Module Storage.

Local Unset Implicit Arguments.

Import IEEE Digits.
Local Open Scope Z_scope.

Lemma Z_of_byte_of_Z (z : Z) : Z_of_byte (byte_of_Z z) = z mod 256.
Proof.
  unfold Z_of_byte, byte_of_Z, Py.byte_of_N.
  pose proof (Z.mod_pos_bound z 256 ltac:(lia)) as Hb.
  assert (Hn : (Z.to_N (z mod 256) mod 256 = Z.to_N (z mod 256))%N).
  { apply N.mod_small. lia. }
  rewrite Hn.
  destruct (Byte.of_N (Z.to_N (z mod 256))) as [b |] eqn:E.
  - rewrite (@Byte.to_of_N _ _ E). lia.
  - apply Byte.of_N_None_iff in E. lia.
Qed.

(** The four bytes of a 32-bit pattern give the pattern back. *)
Lemma bits_of_b32_of_bits (z : Z) :
  0 <= z < 2 ^ 32 -> bits_of_b32 (b32_of_bits z) = z.
Proof.
  intros Hz. unfold bits_of_b32, b32_of_bits. cbn [byte0 byte1 byte2 byte3].
  rewrite !Z_of_byte_of_Z, !Z.shiftr_div_pow2 by lia.
  change (2 ^ 8) with 256. change (2 ^ 16) with 65536. change (2 ^ 24) with 16777216.
  change (2 ^ 32) with 4294967296 in Hz.
  Z.div_mod_to_equations. lia.
Qed.

(** A shifted field and a smaller number combine without carry. *)
Lemma lor_shiftl_add (x k y : Z) :
  0 <= k -> 0 <= y < 2 ^ k -> Z.lor (Z.shiftl x k) y = x * 2 ^ k + y.
Proof.
  intros Hk Hy.
  rewrite <- Z.shiftl_mul_pow2 by exact Hk.
  rewrite <- Z.lxor_lor, <- Z.add_nocarry_lxor; try reflexivity.
  all: apply Z.bits_inj'; intros n Hn; rewrite Z.land_spec, Z.bits_0;
    destruct (Z_lt_le_dec n k) as [Hlt | Hge];
    [rewrite Z.shiftl_spec_low by exact Hlt; reflexivity |
     rewrite <- (Z.mod_small y (2 ^ k)) by exact Hy;
     rewrite Z.mod_pow2_bits_high by lia; apply andb_false_r].
Qed.

(** The fields of a 32-bit pattern: sign, exponent, fraction. *)
Lemma SF_of_bits_fields (s : bool) (E f : Z) :
  0 <= E < 255 -> 0 <= f < 2 ^ 23 ->
  SF_of_bits 23 8 ((if s then 2 ^ 31 else 0) + E * 2 ^ 23 + f)
  = if E =? 0 then
      match f with
      | Zpos p => S754_finite s p (-149)
      | _ => S754_zero s
      end
    else
      match f + 2 ^ 23 with
      | Zpos p => S754_finite s p (E - 150)
      | _ => S754_nan
      end.
Proof.
  intros HE Hf.
  set (bits := (if s then 2 ^ 31 else 0) + E * 2 ^ 23 + f).
  assert (Hs : Z.testbit bits 31 = s).
  { rewrite Z.testbit_odd, Z.shiftr_div_pow2 by lia.
    assert (Hq : bits / 2 ^ 31 = if s then 1 else 0).
    { subst bits. change (2 ^ 31) with 2147483648. change (2 ^ 23) with 8388608 in *.
      destruct s; Z.div_mod_to_equations; lia. }
    rewrite Hq. destruct s; reflexivity. }
  assert (HEf : Z.land (Z.shiftr bits 23) (Z.ones 8) = E).
  { rewrite Z.land_ones, Z.shiftr_div_pow2 by lia.
    subst bits. change (2 ^ 31) with 2147483648. change (2 ^ 23) with 8388608 in *.
    change (2 ^ 8) with 256.
    destruct s; Z.div_mod_to_equations; lia. }
  assert (Hff : Z.land bits (Z.ones 23) = f).
  { rewrite Z.land_ones by lia.
    subst bits. change (2 ^ 31) with 2147483648. change (2 ^ 23) with 8388608 in *.
    destruct s; Z.div_mod_to_equations; lia. }
  assert (Hlor : Z.lor f (Z.shiftl 1 23) = f + 2 ^ 23).
  { rewrite Z.lor_comm, lor_shiftl_add by lia. lia. }
  unfold SF_of_bits. cbv zeta.
  change (23 + 8) with 31. rewrite Hs, HEf, Hff, Hlor.
  change (Z.ones 8) with 255. change (Z.ones (8 - 1)) with 127.
  change (1 - 127 - 23) with (-149).
  destruct (E =? 0) eqn:E0; [reflexivity |].
  assert (E255 : (E =? 255) = false) by (apply Z.eqb_neq; lia).
  rewrite E255.
  replace (E - 127 - 23) with (E - 150) by lia. reflexivity.
Qed.

(** The bit pattern of a finite float of the format, by fields. *)
Lemma bits_of_SF_finite (s : bool) (m : positive) (e : Z) :
  SpecFloat.bounded 24 128 m e = true ->
  exists E f,
    0 <= E < 255 /\ 0 <= f < 2 ^ 23
    /\ bits_of_SF 23 8 (S754_finite s m e) = (if s then 2 ^ 31 else 0) + E * 2 ^ 23 + f
    /\ (if E =? 0 then
          match f with
          | Zpos p => S754_finite s p (-149)
          | _ => S754_zero s
          end
        else
          match f + 2 ^ 23 with
          | Zpos p => S754_finite s p (E - 150)
          | _ => S754_nan
          end) = S754_finite s m e.
Proof.
  unfold SpecFloat.bounded, canonical_mantissa. intros Hb.
  apply andb_prop in Hb. destruct Hb as [Hcan Hmax].
  apply Z.eqb_eq in Hcan. apply Z.leb_le in Hmax.
  unfold fexp, emin in Hcan.
  pose proof (digits2_pos_bounds m) as [Dlo Dhi].
  set (d := Zpos (digits2_pos m)) in *.
  assert (Hd : 1 <= d) by (subst d; lia).
  assert (Hsgn : forall x, 0 <= x < 2 ^ 31 ->
            Z.lor (if s then Z.shiftl 1 (23 + 8) else 0) x = (if s then 2 ^ 31 else 0) + x).
  { intros x Hx. destruct s; [| reflexivity].
    change (23 + 8) with 31. rewrite lor_shiftl_add by lia. lia. }
  unfold bits_of_SF. cbv zeta. change (Z.shiftl 1 23) with (2 ^ 23).
  destruct (Zpos m <? 2 ^ 23) eqn:Hsub.
  - (* subnormal *)
    apply Z.ltb_lt in Hsub.
    assert (Hd23 : d <= 23).
    { destruct (Z_lt_le_dec 23 d) as [H | H]; [| exact H].
      assert (2 ^ 23 <= 2 ^ (d - 1)) by (apply Z.pow_le_mono_r; lia). lia. }
    assert (He : e = -149) by lia.
    exists 0, (Zpos m). split; [lia | split; [lia |]].
    split.
    + rewrite Hsgn by (change (2 ^ 23) with 8388608 in Hsub; change (2 ^ 31) with 2147483648; lia).
      lia.
    + cbn [Z.eqb]. rewrite He. reflexivity.
  - (* normal *)
    apply Z.ltb_ge in Hsub.
    assert (Hd24 : d = 24).
    { assert (24 <= d).
      { destruct (Z_lt_le_dec d 24) as [H | H]; [| exact H].
        assert (2 ^ d <= 2 ^ 23) by (apply Z.pow_le_mono_r; lia). lia. }
      lia. }
    rewrite Hd24 in Dhi.
    assert (He : -149 <= e <= 104) by lia.
    change (Z.ones (8 - 1)) with 127.
    rewrite Z.land_ones by lia.
    assert (Hmod : Zpos m mod 2 ^ 23 = Zpos m - 2 ^ 23).
    { change (2 ^ 23) with 8388608 in *. change (2 ^ 24) with 16777216 in *.
      Z.div_mod_to_equations. lia. }
    rewrite Hmod.
    rewrite (lor_shiftl_add (e + 127 + 23) 23 (Zpos m - 2 ^ 23))
      by (change (2 ^ 23) with 8388608 in *; change (2 ^ 24) with 16777216 in *; lia).
    exists (e + 150), (Zpos m - 2 ^ 23).
    split; [lia |].
    split; [change (2 ^ 23) with 8388608 in *; change (2 ^ 24) with 16777216 in *; lia |].
    split.
    + rewrite Hsgn.
      * replace (e + 127 + 23) with (e + 150) by lia. lia.
      * change (2 ^ 23) with 8388608 in *. change (2 ^ 24) with 16777216 in *.
        change (2 ^ 31) with 2147483648. lia.
    + assert (E0 : (e + 150 =? 0) = false) by (apply Z.eqb_neq; lia).
      rewrite E0.
      replace (Zpos m - 2 ^ 23 + 2 ^ 23) with (Zpos m) by lia.
      replace (e + 150 - 150) with e by lia. reflexivity.
Qed.

(** Storing a float of the format in four bytes and reading it back. *)
Lemma SF_of_b32_of_SF (z : spec_float) :
  valid_binary 24 128 z = true -> z <> S754_nan -> SF_of_b32 (b32_of_SF z) = z.
Proof.
  intros Hv Hn. destruct z as [s | s | | s m e].
  - destruct s; vm_compute; reflexivity.
  - destruct s; vm_compute; reflexivity.
  - contradiction Hn. reflexivity.
  - cbn [valid_binary] in Hv.
    destruct (bits_of_SF_finite s m e Hv) as (E & f & HE & Hf & Hbits & Hdec).
    unfold SF_of_b32, b32_of_SF. rewrite Hbits.
    rewrite bits_of_b32_of_bits.
    + rewrite SF_of_bits_fields by assumption. exact Hdec.
    + change (2 ^ 23) with 8388608 in *. change (2 ^ 31) with 2147483648.
      change (2 ^ 32) with 4294967296. destruct s; lia.
Qed.

End Storage.

(** ** Real vectors: the norm of a perturbed vector *)

Module Euclid.

Local Unset Implicit Arguments.

Import Exact Analysis.
Local Open Scope R_scope.

Lemma square_le (a b : R) : 0 <= b -> a * a <= b * b -> a <= b.
Proof.
  intros Hb H. destruct (Rle_or_lt a b) as [Hle | Hlt]; [exact Hle |].
  exfalso. nra.
Qed.

(** Cauchy-Schwarz, squared. *)
Lemma dot_squared (a b : list R) : dot a b * dot a b <= dot a a * dot b b.
Proof.
  revert b. induction a as [| x a IH]; intros [| y b]; cbn [dot]; try lra.
  specialize (IH b).
  pose proof (dot_self_nonneg a) as HA. pose proof (dot_self_nonneg b) as HB.
    set (s := dot a b) in *. set (A := dot a a) in *. set (B := dot b b) in *.
    assert (H2 : 2 * s * x * y <= A * (y * y) + B * (x * x)).
    { apply square_le; [nra |].
      pose proof (Rle_0_sqr (A * (y * y) - B * (x * x))) as Hsq. unfold Rsqr in Hsq.
      assert (0 <= x * x * (y * y)) by nra.
      assert (s * s * (x * x * (y * y)) <= A * B * (x * x * (y * y))) by nra.
      nra. }
    nra.
Qed.

Lemma dot_le_norms (a b : list R) : dot a b <= norm a * norm b.
Proof.
  apply square_le.
  - apply Rmult_le_pos; apply norm_nonneg.
  - pose proof (dot_squared a b) as H.
    pose proof (norm_sq a) as Ha. pose proof (norm_sq b) as Hb. nra.
Qed.

Lemma dot_abs (y : list R) : dot (map Rabs y) (map Rabs y) = dot y y.
Proof.
  induction y as [| x y IH]; cbn [map dot]; [reflexivity |].
  rewrite IH. f_equal. rewrite <- Rabs_mult. apply Rabs_pos_eq. nra.
Qed.

Lemma dot_ones (n : nat) : dot (repeat 1 n) (repeat 1 n) = INR n.
Proof.
  induction n as [| n IH]; [reflexivity |].
  cbn [repeat dot]. rewrite IH, S_INR. ring.
Qed.

(** The sum of the absolute values is at most the norm times the square
    root of the length. *)
Lemma sum_abs_le (y : list R) :
  dot (map Rabs y) (repeat 1 (List.length y)) <= norm y * sqrt (INR (List.length y)).
Proof.
  pose proof (dot_le_norms (map Rabs y) (repeat 1 (List.length y))) as H.
  unfold norm in *. rewrite dot_abs, dot_ones in H. exact H.
Qed.

(** An array each of whose components is within [u |y| + h] of the
    component [y] of another has a norm within [u ||y|| + h sqrt n] of the
    other's. *)
Lemma norm_perturbed (u h : R) (o y : list R) :
  0 <= u -> 0 <= h ->
  Forall2 (fun a b => Rabs (a - b) <= u * Rabs b + h) o y ->
  Rabs (norm o - norm y) <= u * norm y + h * sqrt (INR (List.length y)).
Proof.
  intros Hu Hh Hall.
  assert (E1 : dot o o - 2 * dot o y + dot y y
               <= u * u * dot y y
                  + 2 * u * h * dot (map Rabs y) (repeat 1 (List.length y))
                  + h * h * INR (List.length y)).
  { induction Hall as [| a b o y Hab _ IH].
    - cbn. lra.
    - cbn [dot map List.length repeat]. rewrite S_INR.
      assert (Hsq : (a - b) * (a - b) <= (u * Rabs b + h) * (u * Rabs b + h)).
      { pose proof (Rabs_pos (a - b)) as P.
        assert (E : Rabs (a - b) * Rabs (a - b) = (a - b) * (a - b)).
        { rewrite <- Rabs_mult. apply Rabs_pos_eq.
          pose proof (Rle_0_sqr (a - b)) as Q. unfold Rsqr in Q. exact Q. }
        rewrite <- E.
        assert (Hb0 : 0 <= u * Rabs b + h).
        { apply Rplus_le_le_0_compat; [apply Rmult_le_pos; [exact Hu | apply Rabs_pos] | exact Hh]. }
        apply Rmult_le_compat; assumption. }
      assert (Hb2 : Rabs b * Rabs b = b * b).
      { rewrite <- Rabs_mult. apply Rabs_pos_eq.
        pose proof (Rle_0_sqr b) as Q. unfold Rsqr in Q. exact Q. }
      assert (Hsq' : a * a - 2 * a * b + b * b
                     <= u * u * (b * b) + 2 * u * h * Rabs b + h * h).
      { apply Rle_trans with ((a - b) * (a - b)); [right; ring |].
        apply Rle_trans with ((u * Rabs b + h) * (u * Rabs b + h)); [exact Hsq |].
        right. rewrite <- Hb2. ring. }
      clear Hsq Hb2 Hab.
      set (S' := dot (map Rabs y) (repeat 1 (List.length y))) in *.
      set (oo := dot o o) in *. set (oy := dot o y) in *. set (yy := dot y y) in *.
      set (n := INR (List.length y)) in *. set (rb := Rabs b) in *.
      assert (E : u * u * (b * b + yy) + 2 * u * h * (rb * 1 + S') + h * h * (n + 1)
                  = (u * u * yy + 2 * u * h * S' + h * h * n)
                    + (u * u * (b * b) + 2 * u * h * rb + h * h)) by ring.
      rewrite E. lra. }
  pose proof (sum_abs_le y) as E2.
  pose proof (dot_le_norms o y) as CS.
  pose proof (norm_sq o) as No. pose proof (norm_sq y) as Ny.
  pose proof (norm_nonneg o) as Po. pose proof (norm_nonneg y) as Py.
  set (r := sqrt (INR (List.length y))) in *.
  assert (Hr : 0 <= r) by apply sqrt_pos.
  assert (Hrr : r * r = INR (List.length y)) by (apply sqrt_sqrt, pos_INR).
  set (S := dot (map Rabs y) (repeat 1 (List.length y))) in *.
  assert (Hbound : 0 <= u * norm y + h * r).
  { apply Rplus_le_le_0_compat; apply Rmult_le_pos; assumption. }
  assert (HS : 2 * u * h * S <= 2 * u * h * (norm y * r)).
  { apply Rmult_le_compat_l; [| exact E2].
    apply Rmult_le_pos; [lra | exact Hh]. }
  assert (Hsq : (norm o - norm y) * (norm o - norm y)
                <= (u * norm y + h * r) * (u * norm y + h * r)).
  { nra. }
  unfold Rabs. destruct (Rcase_abs (norm o - norm y)).
  - apply square_le; [exact Hbound | nra].
  - apply square_le; [exact Hbound | exact Hsq].
Qed.

End Euclid.

(** ** The normalizer, component by component *)

Module Normalizer.

Local Unset Implicit Arguments.

Import IEEE Kernels Float32 Bpow Quotient Storage Euclid.
Import Exact Analysis.

Local Open Scope R_scope.

(** [IEEE.numpy] and [IEEE.buffer] are the instances at the kernels of
    [IEEE]. *)
Lemma numpy_with_IEEE :
  IEEE.numpy
  = numpy_with (linalg_norm (Numpy := IEEE.numpy)) (dot_kernel (Numpy := IEEE.numpy))
  /\ f32_to_bytes (NumpyBuffer := IEEE.buffer)
     = f32_to_bytes (NumpyBuffer := buffer_with (linalg_norm (Numpy := IEEE.numpy))
                                               (dot_kernel (Numpy := IEEE.numpy))).
Proof. split; reflexivity. Qed.

Lemma isfinite_SF_finite (x : binary32) : isfinite x = SF_finite (SF_of_b32 x).
Proof. reflexivity. Qed.

(** A stored float that reads back as a number was a number. *)
Lemma SF_finite_stored (z : spec_float) :
  SF_finite (SF_of_b32 (b32_of_SF z)) = true -> SF_finite z = true.
Proof.
  destruct z as [s | s | | s m e]; try reflexivity.
  - destruct s; vm_compute; intros H; exact H.
  - vm_compute. intros H; exact H.
Qed.

(** The error of one float32 division, on stored values. *)
Lemma f32_div_error (x n : binary32) :
  isfinite x = true ->
  value32 n <> 0 ->
  isfinite (lift2 (SFdiv 24 128) x n) = true ->
  Rabs (value32 (lift2 (SFdiv 24 128) x n) - value32 x / value32 n)
  <= bpow (-23) * Rabs (value32 x / value32 n) + bpow (-149).
Proof.
  intros Hx Hn Hy. unfold lift2 in *. rewrite isfinite_SF_finite in Hx, Hy.
  apply SF_finite_stored in Hy.
  destruct (SFdiv_error 24 128 ltac:(lia) (SF_of_b32 x) (SF_of_b32 n) Hx Hn Hy)
    as [Hvalid Herr].
  unfold value32 at 1. rewrite SF_of_b32_of_SF.
  - exact Herr.
  - exact Hvalid.
  - intros E. rewrite E in Hy. discriminate Hy.
Qed.

Section Kernel.

Variable norm_kernel : list binary32 -> binary32.
Variable dot_k : list binary32 -> list binary32 -> binary32.

Abbreviation np32 := (numpy_with norm_kernel dot_k).

(** Every component of the normalizer's output is the component of the
    input divided by the divisor, up to one rounding. *)
Lemma normalize_components (v : list binary32) :
  value32 (divisor (np := np32) v) <> 0 ->
  Forall (fun x => isfinite x = true) v ->
  Forall (fun y => isfinite y = true) (normalize (np := np32) v) ->
  Forall2 (fun y x =>
             Rabs (value32 y - value32 x / value32 (divisor (np := np32) v))
             <= bpow (-23) * Rabs (value32 x / value32 (divisor (np := np32) v))
                + bpow (-149))
          (normalize (np := np32) v) v.
Proof.
  intros HM.
  change (normalize (np := np32) v)
    with (map (fun x => lift2 (SFdiv 24 128) x (divisor (np := np32) v)) v).
  set (n := divisor (np := np32) v) in *. clearbody n.
  induction v as [| x v IH]; intros Hv Ho; cbn [map]; [constructor |].
  inversion Hv as [| ? ? Hx Hv']; subst. cbn [map] in Ho.
  inversion Ho as [| ? ? Hy Ho']; subst.
  constructor; [| apply IH; assumption].
  apply f32_div_error; assumption.
Qed.

Lemma Forall2_values (P : R -> R -> Prop) (f : R -> R) (o v : list binary32) :
  Forall2 (fun y x => P (value32 y) (f (value32 x))) o v ->
  Forall2 P (values o) (map f (values v)).
Proof.
  induction 1 as [| y x o v H _ IH]; cbn [values map]; constructor; assumption.
Qed.

(** The L2 norm of the normalizer's output, for every float32 array of
    numbers and every kernel of [np.linalg.norm]: with [M] the divisor
    that is computed, it is [||v|| / M] up to one rounding of each
    quotient. *)
Lemma normalize_norm_bound (v : list binary32) :
  0 < value32 (divisor (np := np32) v) ->
  Forall (fun x => isfinite x = true) v ->
  Forall (fun y => isfinite y = true) (normalize (np := np32) v) ->
  Rabs (norm (values (normalize (np := np32) v))
        - norm (values v) / value32 (divisor (np := np32) v))
  <= bpow (-23) * (norm (values v) / value32 (divisor (np := np32) v))
     + bpow (-149) * sqrt (INR (List.length v)).
Proof.
  intros HM Hv Ho.
  set (M := value32 (divisor (np := np32) v)) in *.
  assert (HM0 : M <> 0) by lra.
  pose proof (normalize_components v HM0 Hv Ho) as Hc. fold M in Hc.
  pose proof (@Forall2_values
                (fun a b => Rabs (a - b) <= bpow (-23) * Rabs b + bpow (-149))
                (fun a => a / M) _ _ Hc) as Hall.
  pose proof (bpow_pos (-23)) as P1. pose proof (bpow_pos (-149)) as P2.
  pose proof (@norm_perturbed (bpow (-23)) (bpow (-149)) _ _
                ltac:(lra) ltac:(lra) Hall) as Hn.
  rewrite (norm_scale (values v) HM) in Hn.
  rewrite length_map in Hn.
  change (List.length (values v)) with (List.length (map value32 v)) in Hn.
  rewrite length_map in Hn. exact Hn.
Qed.

End Kernel.

End Normalizer.

(** ** Binary floats: the error of an addition and of a subtraction *)

Module Sum.

Local Unset Implicit Arguments.

Import Digits Shift Round Bpow Division Quotient.

Section Format.

Variables prec emax : Z.
Hypothesis prec_pos : (0 < prec)%Z.

Local Open Scope Z_scope.

Lemma iter_xO (m d : positive) : Zpos (Pos.iter xO m d) = Zpos m * 2 ^ Zpos d.
Proof.
  induction d as [| d IH] using Pos.peano_ind.
  - cbn [Pos.iter]. change (Z.pos m~0) with (2 * Z.pos m). change (2 ^ 1) with 2. ring.
  - rewrite Pos.iter_succ. change (Z.pos (Pos.iter xO m d)~0) with (2 * Z.pos (Pos.iter xO m d)).
    rewrite IH, Pos2Z.inj_succ, Z.pow_succ_r by lia. ring.
Qed.

(** [shl_align] keeps the value and lowers the exponent to the one asked
    for, when that is lower. *)
Lemma shl_align_spec (mx : positive) (ex ex' : Z) :
  exists k,
    0 <= k
    /\ Zpos (fst (shl_align mx ex ex')) = Zpos mx * 2 ^ k
    /\ snd (shl_align mx ex ex') = ex - k
    /\ (ex' <= ex -> k = ex - ex')
    /\ (ex <= ex' -> k = 0).
Proof.
  unfold shl_align. destruct (ex' - ex) as [| d | d] eqn:E.
  - exists 0. cbn [fst snd]. rewrite Z.pow_0_r. repeat split; lia.
  - exists 0. cbn [fst snd]. rewrite Z.pow_0_r. repeat split; lia.
  - exists (Zpos d). cbn [fst snd]. rewrite iter_xO. repeat split; lia.
Qed.

Lemma Zdigits2_mul_pow2 (m k : Z) :
  0 < m -> 0 <= k -> Zdigits2 (m * 2 ^ k) = Zdigits2 m + k.
Proof.
  intros Hm Hk. pose proof (Zdigits2_bounds m Hm) as [Blo Bhi].
  pose proof (Zdigits2_nonneg m) as Hd.
  assert (Hp : 0 < 2 ^ k) by (apply Z.pow_pos_nonneg; lia).
  assert (Hd1 : 1 <= Zdigits2 m).
  { destruct m; try lia. cbn. lia. }
  apply Zdigits2_unique; [nia |]. split.
  - replace (Zdigits2 m + k - 1) with (Zdigits2 m - 1 + k) by lia.
    rewrite Z.pow_add_r by lia. nia.
  - rewrite Z.pow_add_r by lia. nia.
Qed.

Local Open Scope R_scope.

(** The error of rounding [mx * 2^ex] to the format. *)
Lemma binary_round_error (s : bool) (mx : positive) (ex : Z) :
  let z := binary_round prec emax s mx ex in
  let t := IZR (Zpos mx) * bpow ex in
  (z = S754_infinity s
   /\ ((2 <= emax)%Z -> bpow emax <= t + bpow (1 - prec) * t + bpow (emin prec emax))
   \/ z = S754_zero s /\ Rabs (0 - t) <= bpow (1 - prec) * t + bpow (emin prec emax)
   \/ exists m e,
       z = S754_finite s m e
       /\ SpecFloat.bounded prec emax m e = true
       /\ Rabs (IZR (Zpos m) * bpow e - t)
          <= bpow (1 - prec) * t + bpow (emin prec emax)).
Proof using prec_pos.
  intros z t. subst z. unfold binary_round.
  destruct (shl_align_spec mx ex (fexp prec emax (Zpos (digits2_pos mx) + ex)))
    as (k & Hk & Hm & He & Hlow & Hhigh).
  destruct (shl_align mx ex (fexp prec emax (Zpos (digits2_pos mx) + ex))) as [mz ez].
  cbn [fst snd] in Hm, He.
  assert (Hdig : (Zdigits2 (Zpos mz) = Zpos (digits2_pos mx) + k)%Z).
  { rewrite Hm. apply (Zdigits2_mul_pow2 (Zpos mx) k); lia. }
  assert (Henough : (ez <= fexp prec emax (Zdigits2 (Zpos mz) + ez))%Z).
  { rewrite Hdig, He.
    replace (Zpos (digits2_pos mx) + k + (ex - k))%Z with (Zpos (digits2_pos mx) + ex)%Z by lia.
    destruct (Z_le_gt_dec (fexp prec emax (Zpos (digits2_pos mx) + ex)) ex) as [H | H].
    - rewrite (Hlow H). lia.
    - rewrite (Hhigh ltac:(lia)). lia. }
  assert (Et : t = IZR (Zpos mz) * bpow ez).
  { subst t. rewrite Hm, He.
    rewrite bpow_shift by exact Hk. f_equal. f_equal. lia. }
  rewrite Et.
  apply (binary_round_aux_error prec emax prec_pos s (Zpos mz) ez loc_Exact).
  - lia.
  - exact Henough.
  - pose proof (bpow_pos ez). split; [lra | nra].
Qed.

(** The error of normalizing the integer [m] times [2^e]. *)
Lemma binary_normalize_error (m e : Z) (szero : bool) :
  let z := binary_normalize prec emax m e szero in
  let t := IZR m * bpow e in
  ((exists s, z = S754_infinity s)
   /\ ((2 <= emax)%Z ->
       bpow emax <= Rabs t + bpow (1 - prec) * Rabs t + bpow (emin prec emax)))
  \/ (SF_finite z = true
      /\ valid_binary prec emax z = true
      /\ Rabs (B2R z - t) <= bpow (1 - prec) * Rabs t + bpow (emin prec emax)).
Proof using prec_pos.
  intros z t. subst z.
  pose proof (bpow_pos (1 - prec)) as P1. pose proof (bpow_pos (emin prec emax)) as P2.
  pose proof (bpow_pos e) as Pe.
  destruct m as [| p | p]; cbn [binary_normalize].
  - right. cbn [SF_finite valid_binary B2R]. split; [reflexivity | split; [reflexivity |]].
    subst t. rewrite Rmult_0_l, Rminus_0_r, Rabs_R0. lra.
  - assert (Ht : 0 <= t).
    { subst t. apply Rmult_le_pos; [apply IZR_le; lia | lra]. }
    rewrite (Rabs_pos_eq t Ht).
    destruct (binary_round_error false p e)
      as [[H Hbig] | [[H Herr] | (m & e2 & H & Hb & Herr)]]; rewrite H.
    + left. split; [eexists; reflexivity | exact Hbig].
    + right. cbn [SF_finite valid_binary B2R].
      split; [reflexivity | split; [reflexivity | exact Herr]].
    + right. cbn [SF_finite valid_binary B2R].
      split; [reflexivity | split; [exact Hb |]].
      rewrite Rmult_1_l. exact Herr.
  - set (t' := IZR (Zpos p) * bpow e).
    assert (Ett : t = - t').
    { subst t t'. change (Zneg p) with (- Zpos p)%Z. rewrite opp_IZR. ring. }
    assert (Ht : 0 <= t').
    { subst t'. apply Rmult_le_pos; [apply IZR_le; lia | lra]. }
    rewrite Ett, Rabs_Ropp, (Rabs_pos_eq t' Ht).
    destruct (binary_round_error true p e)
      as [[H Hbig] | [[H Herr] | (m & e2 & H & Hb & Herr)]]; rewrite H.
    + left. split; [eexists; reflexivity | exact Hbig].
    + right. cbn [SF_finite valid_binary B2R].
      split; [reflexivity | split; [reflexivity |]].
      fold t' in Herr.
      replace (0 - - t') with t' by ring.
      rewrite Rminus_0_l, Rabs_Ropp in Herr. exact Herr.
    + right. cbn [SF_finite valid_binary B2R].
      split; [reflexivity | split; [exact Hb |]].
      fold t' in Herr.
      replace (-1 * (IZR (Zpos m) * bpow e2) - - t')
        with (- (IZR (Zpos m) * bpow e2 - t')) by ring.
      rewrite Rabs_Ropp. exact Herr.
Qed.

(** The aligned mantissa of a finite float. *)
Lemma aligned_value (s : bool) (m : positive) (e ez : Z) :
  (ez <= e)%Z ->
  IZR (cond_Zopp s (Zpos (fst (shl_align m e ez)))) * bpow ez
  = B2R (S754_finite s m e).
Proof.
  intros Hle.
  destruct (shl_align_spec m e ez) as (k & Hk & Hm & _ & Hlow & _).
  rewrite Hm. specialize (Hlow Hle). cbn [B2R].
  assert (E : IZR (Zpos m * 2 ^ k) * bpow ez = IZR (Zpos m) * bpow e).
  { rewrite bpow_shift by exact Hk. f_equal. f_equal. lia. }
  destruct s; cbn [cond_Zopp].
  - rewrite opp_IZR. rewrite <- E. ring.
  - rewrite <- E. ring.
Qed.

(** What an addition of two numbers returns: an infinity, only when the
    sum is beyond the format, or a float of the format within one
    rounding of the exact sum.  The same for a subtraction. *)
Lemma SFadd_cases (x y : spec_float) :
  SF_finite x = true -> SF_finite y = true ->
  valid_binary prec emax x = true -> valid_binary prec emax y = true ->
  ((exists s, SFadd prec emax x y = S754_infinity s)
   /\ ((2 <= emax)%Z ->
       bpow emax <= Rabs (B2R x + B2R y) + bpow (1 - prec) * Rabs (B2R x + B2R y)
                    + bpow (emin prec emax)))
  \/ (SF_finite (SFadd prec emax x y) = true
      /\ valid_binary prec emax (SFadd prec emax x y) = true
      /\ Rabs (B2R (SFadd prec emax x y) - (B2R x + B2R y))
         <= bpow (1 - prec) * Rabs (B2R x + B2R y) + bpow (emin prec emax)).
Proof using prec_pos.
  intros Hx Hy Vx Vy.
  pose proof (bpow_pos (1 - prec)) as P1. pose proof (bpow_pos (emin prec emax)) as P2.
  assert (Hexact : forall a b : R, a = b ->
            Rabs (a - b) <= bpow (1 - prec) * Rabs b + bpow (emin prec emax)).
  { intros a b ->. rewrite Rminus_diag, Rabs_R0.
    pose proof (Rabs_pos b). nra. }
  destruct x as [sx | sx | | sx mx ex]; try discriminate Hx;
    destruct y as [sy | sy | | sy my ey]; try discriminate Hy.
  - right. cbn [SFadd]. split; [destruct sx, sy; reflexivity | split].
    + destruct sx, sy; reflexivity.
    + apply Hexact. destruct sx, sy; cbn [B2R]; ring.
  - right. cbn [SFadd]. split; [reflexivity | split; [exact Vy |]].
    apply Hexact. cbn [B2R]. ring.
  - right. cbn [SFadd]. split; [reflexivity | split; [exact Vx |]].
    apply Hexact. cbn [B2R]. ring.
  - cbn [SFadd] in *.
    set (ez := Z.min ex ey) in *.
    set (a := cond_Zopp sx (Zpos (fst (shl_align mx ex ez)))) in *.
    set (b := cond_Zopp sy (Zpos (fst (shl_align my ey ez)))) in *.
    assert (Et : IZR (a + b) * bpow ez
                 = B2R (S754_finite sx mx ex) + B2R (S754_finite sy my ey)).
    { rewrite plus_IZR, Rmult_plus_distr_r. subst a b.
      rewrite !aligned_value by (subst ez; lia). reflexivity. }
    destruct (binary_normalize_error (a + b) ez false) as [[Hinf Hbig] | Hfin];
      rewrite Et in *; [left | right]; [split |]; assumption.
Qed.

(** The error of an addition whose result is a number. *)
Theorem SFadd_error (x y : spec_float) :
  SF_finite x = true -> SF_finite y = true ->
  valid_binary prec emax x = true -> valid_binary prec emax y = true ->
  SF_finite (SFadd prec emax x y) = true ->
  valid_binary prec emax (SFadd prec emax x y) = true
  /\ Rabs (B2R (SFadd prec emax x y) - (B2R x + B2R y))
     <= bpow (1 - prec) * Rabs (B2R x + B2R y) + bpow (emin prec emax).
Proof using prec_pos.
  intros Hx Hy Vx Vy Hz.
  destruct (SFadd_cases x y Hx Hy Vx Vy) as [[[s Hinf] _] | (_ & Hv & Herr)].
  - rewrite Hinf in Hz. discriminate Hz.
  - split; assumption.
Qed.

(** There is no overflow when the exact result is within the format. *)
Theorem SFadd_finite (x y : spec_float) :
  (2 <= emax)%Z ->
  SF_finite x = true -> SF_finite y = true ->
  valid_binary prec emax x = true -> valid_binary prec emax y = true ->
  Rabs (B2R x + B2R y) + bpow (1 - prec) * Rabs (B2R x + B2R y)
  + bpow (emin prec emax) < bpow emax ->
  SF_finite (SFadd prec emax x y) = true.
Proof using prec_pos.
  intros Hemax Hx Hy Vx Vy Hsmall.
  destruct (SFadd_cases x y Hx Hy Vx Vy) as [[_ Hbig] | (Hfin & _)].
  - specialize (Hbig Hemax). lra.
  - exact Hfin.
Qed.

Lemma SFsub_cases (x y : spec_float) :
  SF_finite x = true -> SF_finite y = true ->
  valid_binary prec emax x = true -> valid_binary prec emax y = true ->
  ((exists s, SFsub prec emax x y = S754_infinity s)
   /\ ((2 <= emax)%Z ->
       bpow emax <= Rabs (B2R x - B2R y) + bpow (1 - prec) * Rabs (B2R x - B2R y)
                    + bpow (emin prec emax)))
  \/ (SF_finite (SFsub prec emax x y) = true
      /\ valid_binary prec emax (SFsub prec emax x y) = true
      /\ Rabs (B2R (SFsub prec emax x y) - (B2R x - B2R y))
         <= bpow (1 - prec) * Rabs (B2R x - B2R y) + bpow (emin prec emax)).
Proof using prec_pos.
  intros Hx Hy Vx Vy.
  pose proof (bpow_pos (1 - prec)) as P1. pose proof (bpow_pos (emin prec emax)) as P2.
  assert (Hexact : forall a b : R, a = b ->
            Rabs (a - b) <= bpow (1 - prec) * Rabs b + bpow (emin prec emax)).
  { intros a b ->. rewrite Rminus_diag, Rabs_R0.
    pose proof (Rabs_pos b). nra. }
  destruct x as [sx | sx | | sx mx ex]; try discriminate Hx;
    destruct y as [sy | sy | | sy my ey]; try discriminate Hy.
  - right. cbn [SFsub]. split; [destruct sx, sy; reflexivity | split].
    + destruct sx, sy; reflexivity.
    + apply Hexact. destruct sx, sy; cbn [B2R]; ring.
  - right. cbn [SFsub]. split; [reflexivity | split; [exact Vy |]].
    apply Hexact. cbn [B2R]. destruct sy; cbn [negb]; ring.
  - right. cbn [SFsub]. split; [reflexivity | split; [exact Vx |]].
    apply Hexact. cbn [B2R]. ring.
  - cbn [SFsub] in *.
    set (ez := Z.min ex ey) in *.
    set (a := cond_Zopp sx (Zpos (fst (shl_align mx ex ez)))) in *.
    set (b := cond_Zopp sy (Zpos (fst (shl_align my ey ez)))) in *.
    assert (Et : IZR (a - b) * bpow ez
                 = B2R (S754_finite sx mx ex) - B2R (S754_finite sy my ey)).
    { rewrite minus_IZR, Rmult_minus_distr_r. subst a b.
      rewrite !aligned_value by (subst ez; lia). reflexivity. }
    destruct (binary_normalize_error (a - b) ez false) as [[Hinf Hbig] | Hfin];
      rewrite Et in *; [left | right]; [split |]; assumption.
Qed.

(** The error of a subtraction whose result is a number. *)
Theorem SFsub_error (x y : spec_float) :
  SF_finite x = true -> SF_finite y = true ->
  valid_binary prec emax x = true -> valid_binary prec emax y = true ->
  SF_finite (SFsub prec emax x y) = true ->
  valid_binary prec emax (SFsub prec emax x y) = true
  /\ Rabs (B2R (SFsub prec emax x y) - (B2R x - B2R y))
     <= bpow (1 - prec) * Rabs (B2R x - B2R y) + bpow (emin prec emax).
Proof using prec_pos.
  intros Hx Hy Vx Vy Hz.
  destruct (SFsub_cases x y Hx Hy Vx Vy) as [[[s Hinf] _] | (_ & Hv & Herr)].
  - rewrite Hinf in Hz. discriminate Hz.
  - split; assumption.
Qed.

(** There is no overflow when the exact result is within the format. *)
Theorem SFsub_finite (x y : spec_float) :
  (2 <= emax)%Z ->
  SF_finite x = true -> SF_finite y = true ->
  valid_binary prec emax x = true -> valid_binary prec emax y = true ->
  Rabs (B2R x - B2R y) + bpow (1 - prec) * Rabs (B2R x - B2R y)
  + bpow (emin prec emax) < bpow emax ->
  SF_finite (SFsub prec emax x y) = true.
Proof using prec_pos.
  intros Hemax Hx Hy Vx Vy Hsmall.
  destruct (SFsub_cases x y Hx Hy Vx Vy) as [[_ Hbig] | (Hfin & _)].
  - specialize (Hbig Hemax). lra.
  - exact Hfin.
Qed.

End Format.

End Sum.

(** ** Binary floats: decoded values, widening and comparison *)

Module Decoded.

Local Unset Implicit Arguments.

Import IEEE Digits Shift Round Bpow Storage Sum.

Local Open Scope Z_scope.

Lemma digits_below (p : positive) (k : Z) :
  Zpos p < 2 ^ k -> Zpos (digits2_pos p) <= k.
Proof.
  intros Hp. pose proof (digits2_pos_bounds p) as [Dlo _].
  destruct (Z_lt_le_dec k (Zpos (digits2_pos p))) as [H | H]; [| exact H].
  destruct (Z_lt_le_dec k 0) as [Hk | Hk].
  - rewrite Z.pow_neg_r in Hp by exact Hk. lia.
  - assert (2 ^ k <= 2 ^ (Zpos (digits2_pos p) - 1)) by (apply Z.pow_le_mono_r; lia).
    lia.
Qed.

Lemma digits_exact (p : positive) (k : Z) :
  2 ^ (k - 1) <= Zpos p < 2 ^ k -> Zpos (digits2_pos p) = k.
Proof.
  intros [Hlo Hhi]. pose proof (digits2_pos_bounds p) as [Dlo Dhi].
  pose proof (digits_below p k Hhi) as Hle.
  destruct (Z_lt_le_dec (Zpos (digits2_pos p)) k) as [H | H]; [| lia].
  assert (2 ^ Zpos (digits2_pos p) <= 2 ^ (k - 1)) by (apply Z.pow_le_mono_r; lia).
  lia.
Qed.

(** Every bit pattern stands for a float of the binary32 format. *)
Lemma SF_of_b32_valid (x : binary32) : valid_binary 24 128 (SF_of_b32 x) = true.
Proof.
  unfold SF_of_b32, SF_of_bits. cbv zeta.
  generalize (bits_of_b32 x). intros bits.
  generalize (Z.testbit bits (23 + 8)). intros s.
  change (Z.ones 8) with 255. change (Z.ones (8 - 1)) with 127.
  assert (Hm : 0 <= Z.land bits (Z.ones 23) < 2 ^ 23).
  { rewrite Z.land_ones by lia. apply Z.mod_pos_bound. lia. }
  assert (He : 0 <= Z.land (Z.shiftr bits 23) 255 < 256).
  { change 255 with (Z.ones 8). rewrite Z.land_ones by lia. apply Z.mod_pos_bound. lia. }
  set (m := Z.land bits (Z.ones 23)) in *.
  set (e := Z.land (Z.shiftr bits 23) 255) in *.
  clearbody m e. clear bits.
  destruct (e =? 0) eqn:E0.
  - destruct m as [| p | p]; try reflexivity.
    cbn [valid_binary]. unfold SpecFloat.bounded, canonical_mantissa.
    pose proof (digits_below p 23 ltac:(lia)) as Hd.
    pose proof (digits2_pos_bounds p) as [_ _].
    apply andb_true_intro. split; [apply Z.eqb_eq | apply Z.leb_le; lia].
    unfold fexp, emin. lia.
  - destruct (e =? 255) eqn:E255.
    + destruct (m =? 0); reflexivity.
    + apply Z.eqb_neq in E0, E255.
      rewrite Z.lor_comm, lor_shiftl_add by lia.
      destruct (1 * 2 ^ 23 + m) as [| p | p] eqn:Ep; try reflexivity.
      cbn [valid_binary]. unfold SpecFloat.bounded, canonical_mantissa.
      assert (Hd : Zpos (digits2_pos p) = 24).
      { apply digits_exact. rewrite <- Ep.
        change (2 ^ (24 - 1)) with 8388608. change (2 ^ 24) with 16777216.
        change (2 ^ 23) with 8388608 in *. lia. }
      rewrite Hd.
      apply andb_true_intro. split; [apply Z.eqb_eq | apply Z.leb_le; lia].
      unfold fexp, emin. lia.
Qed.

Section Format.

Variables prec emax : Z.
Hypothesis prec_pos : 0 < prec.

(** Rounding does nothing to a mantissa that has the exponent of the
    format. *)
Lemma binary_round_aux_exact (s : bool) (m : positive) (e : Z) :
  fexp prec emax (Zpos (digits2_pos m) + e) = e ->
  binary_round_aux prec emax s (Zpos m) e loc_Exact
  = if e <=? emax - prec then S754_finite s m e else S754_infinity s.
Proof.
  intros Hcan.
  unfold binary_round_aux, shr_fexp.
  change (Zdigits2 (Zpos m)) with (Zpos (digits2_pos m)).
  rewrite Hcan, Z.sub_diag. cbn [shr shr_record_of_loc shr_m loc_of_shr_record
                                   round_nearest_even].
  change (Zdigits2 (Zpos m)) with (Zpos (digits2_pos m)).
  rewrite Hcan, Z.sub_diag. cbn [shr shr_record_of_loc shr_m]. reflexivity.
Qed.

(** Rounding a number that needs no more digits than the format has. *)
Lemma binary_round_exact (s : bool) (m : positive) (e : Z) :
  fexp prec emax (Zpos (digits2_pos m) + e) <= e ->
  fexp prec emax (Zpos (digits2_pos m) + e) <= emax - prec ->
  exists m' e',
    binary_round prec emax s m e = S754_finite s m' e'
    /\ SpecFloat.bounded prec emax m' e' = true
    /\ e' <= e
    /\ Zpos m' = Zpos m * 2 ^ (e - e').
Proof using prec_pos.
  intros Hle Hmax. unfold binary_round.
  destruct (shl_align_spec m e (fexp prec emax (Zpos (digits2_pos m) + e)))
    as (k & Hk & Hm & He & Hlow & _).
  specialize (Hlow Hle).
  destruct (shl_align m e (fexp prec emax (Zpos (digits2_pos m) + e))) as [mz ez].
  cbn [fst snd] in Hm, He.
  assert (Hdig : Zpos (digits2_pos mz) = Zpos (digits2_pos m) + k).
  { change (Zdigits2 (Zpos mz) = Zdigits2 (Zpos m) + k).
    rewrite Hm. apply Zdigits2_mul_pow2; lia. }
  assert (Hez : ez = fexp prec emax (Zpos (digits2_pos m) + e)) by lia.
  assert (Hcan : fexp prec emax (Zpos (digits2_pos mz) + ez) = ez).
  { rewrite Hdig, He.
    replace (Zpos (digits2_pos m) + k + (e - k)) with (Zpos (digits2_pos m) + e) by lia.
    lia. }
  rewrite (binary_round_aux_exact s mz ez Hcan).
  assert (Hb : (ez <=? emax - prec) = true) by (apply Z.leb_le; lia).
  rewrite Hb. exists mz, ez.
  split; [reflexivity | split; [| split; [lia |]]].
  - unfold SpecFloat.bounded, canonical_mantissa. rewrite Hb, andb_true_r.
    apply Z.eqb_eq. exact Hcan.
  - rewrite Hm. f_equal. f_equal. lia.
Qed.

(** Two floats of the format with different exponents. *)
Lemma canonical_lt (m1 m2 : positive) (e1 e2 : Z) :
  SpecFloat.bounded prec emax m1 e1 = true ->
  SpecFloat.bounded prec emax m2 e2 = true ->
  e1 < e2 ->
  (IZR (Zpos m1) * bpow e1 < IZR (Zpos m2) * bpow e2)%R.
Proof using prec_pos.
  unfold SpecFloat.bounded, canonical_mantissa.
  intros H1 H2 Hlt.
  apply andb_prop in H1, H2. destruct H1 as [H1 _], H2 as [H2 _].
  apply Z.eqb_eq in H1, H2.
  pose proof (digits2_pos_bounds m1) as [_ D1].
  pose proof (digits2_pos_bounds m2) as [D2 _].
  set (d1 := Zpos (digits2_pos m1)) in *. set (d2 := Zpos (digits2_pos m2)) in *.
  assert (Hd1 : 1 <= d1) by (subst d1; lia).
  assert (Hd2 : 1 <= d2) by (subst d2; lia).
  assert (Hsum : d1 + e1 <= d2 - 1 + e2).
  { unfold fexp in H1, H2. lia. }
  pose proof (bpow_pos e1) as P1. pose proof (bpow_pos e2) as P2.
  apply Rlt_le_trans with (bpow d1 * bpow e1)%R.
  - apply Rmult_lt_compat_r; [exact P1 |].
    rewrite <- bpow_IZR by lia. apply IZR_lt. exact D1.
  - apply Rle_trans with (bpow (d2 - 1) * bpow e2)%R.
    + rewrite <- !bpow_add. apply bpow_le. lia.
    + apply Rmult_le_compat_r; [lra |].
      rewrite <- bpow_IZR by lia. apply IZR_le. exact D2.
Qed.

Local Open Scope R_scope.

(** The comparison of two numbers of the format is the comparison of
    their values. *)
Lemma SFcompare_B2R (x y : spec_float) :
  SF_finite x = true -> SF_finite y = true ->
  valid_binary prec emax x = true -> valid_binary prec emax y = true ->
  (SFcompare x y = Some Lt /\ B2R x < B2R y)
  \/ (SFcompare x y = Some Eq /\ B2R x = B2R y)
  \/ (SFcompare x y = Some Gt /\ B2R y < B2R x).
Proof using prec_pos.
  intros Hx Hy Vx Vy.
  assert (Hpos : forall (m : positive) (e : Z), 0 < IZR (Zpos m) * bpow e).
  { intros m e. apply Rmult_lt_0_compat; [apply IZR_lt; lia | apply bpow_pos]. }
  destruct x as [sx | sx | | sx mx ex]; try discriminate Hx;
    destruct y as [sy | sy | | sy my ey]; try discriminate Hy;
    cbn [SFcompare B2R valid_binary] in *.
  - right. left. split; reflexivity.
  - pose proof (Hpos my ey). destruct sy; [right; right | left]; split; try reflexivity; lra.
  - pose proof (Hpos mx ex). destruct sx; [left | right; right]; split; try reflexivity; lra.
  - pose proof (Hpos mx ex) as Px. pose proof (Hpos my ey) as Py.
    assert (Heq : ex = ey -> forall c,
              (Pos.compare_cont Eq mx my) = c ->
              match c with
              | Lt => IZR (Zpos mx) * bpow ex < IZR (Zpos my) * bpow ey
              | Eq => IZR (Zpos mx) * bpow ex = IZR (Zpos my) * bpow ey
              | Gt => IZR (Zpos my) * bpow ey < IZR (Zpos mx) * bpow ex
              end).
    { intros -> c <-. pose proof (bpow_pos ey) as Pe.
      change (Pos.compare_cont Eq mx my) with (Pos.compare mx my).
      destruct (Pos.compare_spec mx my) as [-> | H | H].
      - reflexivity.
      - apply Rmult_lt_compat_r; [exact Pe | apply IZR_lt; lia].
      - apply Rmult_lt_compat_r; [exact Pe | apply IZR_lt; lia]. }
    destruct sx, sy.
    + destruct (Z.compare_spec ex ey) as [E | E | E].
      * specialize (Heq E _ eq_refl).
        destruct (Pos.compare_cont Eq mx my); cbn [CompOpp];
          [right; left | right; right | left]; split; try reflexivity; lra.
      * pose proof (canonical_lt mx my ex ey Vx Vy E).
        right. right. split; [reflexivity | lra].
      * pose proof (canonical_lt my mx ey ex Vy Vx E).
        left. split; [reflexivity | lra].
    + left. split; [reflexivity | lra].
    + right. right. split; [reflexivity | lra].
    + destruct (Z.compare_spec ex ey) as [E | E | E].
      * specialize (Heq E _ eq_refl).
        destruct (Pos.compare_cont Eq mx my);
          [right; left | left | right; right]; split; try reflexivity; lra.
      * pose proof (canonical_lt mx my ex ey Vx Vy E).
        left. split; [reflexivity | lra].
      * pose proof (canonical_lt my mx ey ex Vy Vx E).
        right. right. split; [reflexivity | lra].
Qed.

Lemma SFltb_Rlt (x y : spec_float) :
  SF_finite x = true -> SF_finite y = true ->
  valid_binary prec emax x = true -> valid_binary prec emax y = true ->
  (SFltb x y = true <-> B2R x < B2R y).
Proof using prec_pos.
  intros Hx Hy Vx Vy. unfold SFltb.
  destruct (SFcompare_B2R x y Hx Hy Vx Vy) as [[-> H] | [[-> H] | [-> H]]];
    split; intros H'; try reflexivity; try discriminate; lra.
Qed.

Lemma SFleb_Rle (x y : spec_float) :
  SF_finite x = true -> SF_finite y = true ->
  valid_binary prec emax x = true -> valid_binary prec emax y = true ->
  (SFleb x y = true <-> B2R x <= B2R y).
Proof using prec_pos.
  intros Hx Hy Vx Vy. unfold SFleb.
  destruct (SFcompare_B2R x y Hx Hy Vx Vy) as [[-> H] | [[-> H] | [-> H]]];
    split; intros H'; try reflexivity; try discriminate; lra.
Qed.

End Format.

Local Open Scope R_scope.

(** [float(x)] of a float32 number is exact. *)
Lemma round64_exact (z : spec_float) :
  SF_finite z = true -> valid_binary 24 128 z = true ->
  SF_finite (round64 z) = true
  /\ valid_binary 53 1024 (round64 z) = true
  /\ B2R (round64 z) = B2R z.
Proof.
  intros Hz Hv. destruct z as [s | s | | s m e]; try discriminate Hz.
  - cbn [round64]. repeat split.
  - cbn [round64 valid_binary] in *.
    pose proof Hv as Hb. unfold SpecFloat.bounded, canonical_mantissa in Hb.
    apply andb_prop in Hb. destruct Hb as [Hcan Hmax].
    apply Z.eqb_eq in Hcan. apply Z.leb_le in Hmax.
    pose proof (digits2_pos_bounds m) as [_ _].
    assert (Hd : (1 <= Zpos (digits2_pos m))%Z) by lia.
    assert (Hrange : (Zpos (digits2_pos m) <= 24 /\ -149 <= e)%Z).
    { unfold fexp, emin in Hcan. lia. }
    destruct (binary_round_exact 53 1024 ltac:(lia) s m e)
      as (m' & e' & -> & Hb' & Hle & Hm').
    + unfold fexp, emin. lia.
    + unfold fexp, emin. lia.
    + cbn [SF_finite valid_binary B2R]. split; [reflexivity | split; [exact Hb' |]].
      f_equal. rewrite Hm'. rewrite bpow_shift by lia. f_equal. f_equal. lia.
Qed.

End Decoded.

(** ** Real vectors and the literals of the program *)

Module Vectors.

Local Unset Implicit Arguments.

Import Exact Analysis Euclid.
Local Open Scope R_scope.

Lemma Rabs_le_inv (a b : R) : Rabs a <= b -> - b <= a <= b.
Proof. unfold Rabs. destruct (Rcase_abs a); lra. Qed.

Lemma component_sq_le (a : R) (l : list R) : In a l -> a * a <= dot l l.
Proof.
  induction l as [| x l IH]; cbn [In dot]; [tauto |].
  pose proof (dot_self_nonneg l) as Hl.
  intros [-> | Hin]; [lra |].
  specialize (IH Hin). nra.
Qed.

(** No component is larger than the norm. *)
Lemma component_le_norm (a : R) (l : list R) : In a l -> Rabs a <= norm l.
Proof.
  intros Hin. apply square_le; [apply norm_nonneg |].
  rewrite norm_sq, <- Rabs_mult, Rabs_pos_eq by nra.
  apply component_sq_le, Hin.
Qed.

Lemma sqrt_between (lo hi x : R) :
  0 <= lo -> lo * lo <= x <= hi * hi -> 0 <= hi -> lo <= sqrt x <= hi.
Proof.
  intros Hlo [H1 H2] Hhi. split.
  - rewrite <- (sqrt_square lo Hlo). apply sqrt_le_1_alt. exact H1.
  - rewrite <- (sqrt_square hi Hhi). apply sqrt_le_1_alt. exact H2.
Qed.

Lemma dot_app_zeros (a : list R) (k : nat) :
  dot (a ++ repeat 0 k) (a ++ repeat 0 k) = dot a a.
Proof.
  induction a as [| x a IH]; cbn [app dot]; [apply dot_zeros | rewrite IH; reflexivity].
Qed.

(** The inner product with an array each of whose components is within
    [u |q| + h] of the component [q] of another. *)
Lemma dot_perturbed (u h : R) (p t q : list R) :
  0 <= u -> 0 <= h ->
  List.length p = List.length q ->
  Forall2 (fun a b => Rabs (a - b) <= u * Rabs b + h) t q ->
  Rabs (dot p t - dot p q)
  <= u * (norm p * norm q) + h * (norm p * sqrt (INR (List.length p))).
Proof.
  intros Hu Hh Hlen Hall.
  assert (E : Rabs (dot p t - dot p q)
              <= u * dot (map Rabs p) (map Rabs q)
                 + h * dot (map Rabs p) (repeat 1 (List.length p))).
  { revert p Hlen. induction Hall as [| a b t q Hab _ IH]; intros [| x p] Hlen;
      try discriminate Hlen.
    - cbn. rewrite Rminus_diag, Rabs_R0. lra.
    - cbn [dot map List.length repeat].
      injection Hlen as Hlen. specialize (IH p Hlen).
      replace (x * a + dot p t - (x * b + dot p q))
        with (x * (a - b) + (dot p t - dot p q)) by ring.
      eapply Rle_trans; [apply Rabs_triang |].
      rewrite Rabs_mult.
      assert (Rabs x * Rabs (a - b) <= Rabs x * (u * Rabs b + h)).
      { apply Rmult_le_compat_l; [apply Rabs_pos | exact Hab]. }
      set (A := dot (map Rabs p) (map Rabs q)) in *.
      set (B := dot (map Rabs p) (repeat 1 (List.length p))) in *.
      lra. }
  pose proof (dot_le_norms (map Rabs p) (map Rabs q)) as H1.
  unfold norm in H1 at 1 2. rewrite !dot_abs in H1. fold (norm p) (norm q) in H1.
  pose proof (sum_abs_le p) as H2.
  assert (u * dot (map Rabs p) (map Rabs q) <= u * (norm p * norm q))
    by (apply Rmult_le_compat_l; assumption).
  assert (h * dot (map Rabs p) (repeat 1 (List.length p))
          <= h * (norm p * sqrt (INR (List.length p))))
    by (apply Rmult_le_compat_l; assumption).
  lra.
Qed.

End Vectors.

Module Literals.

Local Unset Implicit Arguments.

Import IEEE Kernels Float32 Bpow.
Local Open Scope R_scope.

Lemma bpow_opp (k : Z) : bpow (- k) = / bpow k.
Proof.
  pose proof (bpow_pos k) as P.
  apply Rmult_eq_reg_r with (bpow k); [| lra].
  rewrite <- bpow_add, Z.add_opp_diag_l, bpow_0. field. lra.
Qed.

Lemma bpow_neg (p : positive) : bpow (Zneg p) = / IZR (2 ^ Zpos p).
Proof.
  change (Zneg p) with (- Zpos p)%Z. rewrite bpow_opp, bpow_IZR by lia. reflexivity.
Qed.

Lemma u32 : bpow (-23) = / 8388608.
Proof. exact (bpow_neg 23). Qed.

Lemma h32 : 0 < bpow (-149) <= / 1099511627776.
Proof.
  split; [apply bpow_pos |].
  apply Rle_trans with (bpow (-40)); [apply bpow_le; lia |].
  right. exact (bpow_neg 40).
Qed.

Lemma big32 : 16 <= bpow 128.
Proof.
  apply Rle_trans with (bpow 4); [| apply bpow_le; lia].
  right. rewrite <- (bpow_IZR 4) by lia. reflexivity.
Qed.

(** The float32 that [1e-9] becomes when it is added to a float32. *)
Lemma eps32_value : round32 (b64_lit 1 1000000000) = S754_finite false 9007199 (-53).
Proof. vm_compute. reflexivity. Qed.

Lemma eps32_bounds :
  0 < B2R (round32 (b64_lit 1 1000000000)) <= / 1000000000.
Proof.
  rewrite eps32_value. cbn [B2R]. rewrite (bpow_neg 53).
  change (2 ^ 53)%Z with 9007199254740992%Z. lra.
Qed.

Lemma one64 : b64_of_Z 1 = S754_finite false 4503599627370496 (-52).
Proof. vm_compute. reflexivity. Qed.

Lemma B2R_one64 : B2R (b64_of_Z 1) = 1.
Proof.
  rewrite one64. cbn [B2R]. rewrite (bpow_neg 52).
  change (2 ^ 52)%Z with 4503599627370496%Z. field.
Qed.

Lemma B2R_999 : B2R (b64_of_Z 999) = 999.
Proof.
  assert (E : b64_of_Z 999 = S754_finite false 8787296929185792 (-43)).
  { vm_compute. reflexivity. }
  rewrite E. cbn [B2R]. rewrite (bpow_neg 43).
  change (2 ^ 43)%Z with 8796093022208%Z. field.
Qed.

End Literals.

(** ** The float32 operations of the normalizer *)

Module Steps.

Local Unset Implicit Arguments.

Import IEEE Kernels Float32 Bpow Quotient Storage Sum Decoded Normalizer Literals.
Local Open Scope R_scope.

(** A number of the format is stored as it is. *)
Lemma stored_value (z : spec_float) :
  SF_finite z = true -> valid_binary 24 128 z = true ->
  isfinite (b32_of_SF z) = true /\ value32 (b32_of_SF z) = B2R z.
Proof.
  intros Hf Hv.
  assert (E : SF_of_b32 (b32_of_SF z) = z).
  { apply SF_of_b32_of_SF; [exact Hv | intros ->; discriminate Hf]. }
  unfold value32. rewrite isfinite_SF_finite, E. split; [exact Hf | reflexivity].
Qed.

Lemma value32_finite (x : binary32) : value32 x <> 0 -> isfinite x = true.
Proof.
  intros H. rewrite isfinite_SF_finite.
  destruct (B2R_nonzero_finite (SF_of_b32 x) H) as (s & m & e & ->). reflexivity.
Qed.

(** A float32 division does not overflow when the quotient is small. *)
Lemma f32_div_finite (x n : binary32) :
  isfinite x = true -> value32 n <> 0 ->
  Rabs (value32 x / value32 n) <= 4 ->
  isfinite (lift2 (SFdiv 24 128) x n) = true.
Proof.
  intros Hx Hn Hq. unfold lift2. rewrite isfinite_SF_finite in Hx.
  assert (Hfin : SF_finite (SFdiv 24 128 (SF_of_b32 x) (SF_of_b32 n)) = true).
  { apply SFdiv_finite; [lia | lia | exact Hx | exact Hn |].
    change (emin 24 128) with (-149)%Z. change (1 - 24)%Z with (-23)%Z.
    pose proof u32 as U. pose proof h32 as H. pose proof big32 as B.
    fold (value32 x) (value32 n). rewrite U. lra. }
  destruct (SFdiv_error 24 128 ltac:(lia) _ _ Hx Hn Hfin) as [Hv _].
  apply stored_value; assumption.
Qed.

(** [x + 1e-9] for a float32 [x]: the literal is rounded to float32, and
    the sum is rounded. *)
Lemma f32_add_lit_error (x : binary32) :
  let y := b32_of_SF (SFadd 24 128 (SF_of_b32 x) (round32 (b64_lit 1 1000000000))) in
  let t := value32 x + B2R (round32 (b64_lit 1 1000000000)) in
  isfinite x = true ->
  (isfinite y = true \/ Rabs t <= 4) ->
  isfinite y = true /\ Rabs (value32 y - t) <= bpow (-23) * Rabs t + bpow (-149).
Proof.
  intros y t Hx Hy. rewrite isfinite_SF_finite in Hx.
  assert (He : SF_finite (round32 (b64_lit 1 1000000000)) = true)
    by (vm_compute; reflexivity).
  assert (Ve : valid_binary 24 128 (round32 (b64_lit 1 1000000000)) = true)
    by (vm_compute; reflexivity).
  pose proof (SF_of_b32_valid x) as Vx.
  assert (Hfin : SF_finite (SFadd 24 128 (SF_of_b32 x) (round32 (b64_lit 1 1000000000)))
                 = true).
  { destruct Hy as [Hy | Hy].
    - apply SF_finite_stored. rewrite <- isfinite_SF_finite. exact Hy.
    - apply SFadd_finite; try assumption; try lia.
      change (emin 24 128) with (-149)%Z. change (1 - 24)%Z with (-23)%Z.
      pose proof u32 as U. pose proof h32 as H. pose proof big32 as B.
      fold (value32 x). fold t. rewrite U. lra. }
  destruct (SFadd_error 24 128 ltac:(lia) _ _ Hx He Vx Ve Hfin) as [Hv Herr].
  destruct (stored_value _ Hfin Hv) as [Hs Hval].
  split; [exact Hs |]. subst y. rewrite Hval. exact Herr.
Qed.

(** A sum that is a number has terms that are numbers. *)
Lemma f32_add_lit_finite (x : binary32) :
  isfinite (b32_of_SF (SFadd 24 128 (SF_of_b32 x) (round32 (b64_lit 1 1000000000))))
  = true ->
  isfinite x = true.
Proof.
  intros Hy. rewrite isfinite_SF_finite in Hy. apply SF_finite_stored in Hy.
  rewrite isfinite_SF_finite. rewrite eps32_value in Hy.
  destruct (SF_of_b32 x) as [s | s | | s m e]; try reflexivity;
    cbn [SFadd] in Hy; discriminate Hy.
Qed.

End Steps.

Module Accuracy.

Local Unset Implicit Arguments.

Import IEEE Kernels Float32 Bpow Quotient Storage Sum Decoded Normalizer Literals Steps.
Import Exact Analysis Euclid Vectors.
Local Open Scope R_scope.

Section Kernel.

Variable norm_kernel : list binary32 -> binary32.
Variable dot_k : list binary32 -> list binary32 -> binary32.

Abbreviation np32 := (numpy_with norm_kernel dot_k).

Lemma divisor_unfold (v : list binary32) :
  divisor (np := np32) v
  = b32_of_SF (SFadd 24 128 (SF_of_b32 (norm_kernel v)) (round32 (b64_lit 1 1000000000))).
Proof. reflexivity. Qed.

Lemma normalize_unfold (v : list binary32) :
  normalize (np := np32) v
  = map (fun x => lift2 (SFdiv 24 128) x (divisor (np := np32) v)) v.
Proof. reflexivity. Qed.

(** The divisor is the norm the kernel computes plus the float32 of
    [1e-9], rounded. *)
Lemma divisor_error (v : list binary32) :
  value32 (divisor (np := np32) v) <> 0 ->
  isfinite (norm_kernel v) = true
  /\ Rabs (value32 (divisor (np := np32) v)
           - (value32 (norm_kernel v) + B2R (round32 (b64_lit 1 1000000000))))
     <= bpow (-23) * Rabs (value32 (norm_kernel v) + B2R (round32 (b64_lit 1 1000000000)))
        + bpow (-149).
Proof.
  intros HM. apply value32_finite in HM as Hfin.
  rewrite divisor_unfold in *.
  pose proof (f32_add_lit_finite _ Hfin) as Hx.
  split; [exact Hx |].
  exact (proj2 (f32_add_lit_error (norm_kernel v) Hx (or_introl Hfin))).
Qed.

(** The components of an array of numbers whose norm is at most twice
    the divisor are divided without overflow. *)
Lemma normalize_finite (v : list binary32) :
  0 < value32 (divisor (np := np32) v) ->
  norm (values v) <= 2 * value32 (divisor (np := np32) v) ->
  Forall (fun x => isfinite x = true) v ->
  Forall (fun y => isfinite y = true) (normalize (np := np32) v).
Proof.
  intros HM Hn Hv. rewrite normalize_unfold.
  set (n := divisor (np := np32) v) in *.
  apply Forall_forall. intros y Hy.
  apply in_map_iff in Hy. destruct Hy as (x & <- & Hin).
  apply f32_div_finite.
  - rewrite Forall_forall in Hv. apply Hv, Hin.
  - lra.
  - assert (Hc : Rabs (value32 x) <= norm (values v)).
    { apply component_le_norm. unfold values. apply in_map, Hin. }
    unfold Rdiv. rewrite Rabs_mult, (Rabs_pos_eq (/ value32 n)).
    + apply Rmult_le_reg_r with (value32 n); [exact HM |].
      rewrite Rmult_assoc, Rinv_l by lra. lra.
    + left. apply Rinv_0_lt_compat, HM.
Qed.

End Kernel.

End Accuracy.

(** ** The values of the sample data *)

Module Concrete.

Local Unset Implicit Arguments.

Import IEEE Kernels Float32 Bpow Literals.
Import Exact Analysis Vectors.
Local Open Scope R_scope.

(** The value of a float32 given by its decoding. *)
Lemma value32_of (x : binary32) (s : bool) (m : positive) (e : Z) :
  SF_of_b32 x = S754_finite s m e ->
  value32 x = (if s then -1 else 1) * (IZR (Zpos m) * bpow e).
Proof. intros E. unfold value32. rewrite E. reflexivity. Qed.

Lemma value32_zero : value32 (Sample.f32 0 1) = 0.
Proof.
  unfold value32.
  assert (E : SF_of_b32 (Sample.f32 0 1) = S754_zero false) by (vm_compute; reflexivity).
  rewrite E. reflexivity.
Qed.

Lemma values_padded (l : list binary32) :
  values (Sample.padded l)
  = values l ++ repeat 0 (Sample.L - List.length l).
Proof.
  unfold Sample.padded, values. rewrite map_app, map_repeat, value32_zero. reflexivity.
Qed.

(** Padding with zeros does not change the norm. *)
Lemma norm_padded (l : list binary32) : norm (values (Sample.padded l)) = norm (values l).
Proof. rewrite values_padded. unfold norm. rewrite dot_app_zeros. reflexivity. Qed.

Lemma value32_3 : value32 (Sample.f32 3 1) = 3.
Proof.
  rewrite (value32_of (Sample.f32 3 1) false 12582912 (-22)) by (vm_compute; reflexivity).
  rewrite (bpow_neg 22). change (2 ^ 22)%Z with 4194304%Z. field.
Qed.

Lemma value32_4 : value32 (Sample.f32 4 1) = 4.
Proof.
  rewrite (value32_of (Sample.f32 4 1) false 8388608 (-21)) by (vm_compute; reflexivity).
  rewrite (bpow_neg 21). change (2 ^ 21)%Z with 2097152%Z. field.
Qed.

Lemma value32_5 : value32 (Sample.f32 5 1) = 5.
Proof.
  rewrite (value32_of (Sample.f32 5 1) false 10485760 (-21)) by (vm_compute; reflexivity).
  rewrite (bpow_neg 21). change (2 ^ 21)%Z with 2097152%Z. field.
Qed.

Lemma value32_1 : value32 (Sample.f32 1 1) = 1.
Proof.
  rewrite (value32_of (Sample.f32 1 1) false 8388608 (-23)) by (vm_compute; reflexivity).
  rewrite (bpow_neg 23). change (2 ^ 23)%Z with 8388608%Z. field.
Qed.

Lemma value32_half : value32 (Sample.f32 1 2) = / 2.
Proof.
  rewrite (value32_of (Sample.f32 1 2) false 8388608 (-24)) by (vm_compute; reflexivity).
  rewrite (bpow_neg 24). change (2 ^ 24)%Z with 16777216%Z. field.
Qed.

(** float32(0.6) and float32(0.8) *)
Lemma value32_06 : value32 (Sample.f32 6 10) = 10066330 / 16777216.
Proof.
  rewrite (value32_of (Sample.f32 6 10) false 10066330 (-24)) by (vm_compute; reflexivity).
  rewrite (bpow_neg 24). change (2 ^ 24)%Z with 16777216%Z. field.
Qed.

Lemma value32_08 : value32 (Sample.f32 8 10) = 13421773 / 16777216.
Proof.
  rewrite (value32_of (Sample.f32 8 10) false 13421773 (-24)) by (vm_compute; reflexivity).
  rewrite (bpow_neg 24). change (2 ^ 24)%Z with 16777216%Z. field.
Qed.

Lemma value32_tiny : value32 (Sample.f32 1 1000000000) = 9007199 / 9007199254740992.
Proof.
  rewrite (value32_of (Sample.f32 1 1000000000) false 9007199 (-53))
    by (vm_compute; reflexivity).
  rewrite (bpow_neg 53). change (2 ^ 53)%Z with 9007199254740992%Z. field.
Qed.

Lemma norm_34 : norm (values Fixture.short_34) = 5.
Proof.
  unfold Fixture.short_34, values, norm. cbn [map dot].
  rewrite value32_3, value32_4.
  replace (3 * 3 + (4 * 4 + 0)) with (5 * 5) by ring.
  apply sqrt_square. lra.
Qed.

(** The norm of the normalized (3, 4): above 1 by more than [2e-8]. *)
Lemma norm_06_08 :
  1 + 2 / 100000000 < norm (values [Sample.f32 6 10; Sample.f32 8 10])
  <= 1 + 3 / 100000000.
Proof.
  unfold values, norm. cbn [map dot]. rewrite value32_06, value32_08.
  split.
  - apply Rlt_le_trans with (1 + 23 / 1000000000); [lra |].
    apply (sqrt_between (1 + 23 / 1000000000) 2); lra.
  - apply (sqrt_between 1 (1 + 3 / 100000000)); lra.
Qed.

End Concrete.

(** ** The length of a normalized embedding *)

Module UnitLength.

Local Unset Implicit Arguments.

Import IEEE Kernels Float32 Bpow Normalizer Literals Steps Accuracy Concrete.
Import Exact Analysis Vectors.
Local Open Scope R_scope.

(** The norm of the output, from the norm of the input and the divisor. *)
Lemma unit_norm_bound (no n M eta u hr : R) :
  0 < M -> 0 <= u ->
  Rabs (n - M) <= eta * M ->
  Rabs (no - n / M) <= u * (n / M) + hr ->
  Rabs (no - 1) <= eta + u * (1 + eta) + hr.
Proof.
  intros HM Hu Hn Hb.
  apply Rabs_le_inv in Hn. apply Rabs_le_inv in Hb.
  assert (Hi : 0 < / M) by (apply Rinv_0_lt_compat, HM).
  assert (E : (n / M - 1) * M = n - M) by (field; lra).
  set (q := n / M) in *.
  assert (Hq : - eta <= q - 1 <= eta).
  { split; apply Rmult_le_reg_r with M; try exact HM; rewrite E; lra. }
  assert (Huq : u * q <= u * (1 + eta)) by (apply Rmult_le_compat_l; lra).
  apply Rabs_le. lra.
Qed.

(** C4, as amended.  For every kernel of [np.linalg.norm] and every
    float32 array [v] of numbers: let [M] be the divisor the normalizer
    computes, the float32 sum of the kernel's result and of [1e-9], and
    suppose that [M] is positive and that the L2 norm of [v] is within
    [eta * M] of [M], for some [eta <= 1].  Then every component of the
    output is a number, the L2 norm of the output is [||v|| / M] up to one
    float32 rounding of each quotient, and it is within
    [eta + 2^-23 (1 + eta) + 2^-149 sqrt L] of 1. *)
Theorem normalize_norm_float32
        (norm_kernel : list binary32 -> binary32)
        (dot_k : list binary32 -> list binary32 -> binary32)
        (v : list binary32) (eta : R) :
  let np := numpy_with norm_kernel dot_k in
  let M := value32 (divisor (np := np) v) in
  let out := normalize (np := np) v in
  Forall (fun x => isfinite x = true) v ->
  0 < M ->
  Rabs (norm (values v) - M) <= eta * M ->
  eta <= 1 ->
  Forall (fun y => isfinite y = true) out
  /\ Rabs (M - (value32 (norm_kernel v) + eps32))
     <= bpow (-23) * Rabs (value32 (norm_kernel v) + eps32) + bpow (-149)
  /\ Rabs (norm (values out) - norm (values v) / M)
     <= bpow (-23) * (norm (values v) / M)
        + bpow (-149) * sqrt (INR (List.length v))
  /\ Rabs (norm (values out) - 1)
     <= eta + bpow (-23) * (1 + eta) + bpow (-149) * sqrt (INR (List.length v)).
Proof.
  intros np M out Hv HM Hn Heta.
  assert (Hn' : - (eta * M) <= norm (values v) - M <= eta * M).
  { unfold Rabs in Hn. destruct (Rcase_abs (norm (values v) - M)); lra. }
  assert (Hfin : Forall (fun y => isfinite y = true) out).
  { apply normalize_finite; [exact HM | | exact Hv]. fold np M. nra. }
  pose proof (normalize_norm_bound norm_kernel dot_k v HM Hv Hfin) as Hb.
  fold np M out in Hb.
  split; [exact Hfin |].
  split; [apply (divisor_error norm_kernel dot_k v); fold np M; lra |].
  split; [exact Hb |].
  pose proof (bpow_pos (-23)) as P1.
  exact (unit_norm_bound _ _ M eta _ _ HM (Rlt_le _ _ P1) Hn Hb).
Qed.

(** C4, witness: the array (3, 4), for which the divisor is 5. *)
Lemma normalize_norm_float32_witness :
  let nk := linalg_norm (Numpy := IEEE.numpy) in
  let dk := dot_kernel (Numpy := IEEE.numpy) in
  let v := Fixture.short_34 in
  let M := value32 (divisor (np := numpy_with nk dk) v) in
  let out := normalize (np := numpy_with nk dk) v in
  (Forall (fun x => isfinite x = true) v
   /\ 0 < M
   /\ Rabs (norm (values v) - M) <= 0 * M
   /\ 0 <= 1)
  /\ Forall (fun y => isfinite y = true) out
  /\ Rabs (norm (values out) - 1)
     <= 0 + bpow (-23) * (1 + 0) + bpow (-149) * sqrt (INR (List.length v)).
Proof.
  intros nk dk v M out.
  assert (Hv : Forall (fun x => isfinite x = true) v).
  { repeat constructor. }
  assert (EM : M = 5).
  { subst M.
    assert (E : divisor (np := numpy_with nk dk) v = Sample.f32 5 1)
      by (vm_compute; reflexivity).
    rewrite E. exact value32_5. }
  assert (HM : 0 < M) by (rewrite EM; lra).
  assert (Hn : Rabs (norm (values v) - M) <= 0 * M).
  { rewrite EM. subst v. rewrite norm_34.
    replace (5 - 5) with 0 by ring. rewrite Rabs_R0. lra. }
  assert (H1 : 0 <= 1) by lra.
  split; [repeat split; assumption |].
  destruct (normalize_norm_float32 nk dk v 0 Hv HM Hn H1) as (Hfin & _ & _ & Hb).
  split; [exact Hfin | exact Hb].
Defined.

(** C4, counterexample.  Two nonzero arrays of length 512, in float32.
    For (3, 4, 0, ..., 0), of norm 5, the normalizer returns
    (float32(0.6), float32(0.8), 0, ..., 0), whose L2 norm exceeds 1 by
    more than [2e-8]: the quotients are rounded to float32.  For
    (1e-9, 0, ..., 0) it returns (0.5, 0, ..., 0), of norm 1/2: the
    [1e-9] added to the divisor is as large as the norm.  Neither norm is
    within [1e-9] of 1. *)
Lemma normalize_norm_float32_counterexample :
  (List.length Sample.raw_34 = 512%nat
   /\ norm (values Sample.raw_34) = 5
   /\ normalize (np := IEEE.numpy) Sample.raw_34
      = Sample.padded [Sample.f32 6 10; Sample.f32 8 10]
   /\ 1 + 2 / 100000000 < norm (values (normalize (np := IEEE.numpy) Sample.raw_34))
   /\ ~ Rabs (norm (values (normalize (np := IEEE.numpy) Sample.raw_34)) - 1)
        <= / 1000000000)
  /\ (List.length Sample.raw_tiny = 512%nat
      /\ 0 < norm (values Sample.raw_tiny)
      /\ normalize (np := IEEE.numpy) Sample.raw_tiny = Sample.padded [Sample.f32 1 2]
      /\ norm (values (normalize (np := IEEE.numpy) Sample.raw_tiny)) = / 2
      /\ ~ Rabs (norm (values (normalize (np := IEEE.numpy) Sample.raw_tiny)) - 1)
           <= / 1000000000).
Proof.
  assert (E34 : normalize (np := IEEE.numpy) Sample.raw_34
                = Sample.padded [Sample.f32 6 10; Sample.f32 8 10])
    by (vm_compute; reflexivity).
  assert (Etiny : normalize (np := IEEE.numpy) Sample.raw_tiny
                  = Sample.padded [Sample.f32 1 2])
    by (vm_compute; reflexivity).
  split.
  - rewrite E34, norm_padded.
    pose proof norm_06_08 as [Hlo Hhi].
    split; [reflexivity |].
    split; [unfold Sample.raw_34; rewrite norm_padded; exact norm_34 |].
    split; [reflexivity |].
    split; [exact Hlo |].
    intros H. apply Rabs_le_inv in H. lra.
  - rewrite Etiny, norm_padded.
    assert (Hhalf : norm (values [Sample.f32 1 2]) = / 2).
    { unfold values, norm. cbn [map dot]. rewrite value32_half.
      replace (/ 2 * / 2 + 0) with (/ 2 * / 2) by ring.
      apply sqrt_square. lra. }
    split; [reflexivity |].
    split.
    { unfold Sample.raw_tiny. rewrite norm_padded.
      unfold values, norm. cbn [map dot]. rewrite value32_tiny.
      apply sqrt_lt_R0. lra. }
    split; [reflexivity |].
    split; [exact Hhalf |].
    rewrite Hhalf. intros H. apply Rabs_le_inv in H. lra.
Qed.

End UnitLength.

(** ** Re-normalizing a normalized embedding *)

Module Renormalized.

Local Unset Implicit Arguments.

Import IEEE Kernels Float32 Bpow Normalizer Literals Steps Accuracy Concrete.
Import Exact Analysis Vectors.
Local Open Scope R_scope.

Section Kernel.

Variable norm_kernel : list binary32 -> binary32.
Variable dot_k : list binary32 -> list binary32 -> binary32.

Abbreviation np32 := (numpy_with norm_kernel dot_k).
Abbreviation nb32 := (buffer_with norm_kernel dot_k).

Lemma chunks4_tobytes_with (v : list binary32) :
  chunks4 (np := np32) (nb := nb32) (tobytes (np := np32) (nb := nb32) v) = v.
Proof.
  induction v as [| x v IH]; [reflexivity |].
  destruct x as [b0 b1 b2 b3].
  change (tobytes (np := np32) (nb := nb32) (B32 b0 b1 b2 b3 :: v))
    with (b0 :: b1 :: b2 :: b3 :: tobytes (np := np32) (nb := nb32) v).
  cbn [chunks4]. rewrite IH. reflexivity.
Qed.

Lemma tobytes_length_with (v : list binary32) :
  List.length (tobytes (np := np32) (nb := nb32) v) = (4 * List.length v)%nat.
Proof.
  induction v as [| x v IH]; [reflexivity |].
  change (tobytes (np := np32) (nb := nb32) (x :: v))
    with (byte0 x :: byte1 x :: byte2 x :: byte3 x
            :: tobytes (np := np32) (nb := nb32) v).
  cbn [List.length]. rewrite IH. lia.
Qed.

(** Decoding an encoded embedding re-normalizes it, and nothing else,
    whatever the kernels. *)
Lemma decode_encode_with (v : list binary32) :
  b64_to_emb (np := np32) (nb := nb32) (emb_to_b64 (np := np32) (nb := nb32) v)
  = Ok (normalize (np := np32) v).
Proof.
  unfold b64_to_emb, emb_to_b64.
  rewrite Codec.b64decode_b64encode. cbn [Py.bind].
  unfold frombuffer. rewrite tobytes_length_with.
  replace (4 * List.length v)%nat with (List.length v * 4)%nat by lia.
  rewrite Nat.Div0.mod_mul. cbn [Nat.eqb Py.bind]. rewrite chunks4_tobytes_with.
  reflexivity.
Qed.

(** The divisor for an array whose computed norm is near 1. *)
Lemma divisor_near_1 (v : list binary32) (eta : R) :
  Rabs (value32 (norm_kernel v) - 1) <= eta -> eta <= 1 / 4 ->
  Rabs (value32 (divisor (np := np32) v) - 1) <= eta + bpow (-22).
Proof.
  intros Hn Heta. apply Rabs_le_inv in Hn.
  assert (Hx : isfinite (norm_kernel v) = true) by (apply value32_finite; lra).
  pose proof eps32_bounds as [E0 E1].
  pose proof u32 as U. pose proof h32 as [H0 H1].
  assert (D : bpow (-22) = / 4194304) by exact (bpow_neg 22).
  rewrite divisor_unfold.
  destruct (f32_add_lit_error (norm_kernel v) Hx) as [_ Herr].
  { right. apply Rabs_le. lra. }
  cbv zeta in Herr.
  set (t := value32 (norm_kernel v) + B2R (round32 (b64_lit 1 1000000000))) in *.
  assert (Ht : 0 < t <= 5 / 4 + / 1000000000) by (subst t; lra).
  rewrite (Rabs_pos_eq t) in Herr by lra.
  apply Rabs_le_inv in Herr. rewrite U in Herr. rewrite D.
  apply Rabs_le. subst t. lra.
Qed.

(** One quotient by a divisor near 1. *)
Lemma quotient_close (X Y M eta : R) :
  0 <= eta <= 1 / 4 ->
  Rabs (M - 1) <= eta + bpow (-22) ->
  Rabs (Y - X / M) <= bpow (-23) * Rabs (X / M) + bpow (-149) ->
  Rabs (Y - X) <= (2 * eta + bpow (-20)) * Rabs X + bpow (-149).
Proof.
  intros [He0 He1] HM HY.
  pose proof u32 as U.
  assert (D : bpow (-22) = / 4194304) by exact (bpow_neg 22).
  assert (D' : bpow (-20) = / 1048576) by exact (bpow_neg 20).
  rewrite U in HY. rewrite D in HM. rewrite D'.
  apply Rabs_le_inv in HM.
  assert (HM0 : 7 / 10 <= M) by lra.
  assert (Hr : 0 < / M <= 10 / 7).
  { split; [apply Rinv_0_lt_compat; lra |].
    replace (10 / 7) with (/ (7 / 10)) by field.
    apply Rinv_le_contravar; lra. }
  set (r := / M) in *. set (a := Rabs X).
  assert (Ha : 0 <= a) by apply Rabs_pos.
  assert (A1 : Rabs (X / M) <= a * (10 / 7)).
  { unfold Rdiv. fold r. rewrite Rabs_mult, (Rabs_pos_eq r) by lra.
    apply Rmult_le_compat_l; [exact Ha | lra]. }
  assert (A2 : Rabs (X / M - X) <= a * ((10 / 7) * (eta + / 4194304))).
  { replace (X / M - X) with (X * (r * (1 - M))) by (subst r; field; lra).
    rewrite Rabs_mult. apply Rmult_le_compat_l; [exact Ha |].
    rewrite Rabs_mult, (Rabs_pos_eq r) by lra.
    apply Rmult_le_compat; [lra | apply Rabs_pos | lra |].
    apply Rabs_le. lra. }
  replace (Y - X) with ((Y - X / M) + (X / M - X)) by ring.
  eapply Rle_trans; [apply Rabs_triang |].
  assert (P : 0 <= a * eta) by (apply Rmult_le_pos; lra).
  pose proof (bpow_pos (-149)).
  nra.
Qed.

(** Re-normalizing an array of unit length, as the kernel measures it and
    as it is, moves each component by little. *)
Lemma renormalize_close_float32 (v : list binary32) (eta : R) :
  Forall (fun x => isfinite x = true) v ->
  Rabs (value32 (norm_kernel v) - 1) <= eta ->
  Rabs (norm (values v) - 1) <= eta ->
  eta <= 1 / 4 ->
  Forall (fun y => isfinite y = true) (normalize (np := np32) v)
  /\ Forall2 (fun y x =>
                Rabs (value32 y - value32 x)
                <= (2 * eta + bpow (-20)) * Rabs (value32 x) + bpow (-149))
             (normalize (np := np32) v) v.
Proof.
  intros Hv Hk Hn Heta.
  assert (He0 : 0 <= eta) by (pose proof (Rabs_pos (value32 (norm_kernel v) - 1)); lra).
  pose proof (divisor_near_1 v eta Hk Heta) as HM.
  assert (D : bpow (-22) = / 4194304) by exact (bpow_neg 22).
  pose proof HM as HM'. rewrite D in HM'. apply Rabs_le_inv in HM'.
  apply Rabs_le_inv in Hn.
  set (M := value32 (divisor (np := np32) v)) in *.
  assert (HM0 : 0 < M) by lra.
  assert (Hfin : Forall (fun y => isfinite y = true) (normalize (np := np32) v)).
  { apply normalize_finite; [exact HM0 | fold M; lra | exact Hv]. }
  split; [exact Hfin |].
  pose proof (normalize_components norm_kernel dot_k v ltac:(fold M; lra) Hv Hfin) as Hc.
  fold M in Hc.
  revert Hc. apply Forall2_impl. intros y x Hyx.
  apply (quotient_close (value32 x) (value32 y) M eta); [lra | exact HM | exact Hyx].
Qed.

End Kernel.

End Renormalized.

Module Transported.

Local Unset Implicit Arguments.

Import IEEE Kernels Float32 Bpow Normalizer Literals Steps Accuracy Concrete Renormalized.
Import Exact Analysis Vectors.
Local Open Scope R_scope.

(** C5.  Decoding the encoded transport string of a float32 array [v]
    gives exactly [normalize v], whatever the kernels of numpy.  When [v]
    is a normalized embedding, an array of numbers whose L2 norm is
    within [eta] of 1 and for which [np.linalg.norm] returns a number
    within [eta] of 1, for some [eta <= 1/4], [normalize v] is an array of
    numbers each within [(2 eta + 2^-20) |x| + 2^-149] of the component
    [x] of [v]: encode followed by decode is a round trip up to that. *)
Theorem decode_encode_float32
        (norm_kernel : list binary32 -> binary32)
        (dot_k : list binary32 -> list binary32 -> binary32)
        (v : list binary32) (eta : R) :
  let np := numpy_with norm_kernel dot_k in
  let nb := buffer_with norm_kernel dot_k in
  b64_to_emb (np := np) (nb := nb) (emb_to_b64 (np := np) (nb := nb) v)
  = Ok (normalize (np := np) v)
  /\ (Forall (fun x => isfinite x = true) v ->
      Rabs (norm (values v) - 1) <= eta ->
      Rabs (value32 (norm_kernel v) - 1) <= eta ->
      eta <= 1 / 4 ->
      Forall (fun y => isfinite y = true) (normalize (np := np) v)
      /\ Forall2 (fun y x =>
                    Rabs (value32 y - value32 x)
                    <= (2 * eta + bpow (-20)) * Rabs (value32 x) + bpow (-149))
                 (normalize (np := np) v) v).
Proof.
  intros np nb. split.
  - apply decode_encode_with.
  - intros Hv Hn Hk Heta. apply renormalize_close_float32; assumption.
Qed.

(** C5, witness: the normalized (3, 4), with [eta = 1e-6]. *)
Lemma decode_encode_float32_witness :
  let nk := linalg_norm (Numpy := IEEE.numpy) in
  let dk := dot_kernel (Numpy := IEEE.numpy) in
  let v := normalize (np := numpy_with nk dk) Fixture.short_34 in
  (Forall (fun x => isfinite x = true) v
   /\ Rabs (norm (values v) - 1) <= / 1000000
   /\ Rabs (value32 (nk v) - 1) <= / 1000000
   /\ / 1000000 <= 1 / 4)
  /\ b64_to_emb (np := numpy_with nk dk) (nb := buffer_with nk dk)
       (emb_to_b64 (np := numpy_with nk dk) (nb := buffer_with nk dk) v)
     = Ok (normalize (np := numpy_with nk dk) v)
  /\ Forall2 (fun y x =>
                Rabs (value32 y - value32 x)
                <= (2 * / 1000000 + bpow (-20)) * Rabs (value32 x) + bpow (-149))
             (normalize (np := numpy_with nk dk) v) v.
Proof.
  intros nk dk v.
  assert (Ev : v = [Sample.f32 6 10; Sample.f32 8 10]) by (vm_compute; reflexivity).
  assert (Hv : Forall (fun x => isfinite x = true) v).
  { rewrite Ev. repeat constructor. }
  assert (Hn : Rabs (norm (values v) - 1) <= / 1000000).
  { rewrite Ev. pose proof norm_06_08 as [Hlo Hhi]. apply Rabs_le. lra. }
  assert (Hk : Rabs (value32 (nk v) - 1) <= / 1000000).
  { assert (E : nk v = Sample.f32 1 1) by (vm_compute; reflexivity).
    rewrite E, value32_1. replace (1 - 1) with 0 by ring. rewrite Rabs_R0. lra. }
  assert (He : / 1000000 <= 1 / 4) by lra.
  split; [repeat split; assumption |].
  destruct (decode_encode_float32 nk dk v (/ 1000000)) as [Hdec Happrox].
  split; [exact Hdec |].
  exact (proj2 (Happrox Hv Hn Hk He)).
Defined.

End Transported.

(** ** The distance of a probe to its own re-normalization *)

Module SelfMatch.

Local Unset Implicit Arguments.

Import IEEE Kernels Float32 Bpow Normalizer Literals Steps Accuracy Concrete Renormalized.
Import Sum Decoded.
Import Exact Analysis Vectors.
Local Open Scope R_scope.

Lemma sqrt_length (n : nat) : (Z.of_nat n <= 1048576)%Z -> sqrt (INR n) <= 1024.
Proof.
  intros H. rewrite INR_IZR_INZ. apply IZR_le in H.
  rewrite <- (sqrt_square 1024) by lra. apply sqrt_le_1_alt. lra.
Qed.

(** The real arithmetic of the self-similarity: [n] the norm of the
    probe, [M] the divisor, [A] the inner product. *)
Lemma similarity_bound (n M A rho eta : R) :
  0 <= eta <= 1 / 16 ->
  Rabs (n - 1) <= eta ->
  Rabs (M - 1) <= eta + bpow (-22) ->
  0 <= rho <= 1024 ->
  Rabs (A - n * n / M) <= bpow (-23) * (n * (n / M)) + bpow (-149) * (n * rho) ->
  Rabs (A - 1) <= 4 * eta + bpow (-21).
Proof.
  intros [He0 He1] Hn HM [Hr0 Hr1] HA.
  pose proof u32 as U. pose proof h32 as [H0 H1].
  assert (D : bpow (-22) = / 4194304) by exact (bpow_neg 22).
  assert (D' : bpow (-21) = / 2097152) by exact (bpow_neg 21).
  rewrite U in HA. rewrite D in HM. rewrite D'.
  set (h := bpow (-149)) in *.
  apply Rabs_le_inv in Hn. apply Rabs_le_inv in HM.
  assert (HM0 : 100 / 107 <= M) by lra.
  assert (Hr : 0 < / M <= 107 / 100).
  { split; [apply Rinv_0_lt_compat; lra |].
    replace (107 / 100) with (/ (100 / 107)) by field.
    apply Rinv_le_contravar; lra. }
  set (r := / M) in *.
  assert (Hnn : 1 - 2 * eta <= n * n <= 1 + (2 + 1 / 16) * eta) by nra.
  set (nn := n * n) in *.
  assert (E1 : nn / M = nn * r) by reflexivity.
  assert (E2 : n * (n / M) = nn * r) by (subst nn r; unfold Rdiv; ring).
  rewrite E1, E2 in HA.
  assert (Hnnr : 0 <= nn * r <= 121 / 100).
  { split; [apply Rmult_le_pos; lra |].
    apply Rle_trans with ((1 + (2 + 1 / 16) * (1 / 16)) * (107 / 100)); [| lra].
    apply Rmult_le_compat; lra. }
  assert (Hc : Rabs (nn * r - 1) <= ((3 + 1 / 16) * eta + / 4194304) * (107 / 100)).
  { replace (nn * r - 1) with ((nn - M) * r) by (subst r; field; lra).
    rewrite Rabs_mult, (Rabs_pos_eq r) by lra.
    apply Rmult_le_compat; [apply Rabs_pos | lra | | lra].
    apply Rabs_le. lra. }
  assert (Hh : h * (n * rho) <= h * 1088).
  { apply Rmult_le_compat_l; [lra |].
    apply Rle_trans with ((17 / 16) * 1024); [| lra].
    apply Rmult_le_compat; lra. }
  apply Rabs_le_inv in Hc. apply Rabs_le_inv in HA.
  apply Rabs_le. lra.
Qed.

(** The distance computed from a similarity near 1. *)
Lemma distance_of_similarity (s : binary32) (tol : R) :
  Rabs (value32 s - 1) <= tol -> tol <= 3 / 4 ->
  let d := SFsub 53 1024 (b64_of_Z 1) (round64 (SF_of_b32 s)) in
  SF_finite d = true
  /\ valid_binary 53 1024 d = true
  /\ Rabs (B2R d - (1 - value32 s))
     <= bpow (-52) * Rabs (1 - value32 s) + bpow (-1074)
  /\ Rabs (B2R d) <= tol + bpow (-50).
Proof.
  intros Hs Htol d.
  pose proof Hs as Hs'. apply Rabs_le_inv in Hs'.
  assert (Hfin : isfinite s = true) by (apply value32_finite; lra).
  rewrite isfinite_SF_finite in Hfin.
  destruct (round64_exact (SF_of_b32 s) Hfin (SF_of_b32_valid s)) as (Hy & Vy & Ey).
  fold (value32 s) in Ey.
  assert (Hx : SF_finite (b64_of_Z 1) = true) by (vm_compute; reflexivity).
  assert (Vx : valid_binary 53 1024 (b64_of_Z 1) = true) by (vm_compute; reflexivity).
  assert (P52 : bpow (-52) = / 4503599627370496) by exact (bpow_neg 52).
  assert (P50 : bpow (-50) = / 1125899906842624) by exact (bpow_neg 50).
  assert (Pmin : 0 < bpow (-1074) <= / 4503599627370496).
  { split; [apply bpow_pos |]. rewrite <- P52. apply bpow_le. lia. }
  assert (Pmax : 16 <= bpow 1024).
  { apply Rle_trans with (bpow 4); [| apply bpow_le; lia].
    right. rewrite <- (bpow_IZR 4) by lia. reflexivity. }
  assert (Habs : Rabs (1 - value32 s) <= tol).
  { rewrite Rabs_minus_sym. exact Hs. }
  assert (Hd : SF_finite d = true).
  { subst d. apply SFsub_finite; try assumption; try lia.
    rewrite B2R_one64, Ey.
    change (emin 53 1024) with (-1074)%Z. change (1 - 53)%Z with (-52)%Z.
    rewrite P52.
    set (a := Rabs (1 - value32 s)) in *. set (b := bpow (-1074)) in *.
    set (B := bpow 1024) in *.
    clearbody a b B. clear - Habs Htol Pmin Pmax. lra. }
  destruct (SFsub_error 53 1024 ltac:(lia) _ _ Hx Hy Vx Vy Hd) as [Vd Herr].
  rewrite B2R_one64, Ey in Herr.
  change (emin 53 1024) with (-1074)%Z in Herr. change (1 - 53)%Z with (-52)%Z in Herr.
  split; [exact Hd | split; [exact Vd | split; [exact Herr |]]].
  fold d in Herr. rewrite P52 in Herr. rewrite P50.
  apply Rabs_le_inv in Herr. pose proof (Rabs_le_inv _ _ Habs) as Habs'.
  apply Rabs_le. lra.
Qed.

Section Kernel.

Variable norm_kernel : list binary32 -> binary32.
Variable dot_k : list binary32 -> list binary32 -> binary32.

Abbreviation np32 := (numpy_with norm_kernel dot_k).

(** The inner product of an array of unit length with its own
    re-normalization is near 1. *)
Lemma self_similarity (probe : list binary32) (eta : R) :
  Forall (fun x => isfinite x = true) probe ->
  (Z.of_nat (List.length probe) <= 1048576)%Z ->
  Rabs (norm (values probe) - 1) <= eta ->
  Rabs (value32 (norm_kernel probe) - 1) <= eta ->
  eta <= 1 / 16 ->
  Rabs (dot (values probe) (values (normalize (np := np32) probe)) - 1)
  <= 4 * eta + bpow (-21).
Proof.
  intros Hv Hlen Hn Hk Heta.
  assert (He0 : 0 <= eta) by (pose proof (Rabs_pos (norm (values probe) - 1)); lra).
  pose proof (divisor_near_1 norm_kernel dot_k probe eta Hk ltac:(lra)) as HM.
  destruct (renormalize_close_float32 norm_kernel dot_k probe eta Hv Hk Hn ltac:(lra))
    as [Hfin _].
  set (M := value32 (divisor (np := np32) probe)) in *.
  assert (D : bpow (-22) = / 4194304) by exact (bpow_neg 22).
  assert (HM0 : 0 < M).
  { pose proof HM as HM'. rewrite D in HM'. apply Rabs_le_inv in HM'. lra. }
  pose proof (normalize_components norm_kernel dot_k probe ltac:(fold M; lra) Hv Hfin)
    as Hc.
  fold M in Hc.
  pose proof (@Forall2_values
                (fun a b => Rabs (a - b) <= bpow (-23) * Rabs b + bpow (-149))
                (fun a => a / M) _ _ Hc) as Hall.
  pose proof (bpow_pos (-23)) as P1. pose proof (bpow_pos (-149)) as P2.
  pose proof (dot_perturbed (bpow (-23)) (bpow (-149)) (values probe) _ _
                ltac:(lra) ltac:(lra) ltac:(rewrite length_map; reflexivity) Hall) as Hd.
  rewrite dot_scale_r, <- norm_sq, (norm_scale (values probe) HM0) in Hd.
  assert (Hrho : 0 <= sqrt (INR (List.length (values probe))) <= 1024).
  { split; [apply sqrt_pos |].
    apply sqrt_length. unfold values. rewrite length_map. exact Hlen. }
  exact (similarity_bound _ _ _ _ eta (conj He0 Heta) Hn HM Hrho Hd).
Qed.

(** The first distance replaces the 999.0 that the scan starts from. *)
Lemma update_from_999 (d : spec_float) :
  SF_finite d = true -> valid_binary 53 1024 d = true -> B2R d < 999 ->
  update (np := np32) (b64_of_Z 999) d = d.
Proof.
  intros Hd Vd Hlt. unfold update.
  change (py_ltb (Numpy := np32)) with SFltb.
  assert (H9 : SF_finite (b64_of_Z 999) = true) by (vm_compute; reflexivity).
  assert (V9 : valid_binary 53 1024 (b64_of_Z 999) = true) by (vm_compute; reflexivity).
  rewrite (proj2 (SFltb_Rlt 53 1024 ltac:(lia) d (b64_of_Z 999) Hd H9 Vd V9));
    [reflexivity |].
  rewrite B2R_999. exact Hlt.
Qed.

End Kernel.

End SelfMatch.

(** ** A probe against its own template *)

Module OwnTemplate.

Local Unset Implicit Arguments.

Import IEEE Kernels Float32 Bpow Normalizer Literals Steps Accuracy Concrete Renormalized.
Import Sum Decoded SelfMatch.
Import Exact Analysis Vectors.
Local Open Scope R_scope.

(** C6, as amended.  When the probe of an image is encoded, as [embed]
    returns it, and passed back as the single template of a [verify]
    request for the same image, [verify] succeeds whatever the kernels of
    numpy: [best_distance] is the scan's update of 999.0 by [d], the
    float [1.0 - float(s)] for the similarity [s] that [np.dot] returns
    for the probe and its re-normalization, and match is
    [best_distance <= threshold].  When the probe is an array of at most
    2^20 numbers whose L2 norm is within [eta] of 1, [np.linalg.norm]
    returns for it a number within [eta] of 1, for some [eta <= 1/16],
    and [np.dot] returns a number within [gamma <= 1/4] of the inner
    product, then [best_distance] is [d], a number of absolute value at
    most [4 eta + gamma + 2^-20], and for a threshold that is a number
    the match is true exactly when the value of [d] is at most the
    threshold's: for every threshold of at least [4 eta + gamma + 2^-20],
    and at threshold 0 only if [d <= 0]. *)
Theorem verify_own_template_float32
        (norm_kernel : list binary32 -> binary32)
        (dot_k : list binary32 -> list binary32 -> binary32)
        (image : Type)
        (cv2_imdecode : list byte -> Py.result (option image))
        (face_app_get : image -> Py.result (list (Face binary32)))
        (payload : string) (threshold : option spec_float)
        (log : list (event image)) (probe : list binary32) :
  let np := numpy_with norm_kernel dot_k in
  let nb := buffer_with norm_kernel dot_k in
  let req := {| req_image_base64 := payload;
                req_templates_b64 := [emb_to_b64 (np := np) (nb := nb) probe];
                req_threshold := threshold |} in
  let s := dot_k probe (normalize (np := np) probe) in
  let d := SFsub 53 1024 (b64_of_Z 1) (round64 (SF_of_b32 s)) in
  let best := update (np := np) (b64_of_Z 999) d in
  probe_of (np := np) cv2_imdecode face_app_get payload = (log, Ok probe) ->
  (embed (np := np) (nb := nb) cv2_imdecode face_app_get {| image_base64 := payload |}
   = (log, Body {| model := MODEL;
                   embedding_b64 := emb_to_b64 (np := np) (nb := nb) probe |})
   /\ cosine_distance (np := np) probe (normalize (np := np) probe) = Ok d
   /\ verify (np := np) (nb := nb) cv2_imdecode face_app_get req
      = (log, Body {| res_match := SFleb best (threshold_used (np := np) req);
                      res_best_distance := best;
                      res_threshold := threshold_used (np := np) req;
                      res_model := MODEL |}))
  /\ (forall eta gamma : R,
         Forall (fun x => isfinite x = true) probe ->
         (Z.of_nat (List.length probe) <= 1048576)%Z ->
         Rabs (norm (values probe) - 1) <= eta ->
         Rabs (value32 (norm_kernel probe) - 1) <= eta ->
         eta <= 1 / 16 ->
         Rabs (value32 s - dot (values probe) (values (normalize (np := np) probe)))
         <= gamma ->
         gamma <= 1 / 4 ->
         best = d
         /\ SF_finite d = true
         /\ Rabs (B2R d) <= 4 * eta + gamma + bpow (-20)
         /\ forall thr : spec_float,
             SF_finite thr = true -> valid_binary 53 1024 thr = true ->
             (SFleb best thr = true <-> B2R d <= B2R thr)).
Proof.
  intros np nb req s d best Hp.
  split.
  - split.
    + exact (@RoundTrip.embed_returns_encoded_probe np nb
               image cv2_imdecode face_app_get payload log probe Hp).
    + exact (@RoundTrip.verify_own_template np nb
               image cv2_imdecode face_app_get (decode_encode_with norm_kernel dot_k)
               payload threshold log probe Hp).
  - intros eta gamma Hv Hlen Hn Hk Heta Hs Hgamma.
    assert (He0 : 0 <= eta) by (pose proof (Rabs_pos (norm (values probe) - 1)); lra).
    assert (Hg0 : 0 <= gamma).
    { pose proof (Rabs_pos (value32 s
                            - dot (values probe) (values (normalize (np := np) probe)))).
      lra. }
    pose proof (self_similarity norm_kernel dot_k probe eta Hv Hlen Hn Hk Heta) as Hsim.
    fold np in Hsim.
    assert (D21 : bpow (-21) = / 2097152) by exact (bpow_neg 21).
    assert (D20 : bpow (-20) = / 1048576) by exact (bpow_neg 20).
    assert (D50 : bpow (-50) = / 1125899906842624) by exact (bpow_neg 50).
    set (A := dot (values probe) (values (normalize (np := np) probe))) in *.
    assert (Htol : Rabs (value32 s - 1) <= 4 * eta + gamma + bpow (-21)).
    { apply Rabs_le_inv in Hsim. apply Rabs_le_inv in Hs. apply Rabs_le. lra. }
    destruct (distance_of_similarity s (4 * eta + gamma + bpow (-21)) Htol
                ltac:(rewrite D21; lra)) as (Hd & Vd & _ & Hbound).
    fold d in Hd, Vd, Hbound.
    assert (Hsmall : Rabs (B2R d) <= 4 * eta + gamma + bpow (-20)).
    { rewrite D21, D50 in Hbound. rewrite D20. lra. }
    assert (Hbest : best = d).
    { subst best. apply update_from_999; [exact Hd | exact Vd |].
      apply Rabs_le_inv in Hsmall. rewrite D20 in Hsmall. lra. }
    split; [exact Hbest | split; [exact Hd | split; [exact Hsmall |]]].
    intros thr Ht Vt. rewrite Hbest.
    exact (SFleb_Rle 53 1024 ltac:(lia) d thr Hd Ht Vd Vt).
Qed.

(** C6, witness: the model returns the raw embedding (3, 4); the probe is
    (float32(0.6), float32(0.8)), and [verify] against its own encoding,
    with the default threshold, answers match. *)
Lemma verify_own_template_float32_witness :
  let nk := linalg_norm (Numpy := IEEE.numpy) in
  let dk := dot_kernel (Numpy := IEEE.numpy) in
  let probe := [Sample.f32 6 10; Sample.f32 8 10] in
  let log := [CallImdecode [x00; x00; x00]; CallFaceGet [x00; x00; x00]] in
  let template := emb_to_b64 (np := numpy_with nk dk) (nb := buffer_with nk dk) probe in
  let s := dk probe (normalize (np := numpy_with nk dk) probe) in
  let d := SFsub 53 1024 (b64_of_Z 1) (round64 (SF_of_b32 s)) in
  (probe_of (np := numpy_with nk dk) Sample.stub_imdecode Fixture.face_34 "AAAA"
   = (log, Ok probe)
   /\ Forall (fun x => isfinite x = true) probe
   /\ (Z.of_nat (List.length probe) <= 1048576)%Z
   /\ Rabs (norm (values probe) - 1) <= / 1000000
   /\ Rabs (value32 (nk probe) - 1) <= / 1000000
   /\ / 1000000 <= 1 / 16
   /\ Rabs (value32 s
            - dot (values probe) (values (normalize (np := numpy_with nk dk) probe)))
      <= / 1000000
   /\ / 1000000 <= 1 / 4)
  /\ verify (np := numpy_with nk dk) (nb := buffer_with nk dk)
       Sample.stub_imdecode Fixture.face_34 (Sample.request [template] None)
     = (log, Body {| res_match := true;
                     res_best_distance := d;
                     res_threshold := b64_lit 45 100;
                     res_model := MODEL |})
  /\ Rabs (B2R d) <= 4 * / 1000000 + / 1000000 + bpow (-20).
Proof.
  intros nk dk probe log template s d.
  assert (Hp : probe_of (np := numpy_with nk dk) Sample.stub_imdecode Fixture.face_34
                        "AAAA" = (log, Ok probe)) by (vm_compute; reflexivity).
  assert (Hv : Forall (fun x => isfinite x = true) probe) by (repeat constructor).
  assert (Hlen : (Z.of_nat (List.length probe) <= 1048576)%Z) by (cbn; lia).
  assert (Hn : Rabs (norm (values probe) - 1) <= / 1000000).
  { pose proof norm_06_08 as [Hlo Hhi]. apply Rabs_le. subst probe. lra. }
  assert (Hk : Rabs (value32 (nk probe) - 1) <= / 1000000).
  { assert (E : nk probe = Sample.f32 1 1) by (vm_compute; reflexivity).
    rewrite E, value32_1. replace (1 - 1) with 0 by ring. rewrite Rabs_R0. lra. }
  assert (He : / 1000000 <= 1 / 16) by lra.
  assert (Hs : Rabs (value32 s
                     - dot (values probe)
                           (values (normalize (np := numpy_with nk dk) probe)))
               <= / 1000000).
  { assert (E : s = Sample.f32 1 1) by (vm_compute; reflexivity).
    assert (E' : normalize (np := numpy_with nk dk) probe = probe)
      by (vm_compute; reflexivity).
    rewrite E, E', value32_1. subst probe.
    unfold values. cbn [map dot]. rewrite value32_06, value32_08.
    apply Rabs_le. lra. }
  assert (Hg : / 1000000 <= 1 / 4) by lra.
  split; [repeat split; assumption |].
  destruct (verify_own_template_float32 nk dk (list byte) Sample.stub_imdecode
              Fixture.face_34 "AAAA"%string None log probe Hp)
    as [(_ & _ & Hver) Hacc].
  destruct (Hacc (/ 1000000) (/ 1000000) Hv Hlen Hn Hk He Hs Hg)
    as (Hbest & Hd & Hbound & Hthr).
  fold s d in Hbest, Hd, Hbound, Hthr, Hver.
  split; [| exact Hbound].
  assert (H45 : b64_lit 45 100 = S754_finite false 8106479329266893 (-54))
    by (vm_compute; reflexivity).
  assert (Hmatch : SFleb (update (np := numpy_with nk dk) (b64_of_Z 999) d)
                         (b64_lit 45 100) = true).
  { apply Hthr; [vm_compute; reflexivity | vm_compute; reflexivity |].
    rewrite H45. cbn [B2R]. rewrite (bpow_neg 54).
    change (2 ^ 54)%Z with 18014398509481984%Z.
    assert (D20 : bpow (-20) = / 1048576) by exact (bpow_neg 20).
    rewrite D20 in Hbound. apply Rabs_le_inv in Hbound. lra. }
  unfold Sample.request. subst template. rewrite Hver.
  unfold threshold_used. cbn [req_threshold].
  change (DEFAULT_THRESHOLD (np := numpy_with nk dk)) with (b64_lit 45 100).
  rewrite Hmatch, Hbest. reflexivity.
Defined.

(** An ordinary embedding for which the self-distance is positive: the
    model returns (1, 6, 0, ..., 0); [verify] of the probe against its own
    encoding answers [best_distance = 2^-24], and at threshold 0 the match
    is false. *)
Example verify_own_template_of_1_6 :
  let raw := Sample.padded [Sample.f32 1 1; Sample.f32 6 1] in
  let probe := normalize (np := IEEE.numpy) raw in
  let log := [CallImdecode [x00; x00; x00]; CallFaceGet [x00; x00; x00]] in
  verify (np := IEEE.numpy) Sample.stub_imdecode (Sample.one_face raw)
         (Sample.request [emb_to_b64 (np := IEEE.numpy) probe] (Some (S754_zero false)))
  = (log, Body {| res_match := false;
                  res_best_distance := b64_lit 1 16777216;
                  res_threshold := S754_zero false;
                  res_model := MODEL |}).
Proof. vm_compute. reflexivity. Qed.

End OwnTemplate.

(** ** Strings: [strip], [startswith] and the split at a comma *)

Module Strings.

Import Text.
Local Open Scope string_scope.

Lemma app_empty_r (s : string) : s ++ "" = s.
Proof. induction s as [| c s IH]; simpl; [reflexivity | rewrite IH; reflexivity]. Qed.

Lemma app_assoc_s (a b c : string) : (a ++ b) ++ c = a ++ (b ++ c).
Proof. induction a as [| x a IH]; simpl; [reflexivity | rewrite IH; reflexivity]. Qed.

Lemma string_rev_onto_app (s acc : string) :
  string_rev_onto s acc = string_rev s ++ acc.
Proof.
  unfold string_rev. revert acc.
  induction s as [| c s IH]; intros acc; simpl; [reflexivity |].
  rewrite IH, (IH (String c "")), app_assoc_s. reflexivity.
Qed.

Lemma string_rev_cons (c : ascii) (s : string) :
  string_rev (String c s) = string_rev s ++ String c "".
Proof. unfold string_rev at 1. simpl. apply string_rev_onto_app. Qed.

Lemma string_rev_app (a b : string) :
  string_rev (a ++ b) = string_rev b ++ string_rev a.
Proof.
  induction a as [| c a IH]; simpl.
  - rewrite app_empty_r. reflexivity.
  - rewrite !string_rev_cons, IH, app_assoc_s. reflexivity.
Qed.

Lemma string_rev_involutive (s : string) : string_rev (string_rev s) = s.
Proof.
  induction s as [| c s IH]; [reflexivity |].
  rewrite string_rev_cons, string_rev_app, IH. reflexivity.
Qed.

Lemma string_rev_middle (a b : string) (c : ascii) :
  string_rev (a ++ String c b) = string_rev b ++ String c (string_rev a).
Proof.
  rewrite string_rev_app, string_rev_cons, app_assoc_s. reflexivity.
Qed.

Lemma lstrip_app_nonspace (a b : string) (c : ascii) :
  isspace c = false -> lstrip (a ++ String c b) = lstrip a ++ String c b.
Proof.
  intros Hc. induction a as [| x a IH]; simpl.
  - rewrite Hc. reflexivity.
  - destruct (isspace x); [exact IH | reflexivity].
Qed.

(** What [lstrip] removes is a prefix. *)
Lemma lstrip_suffix (s : string) : exists w, s = w ++ lstrip s.
Proof.
  induction s as [| c s [w IH]]; simpl.
  - exists "". reflexivity.
  - destruct (isspace c).
    + exists (String c w). simpl. rewrite <- IH. reflexivity.
    + exists "". reflexivity.
Qed.

(** What [rstrip] removes is a suffix. *)
Lemma rstrip_prefix (s : string) : exists w, s = rstrip s ++ w.
Proof.
  unfold rstrip. destruct (lstrip_suffix (string_rev s)) as [w Hw].
  exists (string_rev w).
  rewrite <- string_rev_app, <- Hw, string_rev_involutive. reflexivity.
Qed.

Lemma prefix_app (p a b : string) :
  String.prefix p a = true -> String.prefix p (a ++ b) = true.
Proof.
  revert p. induction a as [| x a IH]; intros p H.
  - destruct p; [destruct b; reflexivity | discriminate].
  - destruct p as [| c p]; [reflexivity |]. simpl in *.
    destruct (ascii_dec c x); [apply IH; exact H | discriminate].
Qed.

Lemma startswith_app (p s : string) : startswith p (p ++ s) = true.
Proof.
  unfold startswith. induction p as [| c p IH]; cbn.
  - destruct s; reflexivity.
  - destruct (Ascii.ascii_dec c c) as [_ | N]; [exact IH | contradiction].
Qed.

Lemma after_first_comma_app (h x : string) :
  has_comma h = false -> after_first_comma (h ++ String "," x) = Ok x.
Proof.
  induction h as [| c h IH]; simpl; [reflexivity |].
  destruct (Ascii.eqb c ","); simpl; [discriminate | exact IH].
Qed.

Lemma after_first_comma_no_comma (s : string) :
  has_comma s = false -> after_first_comma s = Raise (IndexError "list index out of range").
Proof.
  induction s as [| c s IH]; simpl; [reflexivity |].
  destruct (Ascii.eqb c ","); simpl; [discriminate | exact IH].
Qed.

(** Stripping a string that starts with a character that is not white
    space and contains a comma strips, on the right, what follows the
    comma. *)
Lemma strip_before_comma (c0 : ascii) (p tail : string) :
  isspace c0 = false ->
  strip (String c0 p ++ String "," tail) = String c0 p ++ String "," (rstrip tail).
Proof.
  intros Hc. unfold strip.
  assert (E : lstrip (String c0 p ++ String "," tail) = String c0 p ++ String "," tail).
  { cbn [append lstrip]. rewrite Hc. reflexivity. }
  rewrite E, string_rev_middle.
  rewrite lstrip_app_nonspace by reflexivity.
  rewrite <- (string_rev_involutive (String c0 p ++ String "," (rstrip tail))).
  f_equal. rewrite string_rev_middle. unfold rstrip.
  rewrite string_rev_involutive. reflexivity.
Qed.

(** The base64 text of a data URL, and of the text itself. *)
Lemma base64_part_data_url (head tail : string) :
  has_comma head = false ->
  base64_part ("data:" ++ head ++ String "," tail) = Ok (rstrip tail).
Proof.
  intros Hcomma. unfold base64_part.
  change ("data:" ++ head ++ String "," tail)
    with (String "d" ("ata:" ++ head) ++ String "," tail).
  rewrite strip_before_comma by reflexivity.
  change (String "d" ("ata:" ++ head) ++ String "," (rstrip tail))
    with ("data:" ++ (head ++ String "," (rstrip tail))).
  rewrite startswith_app.
  cbn [append after_first_comma Ascii.eqb Bool.eqb].
  apply after_first_comma_app. exact Hcomma.
Qed.

Lemma base64_part_bare (tail : string) :
  lstrip tail = tail ->
  startswith "data:" tail = false ->
  base64_part tail = Ok (rstrip tail).
Proof.
  intros Hl Hdata. unfold base64_part, strip. rewrite Hl. fold (rstrip tail).
  destruct (startswith "data:" (rstrip tail)) eqn:Hp; [| reflexivity].
  destruct (rstrip_prefix tail) as [w Hw].
  unfold startswith in *. rewrite Hw in Hdata.
  rewrite (prefix_app _ _ w Hp) in Hdata. discriminate.
Qed.

End Strings.

(** ** The image payload and the calls of the handlers *)

Module Payloads.

Import Text.

Section Calls.

Context {np : Numpy} {nb : NumpyBuffer np}.
Variable image : Type.
Variable cv2_imdecode : list byte -> Py.result (option image).
Variable face_app_get : image -> Py.result (list (Face float32)).

(** [decode_base64_image], statement by statement. *)
Lemma decode_base64_image_unfold (s : string) :
  decode_base64_image cv2_imdecode s
  = if String.eqb s "" then ([], Raise (ValueError "empty image"))
    else match base64_part s with
         | Raise e => ([], Raise e)
         | Ok t =>
             match Base64.b64decode t with
             | Raise e => ([], Raise e)
             | Ok buf =>
                 ([CallImdecode buf],
                  match cv2_imdecode buf with
                  | Ok (Some img) => Ok img
                  | Ok None => Raise (ValueError "invalid image bytes")
                  | Raise e => Raise e
                  end)
             end
         end.
Proof.
  unfold decode_base64_image, base64_part.
  destruct (String.eqb s ""); [reflexivity |].
  destruct (if startswith "data:" (strip s) then after_first_comma (strip s) else Ok (strip s))
    as [t | e]; cbn [io_bind io_lift]; [| reflexivity].
  destruct (Base64.b64decode t) as [buf | e]; cbn [io_bind app]; [| reflexivity].
  destruct (cv2_imdecode buf) as [[img |] | e]; reflexivity.
Qed.

(** When decoding the image raises, so do the handlers, with its message;
    the face model is not called and the templates are not read. *)
Lemma handlers_of_decode_raise (s : string) (log : list (event image)) (e : Py.exn) :
  decode_base64_image cv2_imdecode s = (log, Raise e) ->
  embed cv2_imdecode face_app_get {| image_base64 := s |}
  = (log, HTTPException 400 (Py.str e))
  /\ forall t ts threshold,
      verify cv2_imdecode face_app_get
             {| req_image_base64 := s; req_templates_b64 := t :: ts;
                req_threshold := threshold |}
      = (log, HTTPException 400 (Py.str e)).
Proof.
  intros H. split.
  - unfold embed. cbn [image_base64]. rewrite H. reflexivity.
  - intros t ts threshold. unfold verify.
    cbn [req_templates_b64 req_image_base64]. rewrite H. reflexivity.
Qed.

(** X1.  A payload that holds nothing but white space is refused as
    "empty image" only when it is the empty string; otherwise it passes the
    emptiness check, decodes to no bytes, and the image decoder is called
    with the empty buffer. *)
Theorem blank_image_is_refused_only_when_empty (s : string) :
  strip s = ""%string ->
  decode_base64_image cv2_imdecode s
  = if String.eqb s ""
    then ([], Raise (ValueError "empty image"))
    else ([CallImdecode []],
          match cv2_imdecode [] with
          | Ok (Some img) => Ok img
          | Ok None => Raise (ValueError "invalid image bytes")
          | Raise e => Raise e
          end).
Proof.
  intros Hs. rewrite decode_base64_image_unfold.
  destruct (String.eqb s ""); [reflexivity |].
  unfold base64_part. rewrite Hs. reflexivity.
Qed.

(** X2.  A payload that, stripped, starts with [data:] and contains no
    comma makes both handlers answer 400 with the message of the
    IndexError of [s.split(",", 1)[1]], before any call of the image
    decoder or the face model. *)
Theorem data_url_without_comma_is_refused (s : string) :
  startswith "data:" (strip s) = true ->
  has_comma (strip s) = false ->
  embed cv2_imdecode face_app_get {| image_base64 := s |}
  = ([], HTTPException 400 "list index out of range")
  /\ forall t ts threshold,
      verify cv2_imdecode face_app_get
             {| req_image_base64 := s; req_templates_b64 := t :: ts;
                req_threshold := threshold |}
      = ([], HTTPException 400 "list index out of range").
Proof.
  intros Hdata Hcomma.
  apply (@handlers_of_decode_raise s [] (IndexError "list index out of range")).
  rewrite decode_base64_image_unfold.
  destruct (String.eqb_spec s "") as [-> | _]; [discriminate Hdata |].
  unfold base64_part.
  rewrite Hdata, (Strings.after_first_comma_no_comma _ Hcomma). reflexivity.
Qed.

(** X3.  A data URL [data:<head>,<tail>] whose head has no comma is decoded
    as its base64 text [tail] alone is, when [tail] is not empty, does not
    begin with white space and does not itself begin with [data:]. *)
Theorem data_url_prefix_is_discarded (head tail : string) :
  has_comma head = false ->
  tail <> ""%string ->
  lstrip tail = tail ->
  startswith "data:" tail = false ->
  decode_base64_image cv2_imdecode ("data:" ++ head ++ String "," tail)%string
  = decode_base64_image cv2_imdecode tail.
Proof.
  intros Hcomma Hne Hl Hdata.
  rewrite !decode_base64_image_unfold.
  destruct (String.eqb_spec tail "") as [E | _]; [contradiction |].
  change (String.eqb ("data:" ++ head ++ String "," tail) "") with false. cbv iota.
  rewrite (Strings.base64_part_data_url _ tail Hcomma).
  rewrite (Strings.base64_part_bare Hl Hdata). reflexivity.
Qed.

(** [probe_of] call by call. *)
Lemma probe_of_unfold (s : string) :
  probe_of cv2_imdecode face_app_get s
  = match decode_base64_image cv2_imdecode s with
    | (log, Raise e) => (log, Raise e)
    | (log, Ok img) =>
        (log ++ [CallFaceGet img],
         (faces <- face_app_get img ;;
          f <- primary_face faces ;;
          match embedding f with
          | None => Raise (ValueError "embedding empty")
          | Some emb =>
              if (List.length emb =? 0)%nat then Raise (ValueError "embedding empty")
              else Ok (normalize emb)
          end)%py)
    end.
Proof.
  unfold probe_of.
  destruct (decode_base64_image cv2_imdecode s) as [log [img | e]];
    cbn [io_bind]; [| reflexivity].
  rewrite Selection.get_single_face_embedding_unfold. reflexivity.
Qed.

(** The calls [probe_of] makes: none, the image decoder alone when it does
    not return an image, or the image decoder and then the face model. *)
Lemma probe_of_calls (s : string) :
  let log := fst (probe_of cv2_imdecode face_app_get s) in
  let r := snd (probe_of cv2_imdecode face_app_get s) in
  (log = [] /\ exists e, r = Raise e)
  \/ (exists buf,
         log = [CallImdecode buf]
         /\ (forall img, cv2_imdecode buf <> Ok (Some img))
         /\ exists e, r = Raise e)
  \/ (exists buf img,
         log = [CallImdecode buf; CallFaceGet img]
         /\ cv2_imdecode buf = Ok (Some img)).
Proof.
  rewrite probe_of_unfold, decode_base64_image_unfold.
  destruct (String.eqb s ""); [left; cbn; eauto |].
  destruct (base64_part s) as [t | e]; [| left; cbn; eauto].
  destruct (Base64.b64decode t) as [buf | e]; [| left; cbn; eauto].
  destruct (cv2_imdecode buf) as [[img |] | e] eqn:E.
  - right. right. exists buf, img. cbn. auto.
  - right. left. exists buf. cbn.
    split; [reflexivity | split; [intros img H; congruence | eauto]].
  - right. left. exists buf. cbn.
    split; [reflexivity | split; [intros img H; congruence | eauto]].
Qed.

(** [embed] in terms of the probe. *)
Lemma embed_unfold (req : EmbedReq) :
  embed cv2_imdecode face_app_get req
  = (fst (probe_of cv2_imdecode face_app_get (image_base64 req)),
     http_400 (probe <- snd (probe_of cv2_imdecode face_app_get (image_base64 req)) ;;
               Ok {| model := MODEL; embedding_b64 := emb_to_b64 probe |})%py).
Proof.
  unfold embed, probe_of.
  destruct (decode_base64_image cv2_imdecode (image_base64 req)) as [l1 [img | e]];
    cbn [io_bind fst snd Py.bind http_400]; [| reflexivity].
  destruct (get_single_face_embedding face_app_get img) as [l2 [probe | e]];
    cbn [io_bind io_ret fst snd Py.bind http_400]; rewrite ?app_nil_r; reflexivity.
Qed.

(** X4.  The external calls of a request are: none; or the image decoder
    alone, when it did not return an image; or the image decoder and then
    the face model, once each, the model on the image the decoder
    returned.  [verify] makes the calls [embed] makes for the same payload,
    unless the template list is empty, when it makes none.  A handler that
    answers with a body has made both calls. *)
Theorem handlers_call_decoder_then_model
        (payload : string) (templates : list string) (threshold : option pyfloat) :
  let ereq := {| image_base64 := payload |} in
  let vreq := {| req_image_base64 := payload; req_templates_b64 := templates;
                 req_threshold := threshold |} in
  let log := fst (embed cv2_imdecode face_app_get ereq) in
  (log = []
   \/ (exists buf,
          log = [CallImdecode buf] /\ forall img, cv2_imdecode buf <> Ok (Some img))
   \/ (exists buf img,
          log = [CallImdecode buf; CallFaceGet img]
          /\ cv2_imdecode buf = Ok (Some img)))
  /\ fst (verify cv2_imdecode face_app_get vreq)
     = match templates with [] => [] | _ :: _ => log end
  /\ (forall res,
         snd (embed cv2_imdecode face_app_get ereq) = Body res ->
         exists buf img, log = [CallImdecode buf; CallFaceGet img])
  /\ (forall res,
         snd (verify cv2_imdecode face_app_get vreq) = Body res ->
         exists buf img,
           fst (verify cv2_imdecode face_app_get vreq)
           = [CallImdecode buf; CallFaceGet img]).
Proof.
  intros ereq vreq log. subst log.
  rewrite embed_unfold, verify_unfold. subst ereq vreq.
  cbn [image_base64 req_image_base64 req_templates_b64 fst snd].
  pose proof (probe_of_calls payload) as Hcalls. cbv zeta in Hcalls.
  destruct (probe_of cv2_imdecode face_app_get payload) as [log r].
  cbn [fst snd] in *.
  assert (Hok : forall probe, r = Ok probe ->
                  exists buf img, log = [CallImdecode buf; CallFaceGet img]).
  { intros probe ->.
    destruct Hcalls as [[_ [e He]] | [(buf & _ & _ & [e He]) | (buf & img & Hl & _)]];
      try discriminate. eauto. }
  split; [| split; [| split]].
  - destruct Hcalls as [[Hl _] | [(buf & Hl & Hn & _) | (buf & img & Hl & Hd)]].
    + left. exact Hl.
    + right. left. exists buf. split; assumption.
    + right. right. exists buf, img. split; assumption.
  - destruct templates; reflexivity.
  - intros res Hres. destruct r as [probe | e]; [eauto | discriminate].
  - intros res Hres. destruct templates as [| t ts]; [discriminate |].
    cbn [fst snd] in *.
    destruct r as [probe | e]; [eauto | discriminate].
Qed.

(** X5.  [embed] answers with a body exactly when the payload is not
    empty, its base64 text decodes, the image decoder returns an image, the
    face model returns detections without raising, and the primary face
    carries an embedding that is not empty; the body is then the model
    name and the transport string of the normalized embedding, and the
    calls are the two external calls. *)
Theorem embed_succeeds_iff
        (payload : string) (log : list (event image)) (res : EmbedRes) :
  embed cv2_imdecode face_app_get {| image_base64 := payload |} = (log, Body res)
  <-> exists t buf img faces f emb,
      payload <> ""%string
      /\ base64_part payload = Ok t
      /\ Base64.b64decode t = Ok buf
      /\ cv2_imdecode buf = Ok (Some img)
      /\ face_app_get img = Ok faces
      /\ primary_face faces = Ok f
      /\ embedding f = Some emb
      /\ emb <> []
      /\ log = [CallImdecode buf; CallFaceGet img]
      /\ res = {| model := "insightface/buffalo_l";
                  embedding_b64 := emb_to_b64 (normalize emb) |}.
Proof.
  rewrite embed_unfold. cbn [image_base64].
  rewrite probe_of_unfold, decode_base64_image_unfold.
  split.
  - destruct (String.eqb_spec payload "") as [-> | Hne]; [discriminate |].
    destruct (base64_part payload) as [t | e] eqn:Ht; [| discriminate].
    destruct (Base64.b64decode t) as [buf | e] eqn:Hb; [| discriminate].
    destruct (cv2_imdecode buf) as [[img |] | e] eqn:Hi; [| discriminate | discriminate].
    cbn [fst snd app].
    destruct (face_app_get img) as [faces | e] eqn:Hf; [| discriminate].
    cbn [Py.bind].
    destruct (primary_face faces) as [f | e] eqn:Hp; [| discriminate].
    cbn [Py.bind].
    destruct (embedding f) as [emb |] eqn:He; [| discriminate].
    destruct emb as [| x emb]; [discriminate |].
    cbn [List.length Nat.eqb Py.bind http_400].
    intros H. inversion H; subst; clear H.
    exists t, buf, img, faces, f, (x :: emb).
    repeat (split; [first [assumption | reflexivity | discriminate] |]).
    reflexivity.
  - intros (t & buf & img & faces & f & emb & Hne & Ht & Hb & Hi & Hf & Hp & He & Hn & -> & ->).
    destruct (String.eqb_spec payload "") as [E | _]; [contradiction |].
    rewrite Ht, Hb, Hi. cbn [fst snd app]. rewrite Hf. cbn [Py.bind].
    rewrite Hp. cbn [Py.bind]. rewrite He.
    destruct emb as [| x emb]; [congruence |]. reflexivity.
Qed.

(** X6.  The image is checked before the templates: when [embed] answers
    a payload with an exception, [verify] answers every request with that
    payload and at least one template with the same exception, after the
    same calls, whatever the templates and the threshold are. *)
Theorem verify_reports_image_errors_first
        (payload : string) (log : list (event image)) (status : nat) (detail : string) :
  embed cv2_imdecode face_app_get {| image_base64 := payload |}
  = (log, HTTPException status detail) ->
  forall t ts threshold,
    verify cv2_imdecode face_app_get
           {| req_image_base64 := payload; req_templates_b64 := t :: ts;
              req_threshold := threshold |}
    = (log, HTTPException status detail).
Proof.
  rewrite embed_unfold. cbn [image_base64]. intros H t ts threshold.
  rewrite verify_unfold. cbn [req_image_base64 req_templates_b64].
  destruct (probe_of cv2_imdecode face_app_get payload) as [l [probe | e]];
    cbn [fst snd Py.bind http_400] in *; [discriminate |].
  inversion H; subst. reflexivity.
Qed.

(** After the sort, [faces[0]] exists and is one of the detections. *)
Lemma primary_face_of_cons (f0 : Face float32) (faces : list (Face float32)) :
  exists f, primary_face (f0 :: faces) = Ok f /\ In f (f0 :: faces).
Proof.
  unfold primary_face.
  destruct (sort_reverse area f32_ltb (f0 :: faces)) as [| f rest] eqn:E.
  - exfalso. unfold sort_reverse in E.
    assert (H : In f0 (rev (sort_ascending area f32_ltb (rev (f0 :: faces))))).
    { rewrite <- in_rev. apply Selection.sort_ascending_In. rewrite <- in_rev.
      left. reflexivity. }
    rewrite E in H. destruct H.
  - exists f. split; [reflexivity |].
    assert (H : In f (sort_reverse area f32_ltb (f0 :: faces)))
      by (rewrite E; left; reflexivity).
    unfold sort_reverse in H. rewrite <- in_rev in H.
    apply Selection.sort_ascending_In in H. rewrite <- in_rev in H. exact H.
Qed.

(** X7.  When the face model returns its detections,
    [get_single_face_embedding] has made that one call and: raises "no face
    detected" for the empty list; otherwise picks one of the detections
    (indexing the sorted list never fails), raises "embedding empty" when
    that face has no embedding or an empty one, whatever the other faces
    carry, and else returns that face's embedding normalized, an array of
    the same length. *)
Theorem get_single_face_embedding_outcomes (img : image) (faces : list (Face float32)) :
  face_app_get img = Ok faces ->
  exists r,
    get_single_face_embedding face_app_get img = ([CallFaceGet img], r)
    /\ ((faces = [] /\ r = Raise (ValueError "no face detected"))
        \/ exists f,
            In f faces
            /\ primary_face faces = Ok f
            /\ (((embedding f = None \/ embedding f = Some [])
                 /\ r = Raise (ValueError "embedding empty"))
                \/ exists emb,
                    embedding f = Some emb /\ emb <> []
                    /\ r = Ok (normalize emb)
                    /\ List.length (normalize emb) = List.length emb)).
Proof.
  intros Hf. rewrite Selection.get_single_face_embedding_unfold, Hf. cbn [Py.bind].
  eexists. split; [reflexivity |].
  destruct faces as [| f0 faces]; [left; split; reflexivity | right].
  destruct (primary_face_of_cons f0 faces) as [f [Hp Hin]].
  exists f. split; [exact Hin | split; [exact Hp |]].
  rewrite Hp. cbn [Py.bind].
  destruct (embedding f) as [[| x emb] |] eqn:He.
  - left. split; [right; reflexivity | reflexivity].
  - right. exists (x :: emb).
    split; [reflexivity | split; [discriminate | split; [reflexivity |]]].
    apply Requests.normalize_length.
  - left. split; [left; reflexivity | reflexivity].
Qed.

End Calls.

Import IEEE Fixture.

(** X1, witness: a payload of one space. *)
Lemma blank_image_is_refused_only_when_empty_witness :
  strip " " = ""%string
  /\ decode_base64_image Sample.stub_imdecode " " = ([CallImdecode []], Ok []).
Proof.
  split; [reflexivity |].
  exact (@blank_image_is_refused_only_when_empty _ Sample.stub_imdecode " " eq_refl).
Defined.

(** X2, witness: a data URL cut before its comma. *)
Lemma data_url_without_comma_is_refused_witness :
  startswith "data:" (strip "data:image/png;base64") = true
  /\ has_comma (strip "data:image/png;base64") = false
  /\ embed Sample.stub_imdecode face_34 {| image_base64 := "data:image/png;base64" |}
     = ([], HTTPException 400 "list index out of range").
Proof.
  split; [reflexivity | split; [reflexivity |]].
  exact (proj1 (@data_url_without_comma_is_refused
                  IEEE.numpy IEEE.buffer _ Sample.stub_imdecode face_34
                  "data:image/png;base64" eq_refl eq_refl)).
Defined.

(** X3, witness: the data URL of the text [AAAA]. *)
Lemma data_url_prefix_is_discarded_witness :
  has_comma "image/png;base64" = false
  /\ "AAAA"%string <> ""%string
  /\ lstrip "AAAA" = "AAAA"%string
  /\ startswith "data:" "AAAA" = false
  /\ decode_base64_image Sample.stub_imdecode "data:image/png;base64,AAAA"
     = decode_base64_image Sample.stub_imdecode "AAAA".
Proof.
  assert (Hne : "AAAA"%string <> ""%string) by discriminate.
  split; [reflexivity | split; [exact Hne | split; [reflexivity | split; [reflexivity |]]]].
  exact (@data_url_prefix_is_discarded _ Sample.stub_imdecode
           "image/png;base64" "AAAA" eq_refl Hne eq_refl eq_refl).
Defined.

(** X6, witness: the empty payload. *)
Lemma verify_reports_image_errors_first_witness :
  embed Sample.stub_imdecode face_34 {| image_base64 := "" |}
  = ([], HTTPException 400 "empty image")
  /\ verify Sample.stub_imdecode face_34
            {| req_image_base64 := ""; req_templates_b64 := [template_34];
               req_threshold := None |}
     = ([], HTTPException 400 "empty image").
Proof.
  split; [reflexivity |].
  exact (@verify_reports_image_errors_first
           IEEE.numpy IEEE.buffer _ Sample.stub_imdecode face_34
           "" [] 400 "empty image" eq_refl template_34 [] None).
Defined.

(** X7, witness: one detection with the embedding (3, 4). *)
Lemma get_single_face_embedding_outcomes_witness :
  face_34 [] = Ok [Sample.square_face 10 (Some short_34)]
  /\ exists r,
      get_single_face_embedding face_34 [] = ([CallFaceGet []], r)
      /\ exists f emb,
          primary_face [Sample.square_face 10 (Some short_34)] = Ok f
          /\ embedding f = Some emb
          /\ r = Ok (normalize emb).
Proof.
  split; [reflexivity |].
  destruct (@get_single_face_embedding_outcomes
              IEEE.numpy _ face_34 [] [Sample.square_face 10 (Some short_34)] eq_refl)
    as [r [Hr Hcases]].
  exists r. split; [exact Hr |].
  destruct Hcases as [[Hnil _] | [f [_ [Hp [[Hnone Hraise] | [emb [He [_ [Hok _]]]]]]]]].
  - discriminate Hnil.
  - exfalso. vm_compute in Hp. inversion Hp; subst f. clear Hp.
    destruct Hnone as [H | H]; discriminate H.
  - exists f, emb. split; [exact Hp | split; [exact He | exact Hok]].
Defined.

End Payloads.

(** ** The transport strings of embeddings *)

Module Transport.

Import Base64 IEEE Text Fixture.

Lemma b64encode_length (bs : list byte) :
  String.length (b64encode bs) = (4 * ((List.length bs + 2) / 3))%nat.
Proof.
  induction bs as [| a | a b | a b c rest IH] using Codec.bytes_ind3.
  - reflexivity.
  - reflexivity.
  - reflexivity.
  - rewrite Codec.b64encode_group. cbn [String.length List.length].
    rewrite IH.
    replace (S (S (S (List.length rest))) + 2)%nat
      with (List.length rest + 2 + 1 * 3)%nat by lia.
    rewrite Nat.div_add by discriminate. lia.
Qed.

(** X8.  The transport string of an embedding of [n] float32 values has
    [4 * ceil(4n / 3)] characters, all of them ASCII: 2732 for the model's
    512 values. *)
Theorem emb_to_b64_length (v : list binary32) :
  String.length (emb_to_b64 (np := IEEE.numpy) v)
  = (4 * ((4 * List.length v + 2) / 3))%nat
  /\ is_ascii (emb_to_b64 (np := IEEE.numpy) v) = true
  /\ (List.length v = Sample.L ->
      String.length (emb_to_b64 (np := IEEE.numpy) v) = 2732%nat).
Proof.
  assert (H : String.length (emb_to_b64 (np := IEEE.numpy) v)
              = (4 * ((4 * List.length v + 2) / 3))%nat).
  { unfold emb_to_b64. rewrite b64encode_length, RoundTrip.tobytes_length. reflexivity. }
  split; [exact H | split].
  - apply Codec.is_ascii_b64encode.
  - intros HL. rewrite H, HL. reflexivity.
Qed.

(** X9.  Two embeddings have the same transport string exactly when they
    are the same array, bit for bit. *)
Theorem emb_to_b64_injective (v w : list binary32) :
  emb_to_b64 (np := IEEE.numpy) v = emb_to_b64 (np := IEEE.numpy) w <-> v = w.
Proof.
  split; [| intros ->; reflexivity].
  unfold emb_to_b64. intros H.
  assert (Hb : tobytes (np := IEEE.numpy) v = tobytes (np := IEEE.numpy) w).
  { pose proof (Codec.b64decode_b64encode (tobytes (np := IEEE.numpy) v)) as Hv.
    rewrite H, Codec.b64decode_b64encode in Hv. congruence. }
  rewrite <- (RoundTrip.chunks4_tobytes v), <- (RoundTrip.chunks4_tobytes w), Hb.
  reflexivity.
Qed.

(** The decoder steps over a character outside the alphabet, in every
    state. *)
Lemma a2b_loop_ignored (c : ascii) (a b : string) :
  ignored c = true ->
  forall quad_pos leftchar pads acc,
    a2b_loop (a ++ String c b) quad_pos leftchar pads acc
    = a2b_loop (a ++ b) quad_pos leftchar pads acc.
Proof.
  unfold ignored. intros Hc.
  apply andb_prop in Hc. destruct Hc as [Hpad Hdata].
  apply negb_true_iff in Hpad.
  induction a as [| x a IH]; intros quad_pos leftchar pads acc.
  - cbn [append a2b_loop]. rewrite Hpad.
    destruct (table_a2b c); [discriminate | reflexivity].
  - cbn [append a2b_loop].
    destruct (Ascii.eqb x "=").
    + destruct (2 <=? quad_pos)%N; [| apply IH].
      destruct (4 <=? quad_pos + (pads + 1))%N; [reflexivity | apply IH].
    + destruct (table_a2b x); [| apply IH].
      destruct (quad_pos =? 0)%N; [apply IH |].
      destruct (quad_pos =? 1)%N; [apply IH |].
      destruct (quad_pos =? 2)%N; apply IH.
Qed.

Lemma is_ascii_app (a b : string) :
  is_ascii (a ++ b) = is_ascii a && is_ascii b.
Proof.
  induction a as [| x a IH]; [reflexivity |].
  cbn [append is_ascii]. rewrite IH, andb_assoc. reflexivity.
Qed.

Section Noise.

Context {np : Numpy} {nb : NumpyBuffer np}.

(** X10.  An ASCII character that is neither in the base64 alphabet nor
    the pad (a line break, a blank, a quote) is skipped wherever it stands
    in a template: the template decodes as it does without it. *)
Theorem template_noise_is_skipped (c : ascii) (a b : string) :
  ignored c = true ->
  (Py.code c <? 128)%N = true ->
  b64decode (a ++ String c b) = b64decode (a ++ b)
  /\ b64_to_emb (a ++ String c b) = b64_to_emb (a ++ b).
Proof.
  intros Hc Hascii.
  assert (E : b64decode (a ++ String c b) = b64decode (a ++ b)).
  { unfold b64decode. rewrite !is_ascii_app. cbn [is_ascii]. rewrite Hascii.
    cbn [andb]. rewrite (@a2b_loop_ignored c a b Hc). reflexivity. }
  split; [exact E |]. unfold b64_to_emb. rewrite E. reflexivity.
Qed.

End Noise.

Lemma a2b_loop_padded1 (a : byte) (junk : string) (acc : list byte) :
  a2b_loop (b64encode [a] ++ junk) 0 0 0 acc = Ok (rev (a :: acc)).
Proof.
  rewrite Codec.b64encode_last1. cbn [append].
  rewrite (Codec.a2b_loop_data _ _ _ _ _ _ (Codec.data_char_sextet1 a)). cbn [N.eqb].
  rewrite (Codec.a2b_loop_data _ _ _ _ _ _ (Codec.data_char_sextet2_last a)).
  change (1 =? 0)%N with false. change (1 =? 1)%N with true. cbv iota.
  rewrite (Codec.byte_eqb_eq _ _ (Codec.rebuild1_last a)).
  reflexivity.
Qed.

Lemma a2b_loop_padded2 (a b : byte) (junk : string) (acc : list byte) :
  a2b_loop (b64encode [a; b] ++ junk) 0 0 0 acc = Ok (rev (b :: a :: acc)).
Proof.
  rewrite Codec.b64encode_last2. cbn [append].
  rewrite (Codec.a2b_loop_data _ _ _ _ _ _ (Codec.data_char_sextet1 a)). cbn [N.eqb].
  rewrite (Codec.a2b_loop_data _ _ _ _ _ _ (Codec.data_char_sextet2 a b)).
  change (1 =? 0)%N with false. change (1 =? 1)%N with true. cbv iota.
  rewrite (Codec.byte_eqb_eq _ _ (Codec.rebuild1 a b)).
  rewrite (Codec.a2b_loop_data _ _ _ _ _ _ (Codec.data_char_sextet3_last b)).
  change (2 =? 0)%N with false. change (2 =? 1)%N with false.
  change (2 =? 2)%N with true. cbv iota.
  rewrite (proj1 (N.eqb_eq _ _) (Codec.sextet2_low a b)).
  rewrite (proj1 (N.eqb_eq _ _) (Codec.sextet3_last_high b)).
  rewrite (Codec.byte_eqb_eq _ _ (Codec.rebuild2 b)).
  reflexivity.
Qed.

(** After the pad of a padded encoding the decoder reads nothing. *)
Lemma a2b_loop_b64encode_padded (junk : string) (bs : list byte) :
  (List.length bs mod 3 <> 0)%nat ->
  forall acc, a2b_loop (b64encode bs ++ junk) 0 0 0 acc = Ok (rev acc ++ bs)%list.
Proof.
  induction bs as [| a | a b | a b c rest IH] using Codec.bytes_ind3; intros Hlen acc.
  - contradiction Hlen. reflexivity.
  - rewrite a2b_loop_padded1. reflexivity.
  - rewrite a2b_loop_padded2. cbn [rev]. rewrite <- !app_assoc. reflexivity.
  - rewrite Codec.b64encode_group. cbn [append].
    rewrite Codec.a2b_loop_group, IH.
    + cbn [rev]. rewrite <- !app_assoc. reflexivity.
    + intros H. apply Hlen. cbn [List.length].
      replace (S (S (S (List.length rest)))) with (List.length rest + 1 * 3)%nat by lia.
      rewrite Nat.Div0.mod_add. exact H.
Qed.

(** X11.  When the number of values of an embedding is not a multiple of 3
    (as for the model's 512), its transport string ends with a pad, and
    whatever ASCII text follows that pad in a template is not read: the
    template decodes to the normalized embedding all the same. *)
Theorem template_tail_after_pad_is_ignored (v : list binary32) (junk : string) :
  (List.length v mod 3 <> 0)%nat ->
  is_ascii junk = true ->
  b64_to_emb (np := IEEE.numpy) (emb_to_b64 (np := IEEE.numpy) v ++ junk)
  = Ok (normalize (np := IEEE.numpy) v).
Proof.
  intros Hlen Hjunk. unfold b64_to_emb, emb_to_b64, b64decode.
  rewrite is_ascii_app, Codec.is_ascii_b64encode, Hjunk. cbn [andb].
  rewrite a2b_loop_b64encode_padded.
  - cbn [rev app Py.bind]. rewrite RoundTrip.frombuffer_tobytes. reflexivity.
  - rewrite RoundTrip.tobytes_length.
    replace (4 * List.length v)%nat with (List.length v + List.length v * 3)%nat by lia.
    rewrite Nat.Div0.mod_add. exact Hlen.
Qed.

(** X10, witness: a line feed inside the transport string of (1.0). *)
Lemma template_noise_is_skipped_witness :
  ignored "010" = true
  /\ (Py.code "010" <? 128)%N = true
  /\ b64_to_emb (np := IEEE.numpy) ("AACAPw" ++ String "010" "==")
     = b64_to_emb (np := IEEE.numpy) ("AACAPw" ++ "==").
Proof.
  split; [reflexivity | split; [reflexivity |]].
  exact (proj2 (@template_noise_is_skipped IEEE.numpy IEEE.buffer
                  "010" "AACAPw" "==" eq_refl eq_refl)).
Defined.

(** X11, witness: text after the transport string of (3, 4). *)
Lemma template_tail_after_pad_is_ignored_witness :
  (List.length short_34 mod 3 <> 0)%nat
  /\ is_ascii "#not read" = true
  /\ b64_to_emb (np := IEEE.numpy) (emb_to_b64 (np := IEEE.numpy) short_34 ++ "#not read")
     = Ok (normalize (np := IEEE.numpy) short_34).
Proof.
  assert (Hlen : (List.length short_34 mod 3 <> 0)%nat) by discriminate.
  split; [exact Hlen | split; [reflexivity |]].
  exact (@template_tail_after_pad_is_ignored short_34 "#not read" Hlen eq_refl).
Defined.

End Transport.

(** ** The distance *)

Module Geometry.

Import IEEE Float32 Fixture.

(** The products of numbers with zeros add up to a zero. *)
Lemma sdot_zeros_r (p : list binary32) :
  Forall (fun x => isfinite x = true) p ->
  forall acc, is_zero acc = true ->
  is_zero (fold_left
    (fun acc xy => SFadd 24 128 acc (SFmul 24 128 (SF_of_b32 (fst xy)) (SF_of_b32 (snd xy))))
    (combine p (repeat zero32 (List.length p))) acc) = true.
Proof.
  induction 1 as [| x p Hx _ IH]; intros acc Hacc; [exact Hacc |].
  cbn [List.length repeat combine fold_left fst snd]. apply IH.
  change (SF_of_b32 zero32) with (S754_zero false).
  unfold isfinite in Hx.
  destruct (SF_of_b32 x) as [sx | sx | | sx mx ex]; try discriminate;
    destruct acc as [sa | sa | | sa ma ea]; try discriminate;
    destruct sa, sx; reflexivity.
Qed.

Lemma sdot_zeros (n : nat) :
  sdot (repeat zero32 n) (repeat zero32 n) = S754_zero false.
Proof.
  unfold sdot. induction n as [| n IH]; [reflexivity |].
  cbn [repeat combine fold_left fst snd]. exact IH.
Qed.

(** The normalizer leaves an array of zeros as it is: 0 / (0 + 1e-9). *)
Lemma normalize_zeros (n : nat) :
  normalize (np := IEEE.numpy) (repeat zero32 n) = repeat zero32 n.
Proof.
  unfold normalize.
  change (linalg_norm (Numpy := IEEE.numpy) (repeat zero32 n))
    with (b32_of_SF (SFsqrt 24 128 (sdot (repeat zero32 n) (repeat zero32 n)))).
  rewrite sdot_zeros, map_repeat. f_equal.
Qed.

(* The statements below apply float32 operations to variables; inferring
   implicit arguments from them would unfold those operations. *)
Local Unset Implicit Arguments.

(** X14.  A template of zero bytes, of the probe's length, passes every
    check: it decodes to the array of zeros (the normalizer divides 0 by
    1e-9), and its distance to a probe without NaN and infinity is exactly
    1.0. *)
Theorem zero_template_is_at_distance_1 (probe : list binary32) :
  Forall (fun x => isfinite x = true) probe ->
  b64_to_emb (np := IEEE.numpy)
    (emb_to_b64 (np := IEEE.numpy) (repeat zero32 (List.length probe)))
  = Ok (repeat zero32 (List.length probe))
  /\ cosine_distance (np := IEEE.numpy) probe (repeat zero32 (List.length probe))
     = Ok (lit_1_0 (Numpy := IEEE.numpy)).
Proof.
  intros Hfin. split.
  - rewrite RoundTrip.b64_to_emb_emb_to_b64, normalize_zeros. reflexivity.
  - unfold cosine_distance, np_dot.
    change (@float32 IEEE.numpy) with binary32.
    rewrite repeat_length, Nat.eqb_refl. cbn [Py.bind]. f_equal.
    change (dot_kernel (Numpy := IEEE.numpy) probe (repeat zero32 (List.length probe)))
      with (b32_of_SF (sdot probe (repeat zero32 (List.length probe)))).
    pose proof (@sdot_zeros_r probe Hfin (S754_zero false) eq_refl) as Hz.
    fold (sdot probe (repeat zero32 (List.length probe))) in Hz.
    destruct (sdot probe (repeat zero32 (List.length probe))) as [s | | |];
      try discriminate Hz.
    destruct s; vm_compute; reflexivity.
Qed.

(** X14, witness: the probe (3, 4) and the template [AAAAAAAAAAA=]. *)
Lemma zero_template_is_at_distance_1_witness :
  Forall (fun x => isfinite x = true) short_34
  /\ emb_to_b64 (np := IEEE.numpy) (repeat zero32 (List.length short_34))
     = "AAAAAAAAAAA="%string
  /\ cosine_distance (np := IEEE.numpy) short_34 (repeat zero32 (List.length short_34))
     = Ok (lit_1_0 (Numpy := IEEE.numpy)).
Proof.
  assert (Hfin : Forall (fun x => isfinite x = true) short_34).
  { apply Forall_cons; [vm_compute; reflexivity |].
    apply Forall_cons; [vm_compute; reflexivity |]. apply Forall_nil. }
  split; [exact Hfin | split; [vm_compute; reflexivity |]].
  exact (proj2 (zero_template_is_at_distance_1 short_34 Hfin)).
Defined.

Local Set Implicit Arguments.

End Geometry.

(** ** Enrolled templates and the threshold *)

Module Enrollment.

Import IEEE FloatOrder Fixture.

Section Loop.

Context {np : Numpy} {nb : NumpyBuffer np}.

Lemma mapM_app {A B} (f : A -> Py.result B) (l1 l2 : list A) :
  Py.mapM f (l1 ++ l2)
  = (a <- Py.mapM f l1 ;; b <- Py.mapM f l2 ;; Ok (a ++ b)%list)%py.
Proof.
  induction l1 as [| x l1 IH]; cbn [app Py.mapM Py.bind].
  - destruct (Py.mapM f l2); reflexivity.
  - destruct (f x) as [y | e]; cbn [Py.bind]; [| reflexivity].
    rewrite IH. destruct (Py.mapM f l1) as [a | e]; cbn [Py.bind]; [| reflexivity].
    destruct (Py.mapM f l2) as [b | e]; reflexivity.
Qed.

(** The results over a permutation of a list are a permutation of the
    results. *)
Lemma mapM_Permutation {A B} (f : A -> Py.result B) (l l' : list A) :
  Permutation l l' ->
  forall ds, Py.mapM f l = Ok ds ->
  exists ds', Py.mapM f l' = Ok ds' /\ Permutation ds ds'.
Proof.
  induction 1 as [| x l l' _ IH | x y l | l l' l'' _ IH1 _ IH2]; intros ds H.
  - exists ds. split; [exact H | apply Permutation_refl].
  - cbn [Py.mapM] in *. destruct (f x) as [b | e]; cbn [Py.bind] in *; [| discriminate].
    destruct (Py.mapM f l) as [bs | e]; cbn [Py.bind] in *; [| discriminate].
    destruct (IH bs eq_refl) as [bs' [E P]]. rewrite E. cbn [Py.bind].
    inversion H; subst. exists (b :: bs'). split; [reflexivity | constructor; exact P].
  - cbn [Py.mapM] in *.
    destruct (f y) as [b | e]; cbn [Py.bind] in *; [| discriminate].
    destruct (f x) as [a | e]; cbn [Py.bind] in *; [| discriminate].
    destruct (Py.mapM f l) as [bs | e]; cbn [Py.bind] in *; [| discriminate].
    inversion H; subst. exists (a :: b :: bs). split; [reflexivity | constructor].
  - destruct (IH1 ds H) as [ds1 [E1 P1]].
    destruct (IH2 ds1 E1) as [ds2 [E2 P2]].
    exists ds2. split; [exact E2 | eapply Permutation_trans; eassumption].
Qed.

(** The ghost index does not influence [best]. *)
Lemma scan_from_fst (ds : list pyfloat) :
  forall i i' best k k',
    fst (scan_from ds i best k) = fst (scan_from ds i' best k').
Proof.
  induction ds as [| d ds IH]; intros i i' best k k'; cbn [scan_from]; [reflexivity |].
  destruct (py_ltb d best); apply IH.
Qed.

(** The loop over [ds1 ++ ds2] is the loop over [ds2] from where the loop
    over [ds1] ended. *)
Lemma scan_from_app (ds1 ds2 : list pyfloat) :
  forall i best k,
    fst (scan_from (ds1 ++ ds2) i best k)
    = fst (scan_from ds2 0 (fst (scan_from ds1 i best k)) None).
Proof.
  induction ds1 as [| d ds1 IH]; intros i best k; cbn [app scan_from].
  - apply scan_from_fst.
  - destruct (py_ltb d best); apply IH.
Qed.

End Loop.

Import Scan.

Lemma scan_from_below (ds : list spec_float) (b : spec_float) :
  is_nan b = false ->
  SFleb (fst (scan_from ds 0 b None)) b = true.
Proof.
  intros Hb.
  pose proof (@scan_from_inv b ds [] b None (@inv_init b Hb)) as H.
  apply (Invariant.inv_capped H).
Qed.

Lemma SFleb_antisym_l (x y z : spec_float) :
  SFleb x y = true -> SFleb y x = true -> SFleb x z = SFleb y z.
Proof.
  intros Hxy Hyx.
  destruct (SFleb x z) eqn:Hx, (SFleb y z) eqn:Hy; try reflexivity.
  - rewrite (SFleb_trans _ _ _ Hyx Hx) in Hy. discriminate.
  - rewrite (SFleb_trans _ _ _ Hxy Hy) in Hx. discriminate.
Qed.

Lemma SFleb_both_eq (x y : spec_float) :
  SFleb x y = true -> SFleb y x = true -> SFcompare x y = Some Eq.
Proof.
  unfold SFleb. rewrite (SFcompare_antisym x y).
  destruct (SFcompare x y) as [[| |] |]; simpl; congruence.
Qed.

(** The loop over a permutation of the distances ends at a [best] that is
    not above the one it ends at over the distances. *)
Lemma scan_Permutation_le (ds ds' : list spec_float) :
  Permutation ds ds' -> SFleb (fst (scan ds)) (fst (scan ds')) = true.
Proof.
  intros P.
  pose proof (scan_inv ds) as I. pose proof (scan_inv ds') as I'.
  destruct (snd (scan ds')) as [k |] eqn:Ek.
  - destruct (Invariant.inv_index I') as [Hk _].
    apply (Invariant.inv_lower I).
    + apply (Permutation_in _ (Permutation_sym P)).
      eapply nth_error_In. exact Hk.
    + apply (Invariant.inv_number I').
  - destruct (Invariant.inv_index I') as [-> _].
    apply (Invariant.inv_capped I).
Qed.

Section Verify.

Variable image : Type.
Variable cv2_imdecode : list byte -> Py.result (option image).
Variable face_app_get : image -> Py.result (list (Face binary32)).

Local Unset Implicit Arguments.

(** X15.  Enrolling more templates never loses a match: when [verify]
    succeeds for a template list and for that list followed by further
    templates (same image, same threshold), the calls are the same, the
    second best distance is not above the first, and a match of the first
    request is a match of the second. *)
Theorem more_templates_never_lose_a_match
        (payload : string) (templates more : list string)
        (threshold : option spec_float)
        (log log' : list (event image)) (res res' : VerifyRes spec_float) :
  verify cv2_imdecode face_app_get
         {| req_image_base64 := payload; req_templates_b64 := templates;
            req_threshold := threshold |} = (log, Body res) ->
  verify cv2_imdecode face_app_get
         {| req_image_base64 := payload; req_templates_b64 := templates ++ more;
            req_threshold := threshold |} = (log', Body res') ->
  log' = log
  /\ SFleb (res_best_distance res') (res_best_distance res) = true
  /\ (res_match res = true -> res_match res' = true).
Proof.
  intros H H'.
  destruct (verify_body_inv _ _ _ H) as (probe & ds & _ & Hp & Hd & Hb & Ht & Hm & _).
  destruct (verify_body_inv _ _ _ H') as (probe' & ds' & _ & Hp' & Hd' & Hb' & Ht' & Hm' & _).
  cbn [req_image_base64 req_templates_b64] in *.
  change (@pyfloat IEEE.numpy) with spec_float in *.
  rewrite Hp in Hp'. inversion Hp'; subst log' probe'. clear Hp'.
  unfold distances in Hd, Hd'. rewrite mapM_app, Hd in Hd'. cbn [Py.bind] in Hd'.
  destruct (Py.mapM (template_distance probe) more) as [ds2 | e]; [| discriminate].
  cbn [Py.bind] in Hd'. inversion Hd'; subst ds'. clear Hd'.
  change (res_best_distance res = fst (scan ds)) in Hb.
  change (res_best_distance res' = fst (scan (ds ++ ds2))) in Hb'.
  assert (Hle : SFleb (res_best_distance res') (res_best_distance res) = true).
  { assert (E : fst (scan (ds ++ ds2)) = fst (scan_from ds2 0 (fst (scan ds)) None))
      by exact (@scan_from_app IEEE.numpy ds ds2 0 lit_999_0 None).
    rewrite Hb', Hb, E. apply scan_from_below. apply (scan_inv ds). }
  split; [reflexivity | split; [exact Hle |]].
  change (res_match res = SFleb (res_best_distance res) (res_threshold res)) in Hm.
  change (res_match res' = SFleb (res_best_distance res') (res_threshold res')) in Hm'.
  rewrite Hm, Hm', Ht, Ht'. unfold threshold_used. cbn [req_threshold].
  intros Hmatch. eapply SFleb_trans; eassumption.
Qed.

(** X16.  The order of the templates does not matter: when [verify]
    succeeds for a template list it succeeds for every permutation of it
    (same image, same threshold), after the same calls, with the same
    match and threshold and a best distance that compares equal. *)
Theorem template_order_is_irrelevant
        (payload : string) (templates templates' : list string)
        (threshold : option spec_float)
        (log : list (event image)) (res : VerifyRes spec_float) :
  Permutation templates templates' ->
  verify cv2_imdecode face_app_get
         {| req_image_base64 := payload; req_templates_b64 := templates;
            req_threshold := threshold |} = (log, Body res) ->
  exists res',
    verify cv2_imdecode face_app_get
           {| req_image_base64 := payload; req_templates_b64 := templates';
              req_threshold := threshold |} = (log, Body res')
    /\ SFcompare (res_best_distance res') (res_best_distance res) = Some Eq
    /\ res_match res' = res_match res
    /\ res_threshold res' = res_threshold res.
Proof.
  intros P H.
  destruct (verify_body_inv _ _ _ H) as (probe & ds & Hne & Hp & Hd & Hb & Ht & Hm & _).
  cbn [req_image_base64 req_templates_b64] in *.
  change (@pyfloat IEEE.numpy) with spec_float in *.
  destruct (mapM_Permutation (template_distance probe) P Hd) as [ds' [Hd' Pd]].
  fold (distances probe templates') in Hd'.
  assert (Hne' : templates' <> []).
  { intros ->. apply Hne. apply Permutation_nil, Permutation_sym, P. }
  change (res_best_distance res = fst (scan ds)) in Hb.
  change (res_match res = SFleb (res_best_distance res) (res_threshold res)) in Hm.
  eexists. split; [| split; [| split]].
  - rewrite verify_unfold. cbn [req_image_base64 req_templates_b64].
    destruct templates' as [| t ts]; [contradiction |].
    rewrite Hp. cbn [fst snd Py.bind].
    rewrite (best_loop_scan probe (t :: ts) lit_999_0 0 None), Hd'.
    cbn [Py.bind http_400]. reflexivity.
  - cbn [res_best_distance]. rewrite Hb.
    apply SFleb_both_eq; apply scan_Permutation_le;
      [apply Permutation_sym |]; exact Pd.
  - cbn [res_match]. rewrite Hm, Hb, Ht.
    apply SFleb_antisym_l; apply scan_Permutation_le;
      [apply Permutation_sym |]; exact Pd.
  - cbn [res_threshold]. rewrite Ht. reflexivity.
Qed.

(** X17.  The threshold enters the decision only: [verify] with another
    threshold succeeds after the same calls with the same best distance
    and reports the new threshold, and a request that matched still
    matches under every threshold that is not below the old one. *)
Theorem match_is_monotone_in_threshold
        (payload : string) (templates : list string) (thr thr' : spec_float)
        (log : list (event image)) (res : VerifyRes spec_float) :
  verify cv2_imdecode face_app_get
         {| req_image_base64 := payload; req_templates_b64 := templates;
            req_threshold := Some thr |} = (log, Body res) ->
  exists res',
    verify cv2_imdecode face_app_get
           {| req_image_base64 := payload; req_templates_b64 := templates;
              req_threshold := Some thr' |} = (log, Body res')
    /\ res_best_distance res' = res_best_distance res
    /\ res_threshold res' = thr'
    /\ (SFleb thr thr' = true -> res_match res = true -> res_match res' = true).
Proof.
  intros H.
  destruct (verify_body_inv _ _ _ H) as (probe & ds & Hne & Hp & Hd & Hb & Ht & Hm & _).
  cbn [req_image_base64 req_templates_b64] in *.
  change (@pyfloat IEEE.numpy) with spec_float in *.
  change (res_match res = SFleb (res_best_distance res) (res_threshold res)) in Hm.
  eexists. split; [| split; [| split]].
  - rewrite verify_unfold. cbn [req_image_base64 req_templates_b64].
    destruct templates as [| t ts]; [contradiction |].
    rewrite Hp. cbn [fst snd Py.bind].
    rewrite (best_loop_scan probe (t :: ts) lit_999_0 0 None), Hd.
    cbn [Py.bind http_400]. reflexivity.
  - cbn [res_best_distance]. symmetry. exact Hb.
  - reflexivity.
  - cbn [res_match]. unfold threshold_used. cbn [req_threshold].
    rewrite Hm, Ht. unfold threshold_used. cbn [req_threshold].
    intros Hthr Hmatch. rewrite Hb in Hmatch.
    exact (SFleb_trans _ _ _ Hmatch Hthr).
Qed.

End Verify.

(** X15, witness: the probe (3, 4) against the template of (4, 3), and
    against that template followed by its own. *)
Lemma more_templates_never_lose_a_match_witness :
  exists log res res',
    verify Sample.stub_imdecode face_34 (Sample.request [template_43] None)
    = (log, Body res)
    /\ verify Sample.stub_imdecode face_34
              (Sample.request ([template_43] ++ [template_34]) None)
       = (log, Body res')
    /\ SFleb (res_best_distance res') (res_best_distance res) = true
    /\ (res_match res = true -> res_match res' = true).
Proof.
  refine (ex_intro _ ?[log] (ex_intro _ ?[res] (ex_intro _ ?[res'] _))).
  assert (H : verify Sample.stub_imdecode face_34 (Sample.request [template_43] None)
              = (?log, Body ?res)).
  { vm_compute. reflexivity. }
  split; [exact H |].
  match goal with |- ?A /\ _ => assert (H' : A) by (vm_compute; reflexivity) end.
  split; [exact H' |].
  exact (proj2 (more_templates_never_lose_a_match
                  _ Sample.stub_imdecode face_34
                  "AAAA" [template_43] [template_34] None _ _ _ _ H H')).
Defined.

(** X16, witness: the two templates in both orders. *)
Lemma template_order_is_irrelevant_witness :
  Permutation [template_43; template_34] [template_34; template_43]
  /\ exists log res res',
      verify Sample.stub_imdecode face_34
             (Sample.request [template_43; template_34] None) = (log, Body res)
      /\ verify Sample.stub_imdecode face_34
                (Sample.request [template_34; template_43] None) = (log, Body res')
      /\ res_match res' = res_match res.
Proof.
  assert (P : Permutation [template_43; template_34] [template_34; template_43])
    by apply perm_swap.
  split; [exact P |].
  refine (ex_intro _ ?[log] (ex_intro _ ?[res] _)).
  assert (H : verify Sample.stub_imdecode face_34
                     (Sample.request [template_43; template_34] None)
              = (?log, Body ?res)).
  { vm_compute. reflexivity. }
  destruct (template_order_is_irrelevant
              _ Sample.stub_imdecode face_34
              "AAAA" _ _ None _ _ P H) as [res' [H' [_ [Hm _]]]].
  exists res'. split; [exact H | split; [exact H' | exact Hm]].
Defined.

(** X17, witness: the probe against its own template, matched at
    threshold 0.0, and the default threshold 0.45. *)
Lemma match_is_monotone_in_threshold_witness :
  exists log res res',
    verify Sample.stub_imdecode face_34
           (Sample.request [template_34] (Some (S754_zero false))) = (log, Body res)
    /\ verify Sample.stub_imdecode face_34
              (Sample.request [template_34] (Some (lit_0_45 (Numpy := IEEE.numpy))))
       = (log, Body res')
    /\ SFleb (S754_zero false) (lit_0_45 (Numpy := IEEE.numpy)) = true
    /\ res_match res = true
    /\ res_match res' = true.
Proof.
  refine (ex_intro _ ?[log] (ex_intro _ ?[res] _)).
  assert (H : verify Sample.stub_imdecode face_34
                     (Sample.request [template_34] (Some (S754_zero false)))
              = (?log, Body ?res)).
  { vm_compute. reflexivity. }
  destruct (match_is_monotone_in_threshold
              _ Sample.stub_imdecode face_34
              "AAAA" [template_34] (S754_zero false) (lit_0_45 (Numpy := IEEE.numpy))
              _ _ H) as [res' [H' [_ [_ Hm]]]].
  assert (Hthr : SFleb (S754_zero false) (lit_0_45 (Numpy := IEEE.numpy)) = true)
    by (vm_compute; reflexivity).
  exists res'.
  split; [exact H | split; [exact H' | split; [exact Hthr | split; [reflexivity |]]]].
  exact (Hm Hthr eq_refl).
Defined.

End Enrollment.

(** ** Templates that fail, and probes that are not numbers *)

Module Failures.

Import IEEE FloatOrder Fixture.

Section FirstFailure.

Context {np : Numpy} {nb : NumpyBuffer np}.
Variable image : Type.
Variable cv2_imdecode : list byte -> Py.result (option image).
Variable face_app_get : image -> Py.result (list (Face float32)).

(** The loop gets past templates whose iterations do not raise, and stops
    at the first one that does. *)
Lemma best_loop_stops_at_first_failure
      (probe : list float32) (good : list string) (bad : string) (rest : list string)
      (e : Py.exn) :
  Forall (fun t => exists d, template_distance probe t = Ok d) good ->
  template_distance probe bad = Raise e ->
  forall best, best_loop probe (good ++ bad :: rest) best = Raise e.
Proof.
  intros Hgood Hbad. induction Hgood as [| t good [d Hd] _ IH]; intros best.
  - apply (Requests.best_loop_raises_first _ _ Hbad).
  - cbn [app best_loop]. unfold template_distance in Hd.
    destruct (b64_to_emb t) as [emb | e1]; cbn [Py.bind] in *; [| discriminate].
    rewrite Hd. cbn [Py.bind]. apply IH.
Qed.

(** X18.  Of several templates that fail, the first one decides: when the
    probe was obtained and the templates before [bad] all give a distance,
    [verify] answers 400 with the message of the exception [bad] raises,
    whatever follows [bad] in the list. *)
Theorem verify_reports_first_failing_template
        (payload : string) (good : list string) (bad : string) (rest : list string)
        (threshold : option pyfloat)
        (log : list (event image)) (probe : list float32) (e : Py.exn) :
  probe_of cv2_imdecode face_app_get payload = (log, Ok probe) ->
  Forall (fun t => exists d, template_distance probe t = Ok d) good ->
  template_distance probe bad = Raise e ->
  verify cv2_imdecode face_app_get
         {| req_image_base64 := payload; req_templates_b64 := good ++ bad :: rest;
            req_threshold := threshold |}
  = (log, HTTPException 400 (Py.str e)).
Proof.
  intros Hp Hgood Hbad. rewrite verify_unfold.
  cbn [req_image_base64 req_templates_b64].
  destruct (good ++ bad :: rest) as [| t0 ts] eqn:E.
  - destruct good; discriminate E.
  - rewrite Hp, <- E. cbn [fst snd Py.bind].
    rewrite (@best_loop_stops_at_first_failure probe good bad rest e Hgood Hbad). reflexivity.
Qed.

End FirstFailure.

(** A NaN among the factors makes the inner product NaN. *)
Lemma sdot_fold_nan (l : list (binary32 * binary32)) :
  fold_left
    (fun acc xy => SFadd 24 128 acc (SFmul 24 128 (SF_of_b32 (fst xy)) (SF_of_b32 (snd xy))))
    l S754_nan = S754_nan.
Proof. induction l as [| xy l IH]; [reflexivity | exact IH]. Qed.

Lemma SFadd_nan_r (prec emax : Z) (x : spec_float) : SFadd prec emax x S754_nan = S754_nan.
Proof. destruct x; reflexivity. Qed.

Lemma sdot_nan (a b : list binary32) (x : binary32) :
  In x a -> is_nan (SF_of_b32 x) = true -> List.length a = List.length b ->
  sdot a b = S754_nan.
Proof.
  unfold sdot. generalize (S754_zero false).
  revert b. induction a as [| y a IH]; intros b acc Hin Hx Hlen; [destruct Hin |].
  destruct b as [| z b]; [discriminate Hlen |].
  cbn [combine fold_left fst snd].
  destruct Hin as [-> | Hin].
  - destruct (SF_of_b32 x); try discriminate Hx.
    cbn [SFmul]. rewrite SFadd_nan_r. apply sdot_fold_nan.
  - apply IH; [exact Hin | exact Hx |]. cbn [List.length] in Hlen. lia.
Qed.

Local Unset Implicit Arguments.

(** The distance of a probe that holds a NaN, to any array of its
    length. *)
Lemma cosine_distance_of_nan (probe emb : list binary32) (x : binary32) :
  In x probe -> is_nan (SF_of_b32 x) = true ->
  List.length emb = List.length probe ->
  cosine_distance (np := IEEE.numpy) probe emb = Ok S754_nan.
Proof.
  intros Hin Hx Hlen. unfold cosine_distance, np_dot.
  change (@float32 IEEE.numpy) with binary32.
  rewrite Hlen, Nat.eqb_refl. cbn [Py.bind].
  change (dot_kernel (Numpy := IEEE.numpy) probe emb) with (b32_of_SF (sdot probe emb)).
  rewrite (@sdot_nan probe emb x Hin Hx (eq_sym Hlen)). vm_compute. reflexivity.
Qed.

(** The loop keeps [best] over templates whose distances are all NaN. *)
Lemma best_loop_of_nan (probe : list binary32) (x : binary32) (templates : list string) :
  In x probe -> is_nan (SF_of_b32 x) = true ->
  Forall (fun t => exists emb, b64_to_emb (np := IEEE.numpy) t = Ok emb
                               /\ List.length emb = List.length probe) templates ->
  forall best : spec_float,
    best_loop (np := IEEE.numpy) probe templates best = Ok best.
Proof.
  intros Hin Hx Hall. induction Hall as [| t ts [emb [Ht Hlen]] _ IH]; intros best.
  - reflexivity.
  - cbn [best_loop]. rewrite Ht. cbn [Py.bind].
    rewrite (cosine_distance_of_nan probe emb x Hin Hx Hlen). cbn [Py.bind].
    change (py_ltb (Numpy := IEEE.numpy) S754_nan best) with (SFltb S754_nan best).
    change (SFltb S754_nan best) with false. cbv iota. apply IH.
Qed.

(** X19.  A probe that holds a NaN never comes closer than the initial
    value: whatever templates of the probe's length are enrolled, [verify]
    succeeds with best distance 999.0, and the match is [999.0 <=
    threshold], false under the default threshold. *)
Theorem nan_probe_never_matches
        (image : Type)
        (cv2_imdecode : list byte -> Py.result (option image))
        (face_app_get : image -> Py.result (list (Face binary32)))
        (payload : string) (t : string) (ts : list string)
        (threshold : option spec_float)
        (log : list (event image)) (probe : list binary32) (x : binary32) :
  probe_of cv2_imdecode face_app_get payload = (log, Ok probe) ->
  In x probe -> is_nan (SF_of_b32 x) = true ->
  Forall (fun t => exists emb, b64_to_emb (np := IEEE.numpy) t = Ok emb
                               /\ List.length emb = List.length probe) (t :: ts) ->
  let req := {| req_image_base64 := payload; req_templates_b64 := t :: ts;
                req_threshold := threshold |} in
  verify cv2_imdecode face_app_get req
  = (log, Body {| res_match := SFleb (lit_999_0 (Numpy := IEEE.numpy)) (threshold_used req);
                  res_best_distance := lit_999_0 (Numpy := IEEE.numpy);
                  res_threshold := threshold_used req;
                  res_model := MODEL |})
  /\ (threshold = None ->
      SFleb (lit_999_0 (Numpy := IEEE.numpy)) (threshold_used req) = false).
Proof.
  intros Hp Hin Hx Hall req. split.
  - rewrite verify_unfold. subst req.
    cbn [req_image_base64 req_templates_b64].
    rewrite Hp. cbn [fst snd Py.bind].
    rewrite (best_loop_of_nan probe x (t :: ts) Hin Hx Hall). reflexivity.
  - intros ->. vm_compute. reflexivity.
Qed.

(** X18, witness: the template of (4, 3), then a template of three bytes,
    then a template that is not ASCII. *)
Lemma verify_reports_first_failing_template_witness :
  exists log probe,
    probe_of Sample.stub_imdecode face_34 "AAAA" = (log, Ok probe)
    /\ Forall (fun t => exists d, template_distance probe t = Ok d) [template_43]
    /\ template_distance probe "AAAA"
       = Raise (ValueError "buffer size must be a multiple of element size")
    /\ verify Sample.stub_imdecode face_34
              (Sample.request ([template_43] ++ "AAAA"%string :: [String "233" ""]) None)
       = (log, HTTPException 400 "buffer size must be a multiple of element size").
Proof.
  refine (ex_intro _ ?[log] (ex_intro _ ?[probe] _)).
  assert (Hp : probe_of Sample.stub_imdecode face_34 "AAAA" = (?log, Ok ?probe)).
  { vm_compute. reflexivity. }
  split; [exact Hp |].
  match goal with
  | |- ?A /\ _ => assert (Hgood : A)
  end.
  { apply Forall_cons; [| apply Forall_nil]. eexists. vm_compute. reflexivity. }
  split; [exact Hgood |].
  match goal with
  | |- ?A /\ _ => assert (Hbad : A) by (vm_compute; reflexivity)
  end.
  split; [exact Hbad |].
  exact (@verify_reports_first_failing_template
           IEEE.numpy IEEE.buffer _ Sample.stub_imdecode face_34
           "AAAA" [template_43] "AAAA" [String "233" ""] None _ _ _ Hp Hgood Hbad).
Defined.

(** X19, witness: a face whose raw embedding is (NaN, 1). *)
Lemma nan_probe_never_matches_witness :
  exists log probe x,
    probe_of Sample.stub_imdecode (Sample.one_face [Sample.nan32; Sample.f32 1 1]) "AAAA"
    = (log, Ok probe)
    /\ In x probe
    /\ is_nan (SF_of_b32 x) = true
    /\ verify Sample.stub_imdecode (Sample.one_face [Sample.nan32; Sample.f32 1 1])
              (Sample.request [template_34; template_43] None)
       = (log, Body {| res_match := false;
                       res_best_distance := lit_999_0 (Numpy := IEEE.numpy);
                       res_threshold := lit_0_45 (Numpy := IEEE.numpy);
                       res_model := MODEL |}).
Proof.
  refine (ex_intro _ ?[log] (ex_intro _ ?[probe] (ex_intro _ ?[x] _))).
  assert (Hp : probe_of Sample.stub_imdecode
                        (Sample.one_face [Sample.nan32; Sample.f32 1 1]) "AAAA"
               = (?log, Ok ?probe)).
  { vm_compute. reflexivity. }
  split; [exact Hp |].
  match goal with
  | |- ?A /\ _ => assert (Hin : A) by (left; reflexivity)
  end.
  split; [exact Hin |].
  match goal with
  | |- ?A /\ _ => assert (Hx : A) by (vm_compute; reflexivity)
  end.
  split; [exact Hx |].
  assert (Hall : Forall (fun t => exists emb, b64_to_emb (np := IEEE.numpy) t = Ok emb
                                             /\ List.length emb = 2%nat)
                        [template_34; template_43]).
  { apply Forall_cons; [eexists; split; [vm_compute; reflexivity | reflexivity] |].
    apply Forall_cons; [eexists; split; [vm_compute; reflexivity | reflexivity] |].
    apply Forall_nil. }
  exact (proj1 (nan_probe_never_matches
                  _ Sample.stub_imdecode (Sample.one_face [Sample.nan32; Sample.f32 1 1])
                  "AAAA" template_34 [template_43] None _ _ _ Hp Hin Hx Hall)).
Defined.

End Failures.
